(** * batch_top: the sampling and ranking engine of [batch_top.c]

    A shallow embedding of the parts of [batch_top.c] that read per-task
    accounting data, join two snapshots on the process identifier, rank the
    joined tasks, and probe the system-wide load signals, together with the
    properties the specification states about them.

    Conventions.
    - C integers are [Z] with the wrap-around of their width written out
      ([u32], [u64], [s32]); [int] and [unsigned] have 32 bits, [long],
      [unsigned long], [uint64_t] and [time_t] have 64.
    - C [double]s are Rocq's primitive binary64 floats.
    - A call that may leave the process is an [outcome]: it returns, it calls
      [exit] with a status after a diagnostic, or it faults.
    - What the kernel and the C library hand to the program (directory
      entries, the fields [sscanf] converted, the clock) is an argument of the
      function that consumes it. *)

From Stdlib Require Import String Ascii DecimalString.
From Stdlib Require Import ZArith List Lia Bool.
From Stdlib Require Import Permutation Sorted.
From Stdlib Require Import Floats.PrimFloat Floats.SpecFloat Floats.FloatOps.
Import ListNotations.
Open Scope Z_scope.

(** ** C arithmetic *)

Definition u32 (x : Z) : Z := x mod 2 ^ 32.
Definition u64 (x : Z) : Z := x mod 2 ^ 64.

(** The low 32 bits read as an [int]. *)
Definition s32 (x : Z) : Z :=
  let r := x mod 2 ^ 32 in if r <? 2 ^ 31 then r else r - 2 ^ 32.

(** [(double) x] for an integer [x]: round to nearest, ties to even. *)
Definition double_of_Z (x : Z) : float :=
  SF2Prim (binary_normalize 53 1024 x 0 false).

(** A finite [double] cut towards zero. *)
Definition trunc_double (f : float) : Z :=
  match Prim2SF f with
  | S754_finite s m e =>
      let v := if 0 <=? e then Z.pos m * 2 ^ e else Z.pos m / 2 ^ (- e) in
      if s then - v else v
  | _ => 0
  end.

(** Whether C defines [(unsigned) f] and [(int) f]: [f] is a number and,
    cut towards zero, fits the type. *)
Definition double_fits_unsigned (f : float) : bool :=
  match Prim2SF f with
  | S754_zero _ => true
  | S754_finite _ _ _ => (0 <=? trunc_double f) && (trunc_double f <? 2 ^ 32)
  | _ => false
  end.

Definition double_fits_int (f : float) : bool :=
  match Prim2SF f with
  | S754_zero _ => true
  | S754_finite _ _ _ =>
      (- 2 ^ 31 <=? trunc_double f) && (trunc_double f <? 2 ^ 31)
  | _ => false
  end.

(** [(unsigned) f].  Where C leaves the conversion undefined the value is
    the one the program compiled for x86-64 stores: the conversion is done
    on 64 bits, of which the low 32 are kept, and gives 0 for what does not
    fit 64 bits and for what is not a number. *)
Definition unsigned_of_double (f : float) : Z :=
  let t := trunc_double f in
  if (- 2 ^ 63 <=? t) && (t <? 2 ^ 63) then u32 t else 0.

(** [(int) f].  Where C leaves the conversion undefined the value is the one
    the program compiled for x86-64 stores, [INT_MIN]. *)
Definition int_of_double (f : float) : Z :=
  if double_fits_int f then trunc_double f else - 2 ^ 31.

(** ** Outcomes of a call *)

Inductive outcome (A : Type) : Type :=
| Ret (a : A)                          (* the call returns *)
| Exit (status : Z) (diag : string)    (* diagnostic on stderr, then exit(status) *)
| Fault (what : string).               (* a store outside an array, a division by zero *)
Arguments Ret {A} a.
Arguments Exit {A} status diag.
Arguments Fault {A} what.

Definition bind {A B : Type} (m : outcome A) (k : A -> outcome B) : outcome B :=
  match m with
  | Ret a => k a
  | Exit s d => Exit s d
  | Fault w => Fault w
  end.

Notation "x <- m ;; k" := (bind m (fun x => k))
  (at level 61, m at next level, right associativity).

(** ** Task snapshots *)

Definition TASK_COMM_LEN : Z := 16.

Record task_usage : Type := mk_task_usage {
  cmd : string;            (* char cmd[TASK_COMM_LEN] *)
  pid : Z;                 (* pid_t *)
  cpumsecs : Z;            (* uint64_t: total msecs CPU usage *)
  rssmram : Z;             (* uint64_t: 1/1000ths of RAM in RSS *)
  diskwait : Z             (* uint64_t: total msecs block I/O delays *)
}.

(** [task_usages_t]: the array with its element count. *)
Record task_usages_t : Type := mk_task_usages {
  tu_array : list task_usage;
  tu_nelem : Z
}.

(** The values [read_stat_file] takes from its environment: the three cached
    system constants, and what opening, reading and scanning
    [/proc/<pid>/stat] gave. *)
Record sysinfo : Type := mk_sysinfo {
  clk_tck : Z;             (* (unsigned) sysconf(_SC_CLK_TCK) *)
  pagesize : Z;            (* getpagesize(), in bytes *)
  memtotal : Z             (* the MemTotal: line of /proc/meminfo, 0 when absent *)
}.

Record stat_file : Type := mk_stat_file {
  st_pidstr_len : Z;       (* strlen(pidstr) *)
  st_open_ok : bool;       (* open() succeeded *)
  st_read_ok : bool;       (* read() did not return a negative count *)
  st_parens : bool;        (* strchr found '(' and strrchr found ')' *)
  st_comm : string;        (* the text between the first '(' and the last ')' *)
  st_line_pid : Z;         (* sscanf(buf, "%d") *)
  st_name_pid : Z;         (* sscanf(pidstr, "%d") *)
  st_rest_len : Z;         (* strlen(restofline) *)
  st_converted : Z;        (* the count the long sscanf returned *)
  st_utime : Z;            (* %lu *)
  st_stime : Z;            (* %lu *)
  st_cutime : Z;           (* %ld *)
  st_cstime : Z;           (* %ld *)
  st_rsspages : Z;         (* %lu *)
  st_blockioticks : Z      (* %lu *)
}.

Definition kernel_clock_ticks_per_second (si : sysinfo) : outcome Z :=
  if clk_tck si <=? 0
  then Exit 7 "Unable to get kernel ticks per second"
  else Ret (clk_tck si).

Definition kernel_page_size (si : sysinfo) : Z := pagesize si / 1024.

Definition ram_size_in_kbytes (si : sysinfo) : outcome Z :=
  if memtotal si =? 0
  then Exit 6 "Unable to find MemTotal in /proc/meminfo"
  else Ret (memtotal si).

(** [strncpy(cmd, openparen + 1, cmdlen); cmd[cmdlen - 1] = 0]. *)
Definition copy_comm (cmdlen : Z) (s : string) : string :=
  substring 0 (Z.to_nat (cmdlen - 1)) s.

(** The conversion of resident pages to milli-RAMs, lines 677-683. *)
Definition rssmram_of (rsspages pgsz ramsz : Z) : Z :=
  let rsskbytes := u64 (rsspages * pgsz) in   (* convert pages to kbytes *)
  let rssmram := u64 (1000 * rsskbytes) in    (* multiply before divide ... *)
  rssmram / ramsz.                            (* ... for better precision *)

Definition msecs_of_ticks (ticks ticks_per_sec : Z) : Z :=
  u64 (1000 * ticks) / ticks_per_sec.

(** What [read_stat_file] stored through its result pointers, all of which
    point into one element of the caller's array. *)
Inductive stores : Type :=
| NoStore                                 (* returned before any store *)
| StoreCmdPid (c : string) (p : Z)        (* cmd and *p_pid only *)
| StoreAll (tu : task_usage).             (* every field *)

Definition apply_stores (s : stores) (slot : task_usage) : task_usage :=
  match s with
  | NoStore => slot
  | StoreCmdPid c p =>
      {| cmd := c; pid := p; cpumsecs := cpumsecs slot;
         rssmram := rssmram slot; diskwait := diskwait slot |}
  | StoreAll tu => tu
  end.

(** [read_stat_file]: the value returned, with the stores made. *)
Definition read_stat_file (si : sysinfo) (f : stat_file) : outcome (Z * stores) :=
  if 30 <? st_pidstr_len f then Ret (-2, NoStore)     (* silly long pidstr *)
  else if negb (st_open_ok f) then Ret (-1, NoStore)  (* maybe task just exited *)
  else if negb (st_read_ok f) then Ret (-1, NoStore)  (* maybe task just exited *)
  else if negb (st_parens f) then Ret (-4, NoStore)   (* broken stat file format *)
  else
    let c := copy_comm TASK_COMM_LEN (st_comm f) in
    let partial := StoreCmdPid c (st_line_pid f) in
    if negb (st_line_pid f =? st_name_pid f) then Ret (-5, partial)
    else if st_rest_len f <? 50 then Ret (-6, partial) (* hopelessly short stat line *)
    else if (st_line_pid f =? 0) || (st_name_pid f =? 0) then Ret (-8, partial)
    else if negb (st_converted f =? 6) then Ret (-7, partial)
    else
      let pgsz := kernel_page_size si in
      ramsz <- ram_size_in_kbytes si ;;
      let rssmram := rssmram_of (st_rsspages f) pgsz ramsz in
      let ucutime := if st_cutime f <? 0 then 0 else u32 (st_cutime f) in
      let ucstime := if st_cstime f <? 0 then 0 else u32 (st_cstime f) in
      ticks_per_sec <- kernel_clock_ticks_per_second si ;;
      let cputicks := u64 (st_utime f + st_stime f + ucutime + ucstime) in
      Ret (0, StoreAll
             {| cmd := c;
                pid := st_line_pid f;
                cpumsecs := msecs_of_ticks cputicks ticks_per_sec;
                rssmram := rssmram;
                diskwait := msecs_of_ticks (st_blockioticks f) ticks_per_sec |}).

(** *** Enumerating /proc *)

Record dirent : Type := mk_dirent {
  d_name_isdigit : bool;   (* isdigit(ent->d_name[0]) *)
  d_stat : stat_file       (* what /proc/<d_name>/stat gives when read *)
}.

(** The stores of one [read_stat_file] call through [tup = tu_array + i]; the
    array has [length a] elements. *)
Definition store_at (a : list task_usage) (i : Z) (s : stores)
  : outcome (list task_usage) :=
  match s with
  | NoStore => Ret a
  | _ =>
      match nth_error a (Z.to_nat i) with
      | Some slot =>
          if 0 <=? i
          then Ret (firstn (Z.to_nat i) a ++ apply_stores s slot
                      :: skipn (S (Z.to_nat i)) a)
          else Fault "store outside tu_array"
      | None => Fault "store outside tu_array"
      end
  end.

(** The [while ((ent = readdir(procdir)) != NULL && i < nt)] loop; [ents] is
    what successive [readdir] calls return. *)
Fixpoint scan_proc (si : sysinfo) (nt : Z) (ents : list dirent)
    (i : Z) (a : list task_usage) : outcome task_usages_t :=
  match ents with
  | [] => Ret {| tu_array := a; tu_nelem := i |}
  | ent :: rest =>
      if i <? nt then
        if negb (d_name_isdigit ent) then scan_proc si nt rest i a
        else
          r <- read_stat_file si (d_stat ent) ;;
          a' <- store_at a i (snd r) ;;
          if fst r <? 0 then
            if fst r <=? -2
            then Exit 4 "read_stat_file"
            else scan_proc si nt rest i a'
          else scan_proc si nt rest (i + 1) a'
      else Ret {| tu_array := a; tu_nelem := i |}
  end.

(** [get_task_usages].  [nt] is [est_num_tasks()], the link count of [/proc];
    the array is [malloc(nt * sizeof(struct task_usage))], taken to succeed,
    whose elements all start as [garbage]. *)
Definition get_task_usages (si : sysinfo) (nt : Z) (garbage : task_usage)
    (ents : list dirent) : outcome task_usages_t :=
  scan_proc si nt ents 0 (repeat garbage (Z.to_nat nt)).

(** The records of a snapshot: the first [tu_nelem] elements of its array. *)
Definition tasks_of (t : task_usages_t) : list task_usage :=
  firstn (Z.to_nat (tu_nelem t)) (tu_array t).

(** The record a successful read of one entry yields. *)
Definition task_read (si : sysinfo) (ent : dirent) : option task_usage :=
  if d_name_isdigit ent then
    match read_stat_file si (d_stat ent) with
    | Ret (0, StoreAll tu) => Some tu
    | _ => None
    end
  else None.

(** The records of all entries that read successfully, in directory order. *)
Fixpoint readable (si : sysinfo) (ents : list dirent) : list task_usage :=
  match ents with
  | [] => []
  | ent :: rest =>
      match task_read si ent with
      | Some tu => tu :: readable si rest
      | None => readable si rest
      end
  end.

(** ** Joining two snapshots on the pid: [show_hogs] *)

(** Option settings: the [val_*] and [flag_*] globals, and [ncpus]. *)
Record settings : Type := mk_settings {
  val_t : float;           (* inner loop cycle time in seconds *)
  val_p : float;           (* load average that triggers inner loop *)
  val_c : float;           (* CPU load % that triggers inner loop *)
  val_m : float;           (* Mem load % that triggers inner loop *)
  val_u : Z;               (* int: cpuset memory pressure that triggers inner loop *)
  val_q : Z;               (* long: msecs/sec of CPU usage threshold *)
  val_b : Z;               (* long: msecs/sec waiting on block I/O *)
  val_r : Z;               (* long: 1/1000ths of RAM in rss of a big task *)
  val_n : Z;               (* long: max number of busy tasks to print *)
  flag_C : bool;           (* show CPU hogs *)
  flag_M : bool;           (* show Memory hogs *)
  flag_B : bool;           (* show tasks slowed by block I/O diskwait *)
  szcmdlinebuf : Z;        (* int: length of cmdline to display *)
  ncpus : Z                (* int: number of CPUs *)
}.

(** [get_ncpus]: [found] is the count of [cpu<digit>] entries, or [None] when
    the directory cannot be opened. *)
Definition get_ncpus (found : option Z) : Z :=
  match found with
  | None => 1
  | Some n => if n =? 0 then 1 else n
  end.

Record join_on_pid_t : Type := mk_join {
  jp_i : nat;              (* index into prior *)
  jp_j : nat;              (* index into latest, with the same pid *)
  jp_cpumsecs : Z;         (* unsigned: msecs per sec of cpu usage *)
  jp_rssmrams : Z;         (* unsigned: milli-ram's in RSS *)
  jp_diskwait : Z;         (* unsigned: msecs per sec of block I/O diskwait *)
  jp_showme : bool         (* set if this task is to be displayed *)
}.

Definition no_task : task_usage :=
  {| cmd := EmptyString; pid := 0; cpumsecs := 0; rssmram := 0; diskwait := 0 |}.

(** The element macros; every use below is at an index inside the list. *)
Definition elem (p : list task_usage) (i : nat) : task_usage := nth i p no_task.
Definition PID (p : list task_usage) (i : nat) : Z := pid (elem p i).
Definition CMD (p : list task_usage) (i : nat) : string := cmd (elem p i).
Definition RAM (p : list task_usage) (i : nat) : Z := rssmram (elem p i).

Definition out_of_order_diag : string :=
  "/proc pids out of order - fail"%string.

(** The join loop, lines 1532-1549.  [i] and [j] scan [prior] and [latest];
    the result lists the index pairs stored through [jp].  Every iteration
    advances [i] or [j], so [length prior + length latest] iterations are
    enough: [bound] counts the iterations left, and the loop never needs more
    (lemma [join_walk_no_fault] below). *)
Fixpoint join_walk (bound : nat) (prior latest : list task_usage)
    (i j : nat) : outcome (list (nat * nat)) :=
  if (i <? length prior)%nat && (j <? length latest)%nat then
    match bound with
    | O => Fault "join loop bound"
    | S bound' =>
        if (0 <? j)%nat && (PID latest (j - 1) >? PID latest j) then
          Exit 9 out_of_order_diag
        else if PID prior i =? PID latest j then
          rest <- join_walk bound' prior latest (S i) (S j) ;;
          Ret ((i, j) :: rest)
        else if PID prior i <? PID latest j then
          join_walk bound' prior latest (S i) j
        else
          join_walk bound' prior latest i (S j)
    end
  else Ret [].

Definition join_on_pid (prior latest : list task_usage)
  : outcome (list (nat * nat)) :=
  join_walk (length prior + length latest) prior latest 0 0.

(** The second loop, lines 1554-1569: the rates of one joined pair. *)
Definition rate_per_interval (cfg : settings) (prior_ms latest_ms : Z) : Z :=
  unsigned_of_double (PrimFloat.div (double_of_Z (u64 (latest_ms - prior_ms)))
                                    (val_t cfg)).

Definition set_rates (cfg : settings) (prior latest : list task_usage)
    (ij : nat * nat) : join_on_pid_t :=
  let (i, j) := ij in
  let prior_cpumsecs := cpumsecs (elem prior i) in
  let latest_cpumsecs := cpumsecs (elem latest j) in
  let prior_diskwait := diskwait (elem prior i) in
  let latest_diskwait := diskwait (elem latest j) in
  {| jp_i := i;
     jp_j := j;
     jp_cpumsecs :=
       rate_per_interval cfg prior_cpumsecs latest_cpumsecs / u32 (ncpus cfg);
     jp_rssmrams := u32 (RAM latest j);
     jp_diskwait := rate_per_interval cfg prior_diskwait latest_diskwait;
     jp_showme := false |}.

Definition joined_tasks (cfg : settings) (prior latest : list task_usage)
  : outcome (list join_on_pid_t) :=
  pairs <- join_on_pid prior latest ;;
  Ret (map (set_rates cfg prior latest) pairs).

(** *** Ranking *)

Definition comparator : Type := join_on_pid_t -> join_on_pid_t -> Z.

(** The three [qsort] comparison routines: an unsigned difference returned
    as an [int]. *)
Definition cpumsecs_cmp : comparator :=
  fun jp1 jp2 => s32 (u32 (jp_cpumsecs jp2 - jp_cpumsecs jp1)).
Definition rssmrams_cmp : comparator :=
  fun jp1 jp2 => s32 (u32 (jp_rssmrams jp2 - jp_rssmrams jp1)).
Definition diskwait_cmp : comparator :=
  fun jp1 jp2 => s32 (u32 (jp_diskwait jp2 - jp_diskwait jp1)).

(** [cmp] orders the elements of [l] consistently, as [qsort] requires of its
    comparison function. *)
Definition consistent_on (cmp : comparator) (l : list join_on_pid_t) : Prop :=
  (forall x y, In x l -> In y l -> cmp x y <= 0 \/ cmp y x <= 0) /\
  (forall x y z, In x l -> In y l -> In z l ->
     cmp x y <= 0 -> cmp y z <= 0 -> cmp x z <= 0).

Definition in_order (cmp : comparator) (x y : join_on_pid_t) : Prop :=
  cmp x y <= 0.

(** The C library's [qsort]: any function that, given a consistent comparison
    function, rearranges the array so that no element compares greater than a
    later one.  The order of elements that compare equal is left open. *)
Record qsort_impl : Type := mk_qsort {
  qsort : comparator -> list join_on_pid_t -> list join_on_pid_t;
  qsort_perm : forall cmp l, consistent_on cmp l -> Permutation l (qsort cmp l);
  qsort_sorted : forall cmp l, consistent_on cmp l ->
                   StronglySorted (in_order cmp) (qsort cmp l)
}.

Definition set_showme (jp : join_on_pid_t) : join_on_pid_t :=
  {| jp_i := jp_i jp; jp_j := jp_j jp; jp_cpumsecs := jp_cpumsecs jp;
     jp_rssmrams := jp_rssmrams jp; jp_diskwait := jp_diskwait jp;
     jp_showme := true |}.

(** [for (jp = joinp; jp < jpmax; jp++) if (metric >= threshold) showme = 1],
    with [n = jpmax - joinp]. *)
Fixpoint mark_hogs (n : nat) (metric : join_on_pid_t -> Z) (thr : Z)
    (l : list join_on_pid_t) : list join_on_pid_t :=
  match n, l with
  | S n', jp :: rest =>
      (if thr <=? metric jp then set_showme jp else jp)
        :: mark_hogs n' metric thr rest
  | _, _ => l
  end.

(** Whether that loop set [got_some]. *)
Definition marks_some (n : nat) (metric : join_on_pid_t -> Z) (thr : Z)
    (l : list join_on_pid_t) : bool :=
  existsb (fun jp => thr <=? metric jp) (firstn n l).

(** [jpmax - joinp = min(val_n, jpend - joinp)], [min] taking two [int]s. *)
Definition jpmax_count (cfg : settings) (l : list join_on_pid_t) : nat :=
  Z.to_nat (Z.min (s32 (val_n cfg)) (s32 (Z.of_nat (length l)))).

(** One [if (flag) { qsort; mark }] block. *)
Definition rank_pass (Q : qsort_impl) (enabled : bool) (cmp : comparator)
    (metric : join_on_pid_t -> Z) (thr : Z) (n : nat)
    (st : list join_on_pid_t * bool) : list join_on_pid_t * bool :=
  if enabled then
    let sorted := qsort Q cmp (fst st) in
    (mark_hogs n metric thr sorted, snd st || marks_some n metric thr sorted)
  else st.

(** The three blocks in the order of the source: memory, diskwait, CPU. *)
Definition rank_tasks (Q : qsort_impl) (cfg : settings)
    (l : list join_on_pid_t) : list join_on_pid_t * bool :=
  let n := jpmax_count cfg l in
  let st := (l, false) in
  let st := rank_pass Q (flag_M cfg) rssmrams_cmp jp_rssmrams (val_r cfg) n st in
  let st := rank_pass Q (flag_B cfg) diskwait_cmp jp_diskwait (val_b cfg) n st in
  rank_pass Q (flag_C cfg) cpumsecs_cmp jp_cpumsecs (val_q cfg) n st.

(** What [show_hogs] prints: the notice, or the header and one line for each
    marked element, in array order ([hog_lines] below gives the fields of a
    line). *)
Inductive hog_report : Type :=
| NoHogs                                  (* " - no individual tasks are hogs." *)
| HogTable (rows : list join_on_pid_t).

Definition show_hogs (Q : qsort_impl) (cfg : settings)
    (prior latest : list task_usage) : outcome hog_report :=
  joinp <- joined_tasks cfg prior latest ;;
  let (ranked, got_some) := rank_tasks Q cfg joinp in
  if got_some then Ret (HogTable (filter jp_showme ranked)) else Ret NoHogs.

(** ** The inner loop's pairing of snapshots *)

(** A snapshot together with the wall-clock time, in microseconds, at which
    [get_task_usages] read it.  The program keeps no such time: neither
    [task_usages_t] nor [show_hogs] has a field or an argument for it. *)
Record sample : Type := mk_sample {
  read_at : Z;
  sample_tasks : list task_usage
}.

(** The reports of the inner loop of [main]: [prior] is retired in favour of
    [latest] after each report, and a report that exits ends the process. *)
Fixpoint inner_loop_reports (Q : qsort_impl) (cfg : settings)
    (prior : sample) (later : list sample) : list (outcome hog_report) :=
  match later with
  | [] => []
  | latest :: more =>
      let r := show_hogs Q cfg (sample_tasks prior) (sample_tasks latest) in
      match r with
      | Ret _ => r :: inner_loop_reports Q cfg latest more
      | _ => [r]
      end
  end.

(** ** System-wide probes *)

(** *** CPU load *)

(** [prev_cpu_active] and [prev_cpu_total]; both start at zero. *)
Record cpu_prev : Type := mk_cpu_prev {
  prev_cpu_active : Z;
  prev_cpu_total : Z
}.

Definition cpu_prev_init : cpu_prev :=
  {| prev_cpu_active := 0; prev_cpu_total := 0 |}.

(** The field loop of [get_cumulative_cpu_stats] over the numeric fields of
    the first line of [/proc/stat]: [(fldnum, sum_ticks, idle_ticks)]. *)
Fixpoint sum_fields (fields : list Z) (fldnum sum_ticks idle_ticks : Z)
  : Z * Z * Z :=
  match fields with
  | [] => (fldnum, sum_ticks, idle_ticks)
  | f :: rest =>
      let idle_ticks := if fldnum =? 4 then f else idle_ticks in
      sum_fields rest (fldnum + 1) (u64 (sum_ticks + f)) idle_ticks
  end.

(** [get_cumulative_cpu_stats]: [(active, total)]. *)
Definition get_cumulative_cpu_stats (fields : list Z) : outcome (Z * Z) :=
  match sum_fields fields 1 0 0 with
  | (fldnum, sum_ticks, idle_ticks) =>
      if fldnum <? 5 then Exit 1 "first line too few fields"
      else Ret (u64 (sum_ticks - idle_ticks), sum_ticks)
  end.

Record cpuload_result : Type := mk_cpuload_result {
  cl_load : float;                (* the value returned *)
  cl_diag : option string;        (* what went to stderr *)
  cl_prev : cpu_prev              (* the globals afterwards *)
}.

(** [read_cpuload], given what [get_cumulative_cpu_stats] stored. *)
Definition read_cpuload (st : cpu_prev) (active total : Z) : cpuload_result :=
  if active <? prev_cpu_active st then
    {| cl_load := 0%float;
       cl_diag := Some " ... cpu load active ticks shrank"%string;
       cl_prev := st |}
  else if total <? prev_cpu_total st then
    {| cl_load := 0%float;
       cl_diag := Some " ... cpu load total ticks shrank"%string;
       cl_prev := st |}
  else if total =? 0 then
    {| cl_load := 0%float;
       cl_diag := Some " ... cpu load total ticks shrank to ZERO"%string;
       cl_prev := st |}
  else
    let delta_active := u64 (active - prev_cpu_active st) in
    let delta_total := u64 (total - prev_cpu_total st) in
    let delta_total := if delta_total =? 0 then 1 else delta_total in
    {| cl_load := PrimFloat.div (double_of_Z delta_active)
                                (double_of_Z delta_total);
       cl_diag := None;
       cl_prev := {| prev_cpu_active := active; prev_cpu_total := total |} |}.

(** *** Cpuset memory pressure *)

Definition MAX_PREAD_FD : Z := 32.

(** What the discovery in [memory_pressure_fd] finds on the system. *)
Record cpuset_env : Type := mk_cpuset_env {
  mounts_open : bool;                 (* fopen("/proc/mounts") succeeded *)
  mounts : list (list string);        (* its lines, split at ", " by strtok *)
  mount_dir_fd : string -> Z;         (* open(savmnt, O_RDONLY|O_PATH) *)
  mpe_enabled : string -> bool;       (* cmp_enabled_at(cps_dir_fd, name) *)
  pressure_fd : string -> Z           (* openat(cps_dir_fd, fname, O_RDONLY) *)
}.

(** The [strtok] loop over one line of [/proc/mounts]: [(mnt, found_line)]. *)
Fixpoint scan_mount_fields (fields : list string) (fieldnum : Z)
    (mnt : option string) : option string * bool :=
  match fields with
  | [] => (mnt, false)
  | q :: rest =>
      let fieldnum := fieldnum + 1 in
      if fieldnum =? 2 then scan_mount_fields rest fieldnum (Some q)
      else if (2 <? fieldnum) && String.eqb q "cpuset"%string then (mnt, true)
      else scan_mount_fields rest fieldnum mnt
  end.

(** The line loop: the mount point of the first cpuset line, if any. *)
Fixpoint find_cpuset_mount (lines : list (list string)) : option string :=
  match lines with
  | [] => None
  | fields :: rest =>
      match scan_mount_fields fields 0 None with
      | (Some mnt, true) => Some mnt
      | _ => find_cpuset_mount rest
      end
  end.

Definition mppaths : list (string * string) :=
  [ ("memory_pressure_enabled", "memory_pressure");
    ("cpuset.memory_pressure_enabled", "cpuset.memory_pressure") ]%string.

Definition mempres_note : string :=
  "Note: Cpuset not mounted or memory pressure not enabled."%string.

(** The statics of [memory_pressure_fd] and of [read_mempres], and the lines
    put on stdout so far. *)
Record mempres_state : Type := mk_mempres_state {
  mpfd_initialized : bool;
  mpfd_cmp_fd : Z;
  rm_initialized : bool;
  rm_cmp_fd : Z;
  notes : list string
}.

Definition mempres_init : mempres_state :=
  {| mpfd_initialized := false; mpfd_cmp_fd := -1;
     rm_initialized := false; rm_cmp_fd := -1; notes := [] |}.

(** The [for] loop over [mppaths]: the descriptor opened, or [None] when no
    enabled flag is found. *)
Fixpoint probe_mppaths (env : cpuset_env) (paths : list (string * string))
  : outcome (option Z) :=
  match paths with
  | [] => Ret None
  | (flagname, fname) :: rest =>
      if mpe_enabled env flagname then
        let fd := pressure_fd env fname in
        if fd <? 0 then Exit 1 "openat"
        else if MAX_PREAD_FD <=? fd then Exit 1 "stash_pread_fd"
        else Ret (Some fd)
      else probe_mppaths env rest
  end.

(** [memory_pressure_fd]: the descriptor returned, [-1] when there is none. *)
Definition memory_pressure_fd (env : cpuset_env) (st : mempres_state)
  : outcome (Z * mempres_state) :=
  if mpfd_initialized st then Ret (mpfd_cmp_fd st, st)
  else
    let st := {| mpfd_initialized := true; mpfd_cmp_fd := mpfd_cmp_fd st;
                 rm_initialized := rm_initialized st; rm_cmp_fd := rm_cmp_fd st;
                 notes := notes st |} in
    let no_cpuset_memory_pressure :=
      Ret (mpfd_cmp_fd st,
           {| mpfd_initialized := true; mpfd_cmp_fd := mpfd_cmp_fd st;
              rm_initialized := rm_initialized st; rm_cmp_fd := rm_cmp_fd st;
              notes := notes st ++ [mempres_note] |}) in
    if negb (mounts_open env) then Exit 1 "fopen /proc/mounts"
    else
      match find_cpuset_mount (mounts env) with
      | None => no_cpuset_memory_pressure
      | Some savmnt =>
          if mount_dir_fd env savmnt <? 0 then Exit 1 "open"
          else
            found <- probe_mppaths env mppaths ;;
            match found with
            | Some fd =>
                Ret (fd,
                     {| mpfd_initialized := true; mpfd_cmp_fd := fd;
                        rm_initialized := rm_initialized st;
                        rm_cmp_fd := rm_cmp_fd st; notes := notes st |})
            | None => no_cpuset_memory_pressure
            end
      end.

(** [read_mempres].  [nread] is what [my_pread] on the pressure file returns
    and [value] what [strtod] makes of the bytes read. *)
Definition read_mempres (cfg : settings) (env : cpuset_env)
    (nread : Z) (value : float) (st : mempres_state)
  : outcome (Z * mempres_state) :=
  if val_u cfg =? 0 then Ret (0, st)
  else
    st <- (if rm_initialized st then Ret st
           else
             r <- memory_pressure_fd env st ;;
             Ret {| mpfd_initialized := mpfd_initialized (snd r);
                    mpfd_cmp_fd := mpfd_cmp_fd (snd r);
                    rm_initialized := true; rm_cmp_fd := fst r;
                    notes := notes (snd r) |}) ;;
    if rm_cmp_fd st <? 0 then Ret (1, st)
    else if nread <? 1 then Exit 1 "pread cpuset memory pressure"
    else Ret (int_of_double value, st).

(** *** The load predicate *)

Definition gt_double (a b : float) : bool := PrimFloat.ltb b a.

Definition system_is_loaded (cfg : settings)
    (lavg cpu_load mem_load : float) (mem_pres : Z) : bool :=
  gt_double lavg (val_p cfg)
  || gt_double (PrimFloat.mul 100%float cpu_load) (val_c cfg)
  || gt_double (PrimFloat.mul 100%float mem_load) (val_m cfg)
  || (mem_pres >? val_u cfg).

(** The first three terms of the predicate alone. *)
Definition other_signals_loaded (cfg : settings)
    (lavg cpu_load mem_load : float) : bool :=
  gt_double lavg (val_p cfg)
  || gt_double (PrimFloat.mul 100%float cpu_load) (val_c cfg)
  || gt_double (PrimFloat.mul 100%float mem_load) (val_m cfg).

(** ** Disk usage *)

Record diskstat_t : Type := mk_diskstat {
  path : string;             (* e.g. "/sys/block/sda/stat" *)
  name : string;             (* e.g. "sda" or "sdb1" *)
  prev_time_in_queue : Z         (* uint32_t *)
}.

(** [disks_monitored] (the empty list is the NULL pointer) and the static
    [prev_now] of [get_disks_monitored]. *)
Record disks_state : Type := mk_disks_state {
  disks_monitored : list diskstat_t;
  prev_now : Z
}.

(** What [getfield(path, 11)] and [sscanf(fld11_str, "%u", ...)] give. *)
Inductive field11 : Type :=
| NoField
| NotANumber
| Counter (cur_time_in_queue : Z).   (* uint32_t *)

Definition decimal (z : Z) : string :=
  NilZero.string_of_uint (N.to_uint (Z.to_N z)).

(** The rate of one disk, lines 1489-1493: [None] is a division by zero. *)
Definition disk_rate (prev cur now prev_now : Z) : option Z :=
  let delta_usage := u32 (cur - prev) in
  let delta_time := now - prev_now in
  let delta_time := if delta_time <? 1 then 1 else delta_time in
  let divisor := u32 delta_time in
  if divisor =? 0 then None else Some (delta_usage / divisor).

(** The [for] loop over the monitored disks: the strings added to the argz
    vector, and the disks with their counters updated. *)
Fixpoint scan_disks (read : string -> field11) (now prev_now : Z)
    (disks : list diskstat_t) : outcome (list string * list diskstat_t) :=
  match disks with
  | [] => Ret ([], [])
  | dsp :: rest =>
      match read (path dsp) with
      | NoField => Exit 1 "no field 11"
      | NotANumber => Exit 1 "sscanf cur_time_in_queue"
      | Counter cur =>
          match disk_rate (prev_time_in_queue dsp) cur now prev_now with
          | None => Fault "division by zero"
          | Some mdsk =>
              let mstr := (name dsp ++ ":" ++ decimal mdsk)%string in
              let dsp' := {| path := path dsp; name := name dsp;
                             prev_time_in_queue := cur |} in
              r <- scan_disks read now prev_now rest ;;
              Ret (mstr :: fst r, dsp' :: snd r)
          end
      end
  end.

(** [argz_stringify(argz, argz_len, ' ')]. *)
Definition stringify (parts : list string) : string :=
  String.concat " " parts.

(** [get_disks_monitored]: the string returned and the state afterwards;
    [now] is [time(NULL)]. *)
Definition get_disks_monitored (read : string -> field11) (now : Z)
    (st : disks_state) : outcome (string * disks_state) :=
  match disks_monitored st with
  | [] => Ret (EmptyString, st)
  | disks =>
      r <- scan_disks read now (prev_now st) disks ;;
      Ret (stringify ("; diskusage"%string :: fst r),
           {| disks_monitored := snd r; prev_now := now |})
  end.

(** ** The command line of a displayed task *)

Definition NUL : ascii := Ascii.zero.

(** What [open] and [read] on [/proc/<pid>/cmdline] give: [data] holds the
    bytes [read] stored, [cnt] the count it returned. *)
Inductive cmdline_read : Type :=
| OpenFails
| ReadReturns (cnt : Z) (data : list ascii).

(** Bytes stored from the start of a buffer that holds them. *)
Definition store_bytes (buf bytes : list ascii) : list ascii :=
  firstn (length buf) bytes ++ skipn (length bytes) buf.

(** [buf[i] = c]. *)
Definition poke (buf : list ascii) (i : nat) (c : ascii) : list ascii :=
  if (i <? length buf)%nat then firstn i buf ++ c :: skipn (S i) buf else buf.

(** [sprintf("%*s", width, s)]: [s] right-justified, then the NUL. *)
Definition sprintf_right (width : Z) (s : list ascii) : list ascii :=
  repeat " "%char (Z.to_nat (width - Z.of_nat (length s))) ++ s ++ [NUL].

(** [for (i = 0; i < cnt-1; i++) if (buf[i] == 0) buf[i] = ' '], with
    [n = cnt - 1]. *)
Fixpoint blank_nuls (n : nat) (buf : list ascii) : list ascii :=
  match n, buf with
  | S n', c :: rest =>
      (if Ascii.eqb c NUL then " "%char else c) :: blank_nuls n' rest
  | _, _ => buf
  end.

Definition unknown : list ascii := list_ascii_of_string "<unknown>".

(** [get_cmdline]: the contents of [cmdlinebuf] afterwards.  [cmdlinebuf]
    lists the bytes of the block that [main] allocates; a store beyond them
    is a fault.  On the failure path [sprintf] stores the placeholder padded
    to [szcmdlinebuf] columns and then the NUL. *)
Definition get_cmdline (cfg : settings) (cmdlinebuf : list ascii)
    (r : cmdline_read) : outcome (list ascii) :=
  match r with
  | OpenFails =>
      let bytes := sprintf_right (szcmdlinebuf cfg) unknown in
      if (length cmdlinebuf <? length bytes)%nat
      then Fault "sprintf past cmdlinebuf"
      else
        let buf := store_bytes cmdlinebuf bytes in
        let i := Z.to_nat (szcmdlinebuf cfg - 1) in
        if (i <? length buf)%nat then Ret (poke buf i NUL)
        else Fault "store past cmdlinebuf"
  | ReadReturns cnt data =>
      if (length cmdlinebuf <? length data)%nat
      then Fault "read past cmdlinebuf"
      else
        let buf := store_bytes cmdlinebuf data in
        let buf := blank_nuls (Z.to_nat (cnt - 1)) buf in
        let i := Z.to_nat (Z.max 0 (cnt - 1)) in
        if (i <? length buf)%nat then Ret (poke buf i NUL)
        else Fault "store past cmdlinebuf"
  end.

(** The string a [char *] into a buffer denotes: up to the first NUL. *)
Fixpoint c_string (buf : list ascii) : list ascii :=
  match buf with
  | [] => []
  | c :: rest => if Ascii.eqb c NUL then [] else c :: c_string rest
  end.

(** One line of the table, as the [printf] in [show_hogs] receives it:
    [%d] reads the two [unsigned] rates as [int]s, and [%-.*s] prints at most
    [szcmdlinebuf] bytes of the command line. *)
Record hog_line : Type := mk_hog_line {
  hl_pid : Z;
  hl_cmd : string;
  hl_mcpus : Z;
  hl_mrams : Z;
  hl_diskwait : Z;
  hl_cmdline : list ascii
}.

(** The lines printed for the rows of a [HogTable]: [cmdline_of] is what
    [/proc/<pid>/cmdline] gives at display time, and the one buffer
    [cmdlinebuf] is written again for every line. *)
Fixpoint hog_lines (cfg : settings) (latest : list task_usage)
    (cmdline_of : Z -> cmdline_read) (cmdlinebuf : list ascii)
    (rows : list join_on_pid_t) : outcome (list hog_line) :=
  match rows with
  | [] => Ret []
  | jp :: rest =>
      let p := PID latest (jp_j jp) in
      buf <- get_cmdline cfg cmdlinebuf (cmdline_of p) ;;
      lines <- hog_lines cfg latest cmdline_of buf rest ;;
      Ret ({| hl_pid := p;
              hl_cmd := CMD latest (jp_j jp);
              hl_mcpus := s32 (jp_cpumsecs jp);
              hl_mrams := s32 (jp_rssmrams jp);
              hl_diskwait := jp_diskwait jp;
              hl_cmdline :=
                firstn (Z.to_nat (szcmdlinebuf cfg)) (c_string buf) |}
             :: lines)
  end.

(** *** A sorting routine that meets the contract of [qsort] *)

Fixpoint insert_by (cmp : comparator) (x : join_on_pid_t)
    (l : list join_on_pid_t) : list join_on_pid_t :=
  match l with
  | [] => [x]
  | y :: rest =>
      if cmp x y <=? 0 then x :: y :: rest else y :: insert_by cmp x rest
  end.

Fixpoint isort_by (cmp : comparator) (l : list join_on_pid_t)
  : list join_on_pid_t :=
  match l with
  | [] => []
  | x :: rest => insert_by cmp x (isort_by cmp rest)
  end.

(** *** The three dimensions of the ranking *)

Inductive dimension : Type := Memory | DiskWait | Cpu.

Definition dim_metric (d : dimension) : join_on_pid_t -> Z :=
  match d with
  | Memory => jp_rssmrams
  | DiskWait => jp_diskwait
  | Cpu => jp_cpumsecs
  end.

Definition dim_cmp (d : dimension) : comparator :=
  match d with
  | Memory => rssmrams_cmp
  | DiskWait => diskwait_cmp
  | Cpu => cpumsecs_cmp
  end.

Definition dim_threshold (cfg : settings) (d : dimension) : Z :=
  match d with
  | Memory => val_r cfg
  | DiskWait => val_b cfg
  | Cpu => val_q cfg
  end.

Definition dim_enabled (cfg : settings) (d : dimension) : bool :=
  match d with
  | Memory => flag_M cfg
  | DiskWait => flag_B cfg
  | Cpu => flag_C cfg
  end.

(** [x] is not below [y] in dimension [d]. *)
Definition descending (d : dimension) (x y : join_on_pid_t) : Prop :=
  dim_metric d y <= dim_metric d x.

(** The metric of every element fits the [int] the comparison returns. *)
Definition fits_int (d : dimension) (l : list join_on_pid_t) : Prop :=
  Forall (fun jp => 0 <= dim_metric d jp < 2 ^ 31) l.

(** What the marking loop makes of the element at index [k]. *)
Definition marked_at (n : nat) (d : dimension) (thr : Z) (k : nat)
    (jp : join_on_pid_t) : join_on_pid_t :=
  if (k <? n)%nat && (thr <=? dim_metric d jp) then set_showme jp else jp.

(** *** The rate as the specification words it *)

(** The wall-clock seconds between the reads of two samples. *)
Definition elapsed_seconds (prior latest : sample) : float :=
  PrimFloat.div (double_of_Z (read_at latest - read_at prior)) 1000000%float.

(** The CPU rate of the pair [(i, j)] computed over the elapsed seconds. *)
Definition elapsed_cpu_rate (cfg : settings) (prior latest : sample)
    (i j : nat) : Z :=
  unsigned_of_double
    (PrimFloat.div
       (double_of_Z (u64 (cpumsecs (elem (sample_tasks latest) j)
                          - cpumsecs (elem (sample_tasks prior) i))))
       (elapsed_seconds prior latest))
  / u32 (ncpus cfg).

(** A sample read at another time. *)
Definition retimed (shift : Z -> Z) (s : sample) : sample :=
  {| read_at := shift (read_at s); sample_tasks := sample_tasks s |}.

(** ** Specification-side notions and sample inputs *)

(** A system with 4 kbyte pages, 100 ticks per second and 1000000 kbytes of
    RAM, and stat files that read well. *)
Definition sysinfo_4k : sysinfo :=
  {| clk_tck := 100; pagesize := 4096; memtotal := 1000000 |}.

Definition stat_256_pages : stat_file :=
  {| st_pidstr_len := 4; st_open_ok := true; st_read_ok := true;
     st_parens := true; st_comm := "httpd"; st_line_pid := 1234;
     st_name_pid := 1234; st_rest_len := 180; st_converted := 6;
     st_utime := 50; st_stime := 20; st_cutime := 0; st_cstime := 0;
     st_rsspages := 256; st_blockioticks := 3 |}.

Definition stat_of_pid (p : Z) : stat_file :=
  {| st_pidstr_len := 4; st_open_ok := true; st_read_ok := true;
     st_parens := true; st_comm := "sh"; st_line_pid := p;
     st_name_pid := p; st_rest_len := 180; st_converted := 6;
     st_utime := 50; st_stime := 20; st_cutime := 0; st_cstime := 0;
     st_rsspages := 256; st_blockioticks := 3 |}.

(** A stat line whose pid differs from the directory name: return value -5. *)
Definition stat_mismatch : stat_file :=
  {| st_pidstr_len := 4; st_open_ok := true; st_read_ok := true;
     st_parens := true; st_comm := "sh"; st_line_pid := 7;
     st_name_pid := 8; st_rest_len := 180; st_converted := 6;
     st_utime := 0; st_stime := 0; st_cutime := 0; st_cstime := 0;
     st_rsspages := 0; st_blockioticks := 0 |}.

Definition proc_entries : list dirent :=
  [ {| d_name_isdigit := false; d_stat := stat_of_pid 0 |};
    {| d_name_isdigit := true; d_stat := stat_of_pid 1 |};
    {| d_name_isdigit := true; d_stat := stat_of_pid 2 |} ].

Definition surplus_entries : list dirent :=
  [ {| d_name_isdigit := true; d_stat := stat_of_pid 3 |};
    {| d_name_isdigit := true; d_stat := stat_mismatch |} ].

(** The increase of a 32-bit counter from [prev] to [cur], on the assumption
    that it wrapped at most once. *)
Definition wrap_delta (prev cur : Z) : Z := (cur - prev) mod 2 ^ 32.

Definition counter_of (r : field11) : Z :=
  match r with
  | Counter c => c
  | _ => 0
  end.

(** The rate the specification gives for one disk. *)
Definition expected_rate (read : string -> field11) (now prev_now : Z)
    (dsp : diskstat_t) : Z :=
  wrap_delta (prev_time_in_queue dsp) (counter_of (read (path dsp)))
    / Z.max 1 (now - prev_now).

Definition expected_entry (read : string -> field11) (now prev_now : Z)
    (dsp : diskstat_t) : string :=
  (name dsp ++ ":" ++ decimal (expected_rate read now prev_now dsp))%string.

Definition updated_disk (read : string -> field11) (dsp : diskstat_t)
  : diskstat_t :=
  {| path := path dsp; name := name dsp;
     prev_time_in_queue := counter_of (read (path dsp)) |}.

(** Two disks: the counter of sda wrapped since it was last read. *)
Definition read_sda_sdb (file : string) : field11 :=
  if String.eqb file "/sys/block/sda/stat" then Counter 100 else Counter 65000.

Definition disks_sda_sdb : disks_state :=
  {| disks_monitored :=
       [ {| path := "/sys/block/sda/stat"; name := "sda";
            prev_time_in_queue := 4294967290 |};
         {| path := "/sys/block/sdb/stat"; name := "sdb";
            prev_time_in_queue := 5000 |} ];
     prev_now := 1700000000 |}.

Definition nul_to_space (c : ascii) : ascii :=
  if Ascii.eqb c NUL then " "%char else c.

(** The default option settings, with [-L w]. *)
Definition settings_L (w : Z) : settings :=
  {| val_t := 10%float; val_p := 5%float; val_c := 80%float; val_m := 80%float;
     val_u := 100; val_q := 100; val_b := 100; val_r := 100; val_n := 10;
     flag_C := true; flag_M := false; flag_B := false;
     szcmdlinebuf := w; ncpus := 1 |}.

Definition stale_buffer : list ascii := list_ascii_of_string "/bin/sh -c".

(** Discovery fails the soft way: the mount table can be read, and it lists
    no cpuset mount, or the mount opens and neither enabled flag reads 1. *)
Definition discovery_fails (env : cpuset_env) : Prop :=
  mounts_open env = true /\
  (find_cpuset_mount (mounts env) = None \/
   exists mnt,
     find_cpuset_mount (mounts env) = Some mnt /\
     0 <= mount_dir_fd env mnt /\
     mpe_enabled env "memory_pressure_enabled" = false /\
     mpe_enabled env "cpuset.memory_pressure_enabled" = false).

(** Successive calls of [read_mempres], one for each element of [reads]:
    the values returned, and the state afterwards. *)
Fixpoint read_mempres_calls (cfg : settings) (env : cpuset_env)
    (reads : list (Z * float)) (st : mempres_state)
  : outcome (list Z * mempres_state) :=
  match reads with
  | [] => Ret ([], st)
  | (nread, value) :: more =>
      r <- read_mempres cfg env nread value st ;;
      rs <- read_mempres_calls cfg env more (snd r) ;;
      Ret (fst r :: fst rs, snd rs)
  end.

(** A system whose mount table lists no cpuset. *)
Definition no_cpuset_env : cpuset_env :=
  {| mounts_open := true;
     mounts := [ ["proc"; "/proc"; "proc"; "rw"; "0"; "0"];
                 ["sysfs"; "/sys"; "sysfs"; "rw"; "0"; "0"] ]%string;
     mount_dir_fd := fun _ => -1;
     mpe_enabled := fun _ => false;
     pressure_fd := fun _ => -1 |}.

Definition default_settings : settings := settings_L 48.

(** Ascending pids, by index. *)
Definition ascending (l : list task_usage) : Prop :=
  forall a b, (a < b < length l)%nat -> PID l a < PID l b.

(** Whether [p] is the pid of a record of [l]. *)
Definition has_pid (l : list task_usage) (p : Z) : bool :=
  existsb (Z.eqb p) (map pid l).

(** The pids the specification expects the join to pair: those of [prior]
    that [latest] has too, in the order of [prior]. *)
Definition common_pids (prior latest : list task_usage) : list Z :=
  filter (has_pid latest) (map pid prior).

Definition task (p cpu_ms : Z) : task_usage :=
  {| cmd := "sh"; pid := p; cpumsecs := cpu_ms; rssmram := 20; diskwait := 0 |}.

Definition prior_135 : list task_usage := [task 1 100; task 3 100; task 5 100].
Definition latest_3459 : list task_usage :=
  [task 3 150; task 4 10; task 5 100; task 9 0].

(** Five tasks whose CPU time grows by 500, 2000, 100, 9990 and 50 msecs
    over a 10 second interval on one CPU: rates 50, 200, 10, 999 and 5. *)
Definition five_prior : list task_usage :=
  [task 11 1000; task 12 1000; task 13 1000; task 14 1000; task 15 1000].
Definition five_latest : list task_usage :=
  [task 11 1500; task 12 3000; task 13 1100; task 14 10990; task 15 1050].

(** The defaults with [-n 3]. *)
Definition settings_top3 : settings :=
  {| val_t := 10%float; val_p := 5%float; val_c := 80%float; val_m := 80%float;
     val_u := 100; val_q := 100; val_b := 100; val_r := 100; val_n := 3;
     flag_C := true; flag_M := false; flag_B := false;
     szcmdlinebuf := 48; ncpus := 1 |}.

Definition joined (i : nat) (rate : Z) (shown : bool) : join_on_pid_t :=
  {| jp_i := i; jp_j := i; jp_cpumsecs := rate; jp_rssmrams := 20;
     jp_diskwait := 0; jp_showme := shown |}.

Definition five_joined : list join_on_pid_t :=
  [joined 0 50 false; joined 1 200 false; joined 2 10 false;
   joined 3 999 false; joined 4 5 false].

Definition five_sorted : list join_on_pid_t :=
  [joined 3 999 false; joined 1 200 false; joined 0 50 false;
   joined 2 10 false; joined 4 5 false].


(** Two samples read 20 seconds apart. *)
Definition slow_prior : sample :=
  {| read_at := 0; sample_tasks := [task 11 9000] |}.
Definition slow_latest : sample :=
  {| read_at := 20000000; sample_tasks := [task 11 16000] |}.

(** ** Further notions: the task reader *)

(** An entry [get_task_usages] passes without stopping: a name that does not
    start with a digit, or a stat file whose read returns 0 or -1. *)
Definition entry_passes (si : sysinfo) (ent : dirent) : Prop :=
  d_name_isdigit ent = false \/
  exists c s, read_stat_file si (d_stat ent) = Ret (c, s) /\ (c = 0 \/ c = -1).

(** A task whose stat file is gone by the time it is opened. *)
Definition stat_vanished (p : Z) : stat_file :=
  {| st_pidstr_len := 4; st_open_ok := false; st_read_ok := false;
     st_parens := false; st_comm := ""; st_line_pid := 0;
     st_name_pid := p; st_rest_len := 0; st_converted := 0;
     st_utime := 0; st_stime := 0; st_cutime := 0; st_cstime := 0;
     st_rsspages := 0; st_blockioticks := 0 |}.

Definition entries_with_vanished : list dirent :=
  [ {| d_name_isdigit := true; d_stat := stat_of_pid 1 |};
    {| d_name_isdigit := true; d_stat := stat_vanished 2 |};
    {| d_name_isdigit := false; d_stat := stat_of_pid 0 |};
    {| d_name_isdigit := true; d_stat := stat_of_pid 3 |} ].

(** The total of the four tick counts as [read_stat_file] adds them when no
    count is cut: time of waited-for children counts only when positive. *)
Definition cpu_ticks (f : stat_file) : Z :=
  st_utime f + st_stime f + Z.max 0 (st_cutime f) + Z.max 0 (st_cstime f).

(** ** Further notions: the ranking *)

(** A joined task with its mark cleared. *)
Definition unmark (jp : join_on_pid_t) : join_on_pid_t :=
  {| jp_i := jp_i jp; jp_j := jp_j jp; jp_cpumsecs := jp_cpumsecs jp;
     jp_rssmrams := jp_rssmrams jp; jp_diskwait := jp_diskwait jp;
     jp_showme := false |}.

(** The dimensions asked for on the command line. *)
Definition enabled_dims (cfg : settings) : list dimension :=
  filter (dim_enabled cfg) [Memory; DiskWait; Cpu].

(** The task reaches the threshold of a dimension that is asked for. *)
Definition meets_some (cfg : settings) (jp : join_on_pid_t) : Prop :=
  exists d, dim_enabled cfg d = true /\ dim_threshold cfg d <= dim_metric d jp.

Definition marked_count (l : list join_on_pid_t) : nat :=
  length (filter jp_showme l).

(** What the ranking keeps true of the array and of [got_some], [l0] being
    the array it started from and [k] a bound on the marks set. *)
Definition rank_inv (cfg : settings) (l0 : list join_on_pid_t) (k : nat)
    (st : list join_on_pid_t * bool) : Prop :=
  Permutation (map unmark l0) (map unmark (fst st)) /\
  (forall x, In x (fst st) -> jp_showme x = true -> meets_some cfg x) /\
  (snd st = true <-> exists x, In x (fst st) /\ jp_showme x = true) /\
  (marked_count (fst st) <= k)%nat.

(** The defaults with [-n 3 -q 5000]. *)
Definition settings_q5000 : settings :=
  {| val_t := 10%float; val_p := 5%float; val_c := 80%float; val_m := 80%float;
     val_u := 100; val_q := 5000; val_b := 100; val_r := 100; val_n := 3;
     flag_C := true; flag_M := false; flag_B := false;
     szcmdlinebuf := 48; ncpus := 1 |}.

(** ** Further notions: probes and disks *)

(** Successive calls of [read_cpuload], one for each pair of counters read:
    the loads returned, and the globals afterwards. *)
Fixpoint read_cpuload_calls (st : cpu_prev) (reads : list (Z * Z))
  : list float * cpu_prev :=
  match reads with
  | [] => ([], st)
  | (active, total) :: more =>
      let r := read_cpuload st active total in
      let rs := read_cpuload_calls (cl_prev r) more in
      (cl_load r :: fst rs, snd rs)
  end.

(** The sum of the numeric fields of a line. *)
Definition sum_of (fields : list Z) : Z := fold_right Z.add 0 fields.

(** The rate of a disk between two calls that read it. *)
Definition rate_between (read1 read2 : string -> field11) (t1 t2 : Z)
    (dsp : diskstat_t) : Z :=
  wrap_delta (counter_of (read1 (path dsp))) (counter_of (read2 (path dsp)))
    / Z.max 1 (t2 - t1).

Definition read_sda_sdb_later (file : string) : field11 :=
  if String.eqb file "/sys/block/sda/stat" then Counter 2100 else Counter 65000.

(** The file opens, and [read] gives at most [szcmdlinebuf] bytes, as many
    as the count returned. *)
Definition read_fits (cfg : settings) (r : cmdline_read) : Prop :=
  match r with
  | OpenFails => False
  | ReadReturns cnt data =>
      cnt <= szcmdlinebuf cfg /\ length data = Z.to_nat cnt
  end.

(** The files of a running command, of a kernel thread, and of a task whose
    read fails. *)
Definition cmdline_of_123 (p : Z) : cmdline_read :=
  if p =? 14
  then ReadReturns 9 (list_ascii_of_string "a.out" ++ NUL
                        :: list_ascii_of_string "-v" ++ [NUL])
  else if p =? 12 then ReadReturns 0 []
  else ReadReturns (-1) [].

(** ** Reading text: [flgets], [getfield] and the command name *)

(** The value of a byte as [getc] returns it. *)
Definition char_code (c : ascii) : Z := Z.of_nat (nat_of_ascii c).

Definition newline : ascii := "010"%char.
Definition tab : ascii := "009"%char.

(** How the first loop of [flgets] ends: at a newline, or because the buffer
    is full or the file at its end.  [c] is the variable of that name. *)
Inductive fill_end : Type :=
| AtNewline (stored rest : list ascii)
| Stopped (stored : list ascii) (c : Z) (rest : list ascii).

(** [while ((--buflen > 0) && ((c = getc(fp)) >= 0))]: [room] is the number
    of times [--buflen > 0] still holds, [fp] the bytes not yet read. *)
Fixpoint flgets_fill (room : nat) (fp : list ascii) (c : Z)
    (stored : list ascii) : fill_end :=
  match room with
  | O => Stopped stored c fp
  | S room' =>
      match fp with
      | [] => Stopped stored (-1) []
      | ch :: rest =>
          if char_code ch =? 10 then AtNewline stored rest
          else flgets_fill room' rest (char_code ch) (stored ++ [ch])
      end
  end.

(** [while ((c = getc(fp)) >= 0) if (c == '\n') break;] *)
Fixpoint skip_line (fp : list ascii) : list ascii :=
  match fp with
  | [] => []
  | ch :: rest => if char_code ch =? 10 then rest else skip_line rest
  end.

(** [flgets]: the bytes stored in [buf] before the NUL, or [None] for a
    NULL result, and the bytes of the file left to read. *)
Definition flgets (buflen : Z) (fp : list ascii)
  : option (list ascii) * list ascii :=
  match flgets_fill (Z.to_nat (buflen - 1)) fp (-1) [] with
  | AtNewline stored rest => (Some stored, rest)
  | Stopped stored c rest =>
      if (c <? 0) && (match stored with [] => true | _ => false end)
      then (None, rest)
      else (Some stored, if 0 <? c then skip_line rest else rest)
  end.

(** [while (flgets(buf, sizeof(buf), fp) != NULL)], as the callers of
    [flgets] loop: the lines read until the NULL.  Each call that returns a
    line takes at least one byte off a file that is not at its end, so
    [bound] calls are enough for a file of fewer than [bound] bytes. *)
Fixpoint flgets_lines (bound : nat) (buflen : Z) (fp : list ascii)
  : list (list ascii) :=
  match bound with
  | O => []
  | S bound' =>
      match flgets buflen fp with
      | (None, _) => []
      | (Some line, rest) => line :: flgets_lines bound' buflen rest
      end
  end.

(** A file of the given lines, each ended by a newline. *)
Definition text_of_lines (lines : list (list ascii)) : list ascii :=
  concat (map (fun l => l ++ [newline]) lines).

(** [isgraph] in the C locale. *)
Definition isgraph (c : ascii) : bool :=
  (33 <=? char_code c) && (char_code c <=? 126).

Definition is_blank (c : ascii) : bool :=
  Ascii.eqb c " "%char || Ascii.eqb c tab.

(** The loop of [skipwhitespace] over blanks and tabs, on a string given
    by its characters up to the NUL. *)
Fixpoint skip_blanks (p : list ascii) : list ascii :=
  match p with
  | c :: rest => if is_blank c then skip_blanks rest else p
  | [] => []
  end.

(** [skipwhitespace]: [None] is NULL. *)
Definition skipwhitespace (p : list ascii) : option (list ascii) :=
  match skip_blanks p with
  | c :: rest => if isgraph c then Some (c :: rest) else None
  | [] => None
  end.

(** [skipfieldchars]: the characters passed over, and where [p] ends up. *)
Fixpoint skipfieldchars (p : list ascii) : list ascii * list ascii :=
  match p with
  | c :: rest =>
      if isgraph c
      then let (fld, q) := skipfieldchars rest in (c :: fld, q)
      else ([], p)
  | [] => ([], [])
  end.

(** The loop [while (fieldnum--)] of [getfield] over the string in [buf]. *)
Fixpoint getfield_scan (fieldnum : nat) (p : list ascii)
  : option (list ascii) :=
  match fieldnum with
  | O => None
  | S fieldnum' =>
      match skipwhitespace p with
      | None => None
      | Some startoffield =>
          let (fld, q) := skipfieldchars startoffield in
          match fieldnum' with
          | O => Some fld
          | S _ => getfield_scan fieldnum' q
          end
      end
  end.

(** What opening and reading a file gives. *)
Inductive file_read : Type :=
| CannotOpen
| CannotRead
| CannotClose
| Bytes (data : list ascii).

(** [getfield]: at most 256 bytes are read, the last byte read is
    overwritten with the NUL, and the fields are looked for in what is left.
    A read of no bytes puts the NUL before the buffer. *)
Definition getfield (f : file_read) (fieldnum : nat)
  : outcome (option (list ascii)) :=
  match f with
  | CannotOpen => Exit 1 "open"
  | CannotRead => Exit 1 "read"
  | CannotClose => Exit 1 "close"
  | Bytes data =>
      let got := firstn 256 data in
      match got with
      | [] => Fault "store before buf"
      | _ => Ret (getfield_scan fieldnum (c_string (removelast got)))
      end
  end.

(** A line made of fields, each after its run of blanks, and a tail. *)
Fixpoint line_of (items : list (list ascii * list ascii)) (tail : list ascii)
  : list ascii :=
  match items with
  | [] => tail
  | (blanks, fld) :: more => blanks ++ fld ++ line_of more tail
  end.

Definition starts_nongraphic (s : list ascii) : Prop :=
  match s with
  | [] => True
  | c :: _ => isgraph c = false
  end.

(** Every field is graphic and not empty, comes after blanks only, and is
    followed by a character that is not graphic or by the end. *)
Fixpoint fields_apart (items : list (list ascii * list ascii))
    (tail : list ascii) : Prop :=
  match items with
  | [] => True
  | (blanks, fld) :: more =>
      Forall (fun c => is_blank c = true) blanks /\
      fld <> [] /\ Forall (fun c => isgraph c = true) fld /\
      starts_nongraphic (line_of more tail) /\
      fields_apart more tail
  end.

(** [strchr] and [strrchr], as the index of the character found. *)
Fixpoint strchr (s : list ascii) (c : ascii) : option nat :=
  match s with
  | [] => None
  | x :: rest =>
      if Ascii.eqb x c then Some O else option_map S (strchr rest c)
  end.

Fixpoint strrchr (s : list ascii) (c : ascii) : option nat :=
  match s with
  | [] => None
  | x :: rest =>
      match strrchr rest c with
      | Some i => Some (S i)
      | None => if Ascii.eqb x c then Some O else None
      end
  end.

(** How [read_stat_file] cuts the line it read, lines 629-636: the command
    name copied to [cmd], the string left in [buf] once the last ')' is
    overwritten, and [restofline], which is [None] when [closeparen + 2]
    lies beyond the end of the line.  [None] is the return value -4. *)
Definition cut_stat_line (cmdlen : Z) (buf : list ascii)
  : option (list ascii * list ascii * option (list ascii)) :=
  match strchr buf "("%char, strrchr buf ")"%char with
  | Some openparen, Some closeparen =>
      let cut := firstn closeparen buf in
      let from_open :=
        if (openparen <? closeparen)%nat
        then skipn (S openparen) cut
        else skipn (S openparen) buf in
      let restofline :=
        if (closeparen + 2 <=? length buf)%nat
        then Some (skipn (closeparen + 2) buf)
        else None in
      Some (firstn (Z.to_nat (cmdlen - 1)) from_open, cut, restofline)
  | _, _ => None
  end.

(** ** Reading by descriptor or by path: [my_pread] *)

(** What [pread] answers. *)
Inductive pread_result : Type :=
| PreadBytes (data : list ascii)
| PreadESPIPE                          (* -1 with errno ESPIPE *)
| PreadFails.                          (* -1 with another errno *)

(** The system calls [my_pread] makes: [pread] on a descriptor, and [open],
    [lseek] and [read] on a path, each with the count and offset asked for. *)
Record file_ops : Type := mk_file_ops {
  sys_pread : Z -> Z -> Z -> pread_result;
  sys_open : string -> bool;
  sys_lseek : string -> Z -> bool;
  sys_read : string -> Z -> Z -> option (list ascii)
}.

(** The table [pread_fds] and the flag [broken_pread]. *)
Record pread_state : Type := mk_pread_state {
  pread_fds : Z -> option string;
  broken_pread : bool
}.

Definition stash_pread_fd (st : pread_state) (fd : Z) (path : string)
  : outcome pread_state :=
  if (fd <? 0) || (MAX_PREAD_FD <=? fd) then Exit 1 "stash_pread_fd"
  else Ret {| pread_fds := fun k => if k =? fd then Some path
                                    else pread_fds st k;
              broken_pread := broken_pread st |}.

(** The branch [if (broken_pread)] of [my_pread]: the bytes read.  Only the
    upper bound of [fd] is tested before the table is indexed. *)
Definition pread_by_path (ops : file_ops) (st : pread_state)
    (fd count offset : Z) : outcome (list ascii) :=
  if MAX_PREAD_FD <=? fd then Exit 1 "my_pread"
  else if fd <? 0 then Fault "pread_fds index"
  else
    match pread_fds st fd with
    | None => Exit 1 "pread_fds"
    | Some path =>
        if negb (sys_open ops path) then Exit 1 "open"
        else if negb (offset =? 0) && negb (sys_lseek ops path offset)
        then Exit 1 "lseek"
        else
          match sys_read ops path count offset with
          | None => Exit 1 "read"
          | Some data => Ret data
          end
    end.

(** [my_pread]: the bytes put into [buf], and the state afterwards. *)
Definition my_pread (ops : file_ops) (st : pread_state)
    (fd count offset : Z) : outcome (list ascii * pread_state) :=
  if broken_pread st then
    data <- pread_by_path ops st fd count offset ;;
    Ret (data, st)
  else
    match sys_pread ops fd count offset with
    | PreadBytes data => Ret (data, st)
    | PreadESPIPE =>
        let st := {| pread_fds := pread_fds st; broken_pread := true |} in
        data <- pread_by_path ops st fd count offset ;;
        Ret (data, st)
    | PreadFails => Exit 1 "pread"
    end.

(** Successive calls of [my_pread], each with its descriptor, count and
    offset: the bytes each one gives, and the state afterwards. *)
Fixpoint my_pread_calls (ops : file_ops) (st : pread_state)
    (calls : list (Z * Z * Z)) : outcome (list (list ascii) * pread_state) :=
  match calls with
  | [] => Ret ([], st)
  | (fd, count, offset) :: more =>
      r <- my_pread ops st fd count offset ;;
      rs <- my_pread_calls ops (snd r) more ;;
      Ret (fst r :: fst rs, snd rs)
  end.

(** The same reads, every one by [open], [read] and [close] on the path
    stashed for its descriptor. *)
Fixpoint reads_by_path (ops : file_ops) (st : pread_state)
    (calls : list (Z * Z * Z)) : outcome (list (list ascii)) :=
  match calls with
  | [] => Ret []
  | (fd, count, offset) :: more =>
      data <- pread_by_path ops st fd count offset ;;
      rest <- reads_by_path ops st more ;;
      Ret (data :: rest)
  end.

(** ** The memory pressure file, when there is one *)

(** The pressure file that the loop over [mppaths] opens. *)
Definition pressure_file (env : cpuset_env) : option string :=
  if mpe_enabled env "memory_pressure_enabled" then Some "memory_pressure"%string
  else if mpe_enabled env "cpuset.memory_pressure_enabled"
  then Some "cpuset.memory_pressure"%string
  else None.

(** Whether a line of the mount table names the cpuset type or option
    after its second field. *)
Definition cpuset_line (fields : list string) : bool :=
  existsb (fun q => String.eqb q "cpuset") (skipn 2 fields).

(** A system with a cpuset mounted the old way. *)
Definition cpuset_env_old : cpuset_env :=
  {| mounts_open := true;
     mounts := [ ["proc"; "/proc"; "proc"; "rw"; "0"; "0"];
                 ["cpuset"; "/dev/cpuset"; "cpuset"; "rw"; "0"; "0"] ]%string;
     mount_dir_fd := fun _ => 5;
     mpe_enabled := fun _ => true;
     pressure_fd := fun f => if String.eqb f "memory_pressure" then 6 else 7 |}.

(** ** The options of [main] *)

(** The option variables that [settings] does not hold, and the disks added
    by [-d]. *)
Record options : Type := mk_options {
  opt_settings : settings;
  val_s : float;                    (* outer loop cycle time in seconds *)
  flag_P : Z;                       (* int *)
  flag_H : Z;                       (* int *)
  flag_Q : bool;
  disks_added : list diskstat_t
}.

(** One option as [getopt] hands it over, with what [strtod] or [strtol]
    makes of its argument. *)
Inductive option_arg : Type :=
| Opt_C | Opt_M | Opt_B | Opt_Q
| Opt_P (v : float) | Opt_H (v : float)
| Opt_s (v : float) | Opt_t (v : float) | Opt_p (v : float)
| Opt_c (v : float) | Opt_m (v : float)
| Opt_u (v : float)
| Opt_q (v : Z) | Opt_r (v : Z) | Opt_b (v : Z) | Opt_n (v : Z)
| Opt_L (v : float)
| Opt_d (optarg : list ascii)
| Opt_unknown.

(** [strtok] with one delimiter: the token found, and the string the next
    call with NULL goes on from. *)
Fixpoint skip_delim (d : ascii) (s : list ascii) : list ascii :=
  match s with
  | c :: rest => if Ascii.eqb c d then skip_delim d rest else s
  | [] => []
  end.

Fixpoint take_token (d : ascii) (s : list ascii) : list ascii * list ascii :=
  match s with
  | [] => ([], [])
  | c :: rest =>
      if Ascii.eqb c d then ([], rest)
      else let (tok, saved) := take_token d rest in (c :: tok, saved)
  end.

Definition strtok (d : ascii) (s : list ascii)
  : option (list ascii * list ascii) :=
  match skip_delim d s with
  | [] => None
  | c :: rest => Some (take_token d (c :: rest))
  end.

(** [monitor_disk]: the list [disks_monitored] with the new disk at its end. *)
Definition monitor_disk (dskstatpath_comma_name : list ascii)
    (disks : list diskstat_t) : outcome (list diskstat_t) :=
  match strtok ","%char dskstatpath_comma_name with
  | None => Exit 1 "strtok"
  | Some (dskstatpath, saved) =>
      match strtok ","%char saved with
      | None => Exit 1 "usage"
      | Some (dskname, _) =>
          Ret (disks ++ [ {| path := string_of_list_ascii dskstatpath;
                             name := string_of_list_ascii dskname;
                             prev_time_in_queue := 0 |} ])
      end
  end.

Definition with_settings (o : options) (s : settings) : options :=
  {| opt_settings := s; val_s := val_s o; flag_P := flag_P o;
     flag_H := flag_H o; flag_Q := flag_Q o; disks_added := disks_added o |}.

Definition fatal_usage {A : Type} : outcome A := Exit 1 "Invalid option value".
Definition show_usage_and_exit {A : Type} : outcome A := Exit 1 "Usage".

(** The [switch] of [main] for one option. *)
Definition apply_option (o : options) (a : option_arg) : outcome options :=
  let s := opt_settings o in
  match a with
  | Opt_C =>
      Ret (with_settings o
        {| val_t := val_t s; val_p := val_p s; val_c := val_c s;
           val_m := val_m s; val_u := val_u s; val_q := val_q s;
           val_b := val_b s; val_r := val_r s; val_n := val_n s;
           flag_C := true; flag_M := flag_M s; flag_B := flag_B s;
           szcmdlinebuf := szcmdlinebuf s; ncpus := ncpus s |})
  | Opt_M =>
      Ret (with_settings o
        {| val_t := val_t s; val_p := val_p s; val_c := val_c s;
           val_m := val_m s; val_u := val_u s; val_q := val_q s;
           val_b := val_b s; val_r := val_r s; val_n := val_n s;
           flag_C := flag_C s; flag_M := true; flag_B := flag_B s;
           szcmdlinebuf := szcmdlinebuf s; ncpus := ncpus s |})
  | Opt_B =>
      Ret (with_settings o
        {| val_t := val_t s; val_p := val_p s; val_c := val_c s;
           val_m := val_m s; val_u := val_u s; val_q := val_q s;
           val_b := val_b s; val_r := val_r s; val_n := val_n s;
           flag_C := flag_C s; flag_M := flag_M s; flag_B := true;
           szcmdlinebuf := szcmdlinebuf s; ncpus := ncpus s |})
  | Opt_Q =>
      Ret {| opt_settings := s; val_s := val_s o; flag_P := flag_P o;
             flag_H := flag_H o; flag_Q := true;
             disks_added := disks_added o |}
  | Opt_P v =>
      Ret {| opt_settings := s; val_s := val_s o;
             flag_P := int_of_double v;
             flag_H := flag_H o; flag_Q := flag_Q o;
             disks_added := disks_added o |}
  | Opt_H v =>
      Ret {| opt_settings := s; val_s := val_s o; flag_P := flag_P o;
             flag_H := int_of_double v; flag_Q := flag_Q o;
             disks_added := disks_added o |}
  | Opt_s v =>
      if PrimFloat.ltb v 0x1.0624dd2f1a9fcp-10%float then fatal_usage
      else
        Ret {| opt_settings := s; val_s := v; flag_P := flag_P o;
               flag_H := flag_H o; flag_Q := flag_Q o;
               disks_added := disks_added o |}
  | Opt_t v =>
      if PrimFloat.ltb v 0x1.0624dd2f1a9fcp-10%float then fatal_usage
      else
        Ret (with_settings o
          {| val_t := v; val_p := val_p s; val_c := val_c s;
             val_m := val_m s; val_u := val_u s; val_q := val_q s;
             val_b := val_b s; val_r := val_r s; val_n := val_n s;
             flag_C := flag_C s; flag_M := flag_M s; flag_B := flag_B s;
             szcmdlinebuf := szcmdlinebuf s; ncpus := ncpus s |})
  | Opt_p v =>
      if PrimFloat.ltb v 0x1.0624dd2f1a9fcp-10%float then fatal_usage
      else
        Ret (with_settings o
          {| val_t := val_t s; val_p := v; val_c := val_c s;
             val_m := val_m s; val_u := val_u s; val_q := val_q s;
             val_b := val_b s; val_r := val_r s; val_n := val_n s;
             flag_C := flag_C s; flag_M := flag_M s; flag_B := flag_B s;
             szcmdlinebuf := szcmdlinebuf s; ncpus := ncpus s |})
  | Opt_c v =>
      if PrimFloat.ltb v 0x1.999999999999ap-4%float then fatal_usage
      else if PrimFloat.ltb 100%float v then fatal_usage
      else
        Ret (with_settings o
          {| val_t := val_t s; val_p := val_p s; val_c := v;
             val_m := val_m s; val_u := val_u s; val_q := val_q s;
             val_b := val_b s; val_r := val_r s; val_n := val_n s;
             flag_C := flag_C s; flag_M := flag_M s; flag_B := flag_B s;
             szcmdlinebuf := szcmdlinebuf s; ncpus := ncpus s |})
  | Opt_m v =>
      if PrimFloat.ltb v 0x1.999999999999ap-4%float then fatal_usage
      else if PrimFloat.ltb 100%float v then fatal_usage
      else
        Ret (with_settings o
          {| val_t := val_t s; val_p := val_p s; val_c := val_c s;
             val_m := v; val_u := val_u s; val_q := val_q s;
             val_b := val_b s; val_r := val_r s; val_n := val_n s;
             flag_C := flag_C s; flag_M := flag_M s; flag_B := flag_B s;
             szcmdlinebuf := szcmdlinebuf s; ncpus := ncpus s |})
  | Opt_u v =>
      if int_of_double v <? 0 then fatal_usage
      else
        Ret (with_settings o
          {| val_t := val_t s; val_p := val_p s; val_c := val_c s;
             val_m := val_m s; val_u := int_of_double v; val_q := val_q s;
             val_b := val_b s; val_r := val_r s; val_n := val_n s;
             flag_C := flag_C s; flag_M := flag_M s; flag_B := flag_B s;
             szcmdlinebuf := szcmdlinebuf s; ncpus := ncpus s |})
  | Opt_q v =>
      if v <? 1 then fatal_usage
      else
        Ret (with_settings o
          {| val_t := val_t s; val_p := val_p s; val_c := val_c s;
             val_m := val_m s; val_u := val_u s; val_q := v;
             val_b := val_b s; val_r := val_r s; val_n := val_n s;
             flag_C := flag_C s; flag_M := flag_M s; flag_B := flag_B s;
             szcmdlinebuf := szcmdlinebuf s; ncpus := ncpus s |})
  | Opt_r v =>
      if v <? 1 then fatal_usage
      else
        Ret (with_settings o
          {| val_t := val_t s; val_p := val_p s; val_c := val_c s;
             val_m := val_m s; val_u := val_u s; val_q := val_q s;
             val_b := val_b s; val_r := v; val_n := val_n s;
             flag_C := flag_C s; flag_M := flag_M s; flag_B := flag_B s;
             szcmdlinebuf := szcmdlinebuf s; ncpus := ncpus s |})
  | Opt_b v =>
      if v <? 1 then fatal_usage
      else
        Ret (with_settings o
          {| val_t := val_t s; val_p := val_p s; val_c := val_c s;
             val_m := val_m s; val_u := val_u s; val_q := val_q s;
             val_b := v; val_r := val_r s; val_n := val_n s;
             flag_C := flag_C s; flag_M := flag_M s; flag_B := flag_B s;
             szcmdlinebuf := szcmdlinebuf s; ncpus := ncpus s |})
  | Opt_n v =>
      if v <? 1 then fatal_usage
      else
        Ret (with_settings o
          {| val_t := val_t s; val_p := val_p s; val_c := val_c s;
             val_m := val_m s; val_u := val_u s; val_q := val_q s;
             val_b := val_b s; val_r := val_r s; val_n := v;
             flag_C := flag_C s; flag_M := flag_M s; flag_B := flag_B s;
             szcmdlinebuf := szcmdlinebuf s; ncpus := ncpus s |})
  | Opt_L v =>
      if (int_of_double v <? 2) || (1000 <? int_of_double v)
      then fatal_usage
      else
        Ret (with_settings o
          {| val_t := val_t s; val_p := val_p s; val_c := val_c s;
             val_m := val_m s; val_u := val_u s; val_q := val_q s;
             val_b := val_b s; val_r := val_r s; val_n := val_n s;
             flag_C := flag_C s; flag_M := flag_M s; flag_B := flag_B s;
             szcmdlinebuf := int_of_double v; ncpus := ncpus s |})
  | Opt_d optarg =>
      disks <- monitor_disk optarg (disks_added o) ;;
      Ret {| opt_settings := s; val_s := val_s o; flag_P := flag_P o;
             flag_H := flag_H o; flag_Q := flag_Q o; disks_added := disks |}
  | Opt_unknown => show_usage_and_exit
  end.

(** The [while] loop over [getopt]. *)
Fixpoint apply_options (o : options) (args : list option_arg)
  : outcome options :=
  match args with
  | [] => Ret o
  | a :: more => o' <- apply_option o a ;; apply_options o' more
  end.

(** The variables as they are initialised. *)
Definition initial_options : options :=
  {| opt_settings :=
       {| val_t := 10%float; val_p := 5%float; val_c := 80%float;
          val_m := 80%float; val_u := 100; val_q := 100; val_b := 100;
          val_r := 100; val_n := 10;
          flag_C := false; flag_M := false; flag_B := false;
          szcmdlinebuf := 48; ncpus := 0 |};
     val_s := 10%float; flag_P := 0; flag_H := 0; flag_Q := false;
     disks_added := [] |}.

(** [main] up to the call of [get_ncpus]: [operands] tells whether words
    are left after the options, [found] is what [get_ncpus] counts. *)
Definition main_settings (args : list option_arg) (operands : bool)
    (found : option Z) : outcome options :=
  o <- apply_options initial_options args ;;
  if operands then show_usage_and_exit
  else
    let s := opt_settings o in
    let default_C :=
      if negb (flag_C s || flag_M s || flag_B s) then true else flag_C s in
    Ret (with_settings o
      {| val_t := val_t s; val_p := val_p s; val_c := val_c s;
         val_m := val_m s; val_u := val_u s; val_q := val_q s;
         val_b := val_b s; val_r := val_r s; val_n := val_n s;
         flag_C := default_C; flag_M := flag_M s; flag_B := flag_B s;
         szcmdlinebuf := szcmdlinebuf s; ncpus := get_ncpus found |}).

(** What the later code relies on in the settings. *)
Definition settings_in_range (s : settings) : Prop :=
  1 <= val_q s /\ 1 <= val_r s /\ 1 <= val_b s /\ 1 <= val_n s /\
  0 <= val_u s /\ 2 <= szcmdlinebuf s <= 1000 /\
  PrimFloat.ltb (val_t s) 0x1.0624dd2f1a9fcp-10%float = false /\
  PrimFloat.ltb (val_p s) 0x1.0624dd2f1a9fcp-10%float = false /\
  PrimFloat.ltb (val_c s) 0x1.999999999999ap-4%float = false /\
  PrimFloat.ltb 100%float (val_c s) = false /\
  PrimFloat.ltb (val_m s) 0x1.999999999999ap-4%float = false /\
  PrimFloat.ltb 100%float (val_m s) = false.

(** ** The two loops of [main] *)

(** One sampling of the four signals: load average, CPU load, memory load
    and memory pressure. *)
Definition signals : Type := (float * float * float * Z)%type.

Definition loaded (cfg : settings) (sg : signals) : bool :=
  let '(load_avg, cpu_load, mem_load, mem_pres) := sg in
  system_is_loaded cfg load_avg cpu_load mem_load mem_pres.

(** What the loops do that can be seen from outside. *)
Inductive event : Type :=
| TimeMarkerStart
| TimeMarker
| TimeMarkerEol
| SamplePrior                  (* the prior snapshot has been taken *)
| Show (shown : signals).      (* a report has been printed whole *)

(** What one passage meets, each call returning or ending the program:
    [probes] is the four reads [read_loadavg], [read_cpuload],
    [read_memload] and [read_mempres]; [sample_prior] is
    [prior = get_task_usages()] with the call of [get_disks_monitored] after
    it; [report] is [latest = get_task_usages()], [get_disks_monitored] and
    [show_task_usages] with its [show_hogs].  The last two are looked at only
    where the loops make these calls. *)
Record round : Type := mk_round {
  probes : outcome signals;
  sample_prior : outcome unit;
  report : outcome unit
}.

(** The events up to the point reached, and how the run ended there: with
    [Ret tt] when no passage is left, else with the exit or fault of a
    call. *)
Definition trace : Type := (list event * outcome unit)%type.

Definition emit (es : list event) (t : trace) : trace :=
  (es ++ fst t, snd t).

Definition step {A : Type} (m : outcome A) (k : A -> trace) : trace :=
  match m with
  | Ret a => k a
  | Exit status diag => ([], Exit status diag)
  | Fault what => ([], Fault what)
  end.

(** The outer loop from [emit_time_marker()] on, and the inner loop from
    its reads of the signals on. *)
Fixpoint outer_loop (cfg : settings) (rounds : list round) : trace :=
  match rounds with
  | [] => ([TimeMarker], Ret tt)
  | r :: more =>
      emit [TimeMarker]
        (step (probes r) (fun sg =>
           if loaded cfg sg then
             emit [TimeMarkerEol]
               (step (sample_prior r) (fun _ =>
                  emit [SamplePrior]
                    (step (report r) (fun _ =>
                       emit [Show sg] (inner_loop_test cfg more)))))
           else outer_loop cfg more))
  end
with inner_loop_test (cfg : settings) (rounds : list round) : trace :=
  match rounds with
  | [] => ([], Ret tt)
  | r :: more =>
      step (probes r) (fun sg =>
        if loaded cfg sg then
          step (report r) (fun _ =>
            emit [Show sg] (inner_loop_test cfg more))
        else emit [TimeMarkerStart] (outer_loop cfg more))
  end.

(** [main] from line 1848 on: [startup] is the first [read_cpuload] and the
    first [get_disks_monitored]. *)
Definition main_loop (cfg : settings) (startup : outcome unit)
    (rounds : list round) : trace :=
  step startup (fun _ => emit [TimeMarkerStart] (outer_loop cfg rounds)).

Definition shown_signals (events : list event) : list signals :=
  flat_map (fun e => match e with Show sg => [sg] | _ => [] end) events.

(** The signals of a passage whose reads return. *)
Definition round_signals (r : round) : list signals :=
  match probes r with
  | Ret sg => [sg]
  | _ => []
  end.

(** Every call of the passage returns. *)
Definition round_returns (r : round) : Prop :=
  (exists sg, probes r = Ret sg) /\
  sample_prior r = Ret tt /\ report r = Ret tt.

(** The reports of a loop are those of the loaded samplings of the passages
    it got through; it gets through all of them unless a call ends the
    program. *)
Definition shows_loaded (cfg : settings) (rounds : list round) (t : trace)
  : Prop :=
  exists done rest,
    rounds = done ++ rest /\
    shown_signals (fst t)
      = filter (loaded cfg) (flat_map round_signals done) /\
    (snd t = Ret tt -> rest = []).

(** ** The sleeps of [main] and the first pair of snapshots *)

(** [osleepusecs] and [isleepusecs], lines 1838-1839. *)
Definition osleepusecs (o : options) : Z :=
  unsigned_of_double (PrimFloat.mul (val_s o) 1000000%float).
Definition isleepusecs (o : options) : Z :=
  unsigned_of_double (PrimFloat.mul (val_t (opt_settings o)) 1000000%float).

(** [usleep(min(osleepusecs, isleepusecs))] between the prior snapshot and
    the first latest one, line 1888; [min] takes two [int]s. *)
Definition first_sleep_usecs (o : options) : Z :=
  u32 (Z.min (s32 (osleepusecs o)) (s32 (isleepusecs o))).

(** The disk-wait rate of the pair [(i, j)] computed over the elapsed
    seconds. *)
Definition elapsed_diskwait_rate (prior latest : sample) (i j : nat) : Z :=
  unsigned_of_double
    (PrimFloat.div
       (double_of_Z (u64 (diskwait (elem (sample_tasks latest) j)
                          - diskwait (elem (sample_tasks prior) i))))
       (elapsed_seconds prior latest)).

(** The settings after [-s 2 -t 5] on a machine with one CPU. *)
Definition options_s2_t5 : options :=
  {| opt_settings :=
       {| val_t := 5%float; val_p := 5%float; val_c := 80%float;
          val_m := 80%float; val_u := 100; val_q := 100; val_b := 100;
          val_r := 100; val_n := 10;
          flag_C := true; flag_M := false; flag_B := false;
          szcmdlinebuf := 48; ncpus := 1 |};
     val_s := 2%float; flag_P := 0; flag_H := 0; flag_Q := false;
     disks_added := [] |}.

(** The prior snapshot and the first latest one, read 2 seconds later: one
    task that used 1000 msecs of CPU and waited 400 msecs for disks. *)
Definition brisk_prior : sample :=
  {| read_at := 0;
     sample_tasks := [ {| cmd := "sh"; pid := 11; cpumsecs := 9000;
                          rssmram := 20; diskwait := 300 |} ] |}.
Definition brisk_latest : sample :=
  {| read_at := 2000000;
     sample_tasks := [ {| cmd := "sh"; pid := 11; cpumsecs := 10000;
                          rssmram := 20; diskwait := 700 |} ] |}.

(** ** A task that reaps a long-running child *)

(** [-t 0.01 -n 1] on one CPU. *)
Definition settings_t001_n1 : settings :=
  {| val_t := 0x1.47ae147ae147bp-7%float; val_p := 5%float;
     val_c := 80%float; val_m := 80%float;
     val_u := 100; val_q := 100; val_b := 100; val_r := 100; val_n := 1;
     flag_C := true; flag_M := false; flag_B := false;
     szcmdlinebuf := 48; ncpus := 1 |}.

(** Between the two snapshots pid 1 waits for a child that has used
    30000000 msecs of CPU, which are added to its own; pid 2 uses 2 msecs. *)
Definition reaper_prior : list task_usage := [task 1 0; task 2 0].
Definition reaper_latest : list task_usage := [task 1 30000000; task 2 2].

(** * Properties *)

(** Splits the goal along every conditional in it. *)
Ltac case_ifs :=
  repeat match goal with
         | |- context [if ?b then _ else _] => destruct b
         end.

(** ** C arithmetic *)

Lemma u64_small (x : Z) : 0 <= x < 2 ^ 64 -> u64 x = x.
Proof. intros H. unfold u64. apply Z.mod_small. exact H. Qed.

Lemma u32_small (x : Z) : 0 <= x < 2 ^ 32 -> u32 x = x.
Proof. intros H. unfold u32. apply Z.mod_small. exact H. Qed.

Lemma u32_range (x : Z) : 0 <= u32 x < 2 ^ 32.
Proof. unfold u32. apply Z.mod_pos_bound. lia. Qed.

Lemma u64_range (x : Z) : 0 <= u64 x < 2 ^ 64.
Proof. unfold u64. apply Z.mod_pos_bound. lia. Qed.

(** ** The stat reader *)

Lemma rssmram_of_exact (P S R : Z) :
  0 <= P -> 0 <= S -> 1000 * P * S < 2 ^ 64 ->
  rssmram_of P S R = (1000 * P * S) / R.
Proof.
  intros HP HS Hfit. unfold rssmram_of.
  assert (HPS : 0 <= P * S) by nia.
  rewrite (u64_small (P * S)) by nia.
  rewrite u64_small by nia.
  f_equal. ring.
Qed.

(** A return value of 0 comes with every field stored; any other return
    value is negative and leaves the rates unset. *)
Lemma read_stat_file_cases (si : sysinfo) (f : stat_file) (c : Z) (s : stores) :
  read_stat_file si f = Ret (c, s) ->
  (c = 0 /\ exists tu, s = StoreAll tu) \/
  (c < 0 /\ forall tu, s <> StoreAll tu).
Proof.
  unfold read_stat_file, ram_size_in_kbytes, kernel_clock_ticks_per_second, bind.
  case_ifs;
    intros H; inversion H; subst;
    try (right; split; [lia | intros tu Htu; discriminate Htu]).
  all: left; split; [reflexivity | eexists; reflexivity].
Qed.

Lemma read_stat_file_rssmram (si : sysinfo) (f : stat_file) (tu : task_usage) :
  read_stat_file si f = Ret (0, StoreAll tu) ->
  rssmram tu = rssmram_of (st_rsspages f) (kernel_page_size si) (memtotal si).
Proof.
  unfold read_stat_file, ram_size_in_kbytes, kernel_clock_ticks_per_second, bind.
  case_ifs;
    intros H; inversion H; subst; reflexivity.
Qed.

(** C8.  Whenever [read_stat_file] succeeds on a task with [P] resident
    pages, with a page of [S] kbytes and [R] kbytes of RAM, the gauge it
    stores is [floor (1000 * P * S / R)]: the pages are converted to kbytes
    and multiplied by 1000 before the one division, provided the product
    fits the 64-bit variable.  With P = 256, S = 4 and R = 1000000 the gauge
    is 1. *)
Theorem read_stat_file_memory_gauge
    (si : sysinfo) (f : stat_file) (tu : task_usage) :
  read_stat_file si f = Ret (0, StoreAll tu) ->
  0 <= st_rsspages f ->
  0 <= kernel_page_size si ->
  1000 * st_rsspages f * kernel_page_size si < 2 ^ 64 ->
  rssmram tu
    = (1000 * st_rsspages f * kernel_page_size si) / memtotal si
  /\ rssmram_of 256 4 1000000 = 1.
Proof.
  intros Hread HP HS Hfit. split.
  - rewrite (read_stat_file_rssmram si f tu Hread).
    apply rssmram_of_exact; assumption.
  - reflexivity.
Qed.

Lemma read_stat_file_memory_gauge_witness :
  exists tu,
    read_stat_file sysinfo_4k stat_256_pages = Ret (0, StoreAll tu) /\
    rssmram tu = 1.
Proof.
  eexists. split.
  - reflexivity.
  - refine (proj1 (read_stat_file_memory_gauge sysinfo_4k stat_256_pages _
                     eq_refl _ _ _)).
    + vm_compute. discriminate.
    + vm_compute. discriminate.
    + vm_compute. reflexivity.
Defined.

(** ** Enumerating /proc *)

Lemma store_at_in_bounds (a : list task_usage) (i : Z) (s : stores) :
  0 <= i < Z.of_nat (length a) ->
  exists a', store_at a i s = Ret a' /\
             length a' = length a /\
             firstn (Z.to_nat i) a' = firstn (Z.to_nat i) a /\
             (forall tu, s = StoreAll tu ->
                firstn (Z.to_nat (i + 1)) a' = firstn (Z.to_nat i) a ++ [tu]).
Proof.
  intros Hi.
  assert (Hlt : (Z.to_nat i < length a)%nat) by lia.
  destruct (nth_error a (Z.to_nat i)) as [slot|] eqn:Hnth.
  2: { apply nth_error_None in Hnth. lia. }
  assert (Hlen1 : length (firstn (Z.to_nat i) a) = Z.to_nat i)
    by (rewrite length_firstn; lia).
  assert (Hupd : forall x,
             length (firstn (Z.to_nat i) a ++ x :: skipn (S (Z.to_nat i)) a)
               = length a /\
             firstn (Z.to_nat i)
               (firstn (Z.to_nat i) a ++ x :: skipn (S (Z.to_nat i)) a)
               = firstn (Z.to_nat i) a /\
             firstn (Z.to_nat (i + 1))
               (firstn (Z.to_nat i) a ++ x :: skipn (S (Z.to_nat i)) a)
               = firstn (Z.to_nat i) a ++ [x]).
  { intros x. repeat split.
    - rewrite length_app, Hlen1. cbn [length]. rewrite length_skipn. lia.
    - rewrite firstn_app, Hlen1, Nat.sub_diag, firstn_firstn, Nat.min_id.
      cbn [firstn]. apply app_nil_r.
    - replace (Z.to_nat (i + 1)) with (S (Z.to_nat i)) by lia.
      rewrite firstn_app, Hlen1.
      replace (S (Z.to_nat i) - Z.to_nat i)%nat with 1%nat by lia.
      rewrite firstn_firstn.
      replace (Nat.min (S (Z.to_nat i)) (Z.to_nat i)) with (Z.to_nat i) by lia.
      reflexivity. }
  destruct s as [|c p|tu0]; unfold store_at; rewrite ?Hnth.
  - exists a. repeat split. intros tu Htu. discriminate Htu.
  - destruct (0 <=? i) eqn:H0; [|apply Z.leb_gt in H0; lia].
    eexists. split; [reflexivity|].
    destruct (Hupd (apply_stores (StoreCmdPid c p) slot)) as (H1 & H2 & _).
    repeat split; try assumption. intros tu Htu. discriminate Htu.
  - destruct (0 <=? i) eqn:H0; [|apply Z.leb_gt in H0; lia].
    eexists. split; [reflexivity|].
    destruct (Hupd (apply_stores (StoreAll tu0) slot)) as (H1 & H2 & H3).
    repeat split; try assumption.
    intros tu Htu. inversion Htu; subst. exact H3.
Qed.

Lemma task_read_digit (si : sysinfo) (ent : dirent) (c : Z) (s : stores) :
  d_name_isdigit ent = true ->
  read_stat_file si (d_stat ent) = Ret (c, s) ->
  (c = 0 /\ exists tu, s = StoreAll tu /\ task_read si ent = Some tu) \/
  (c < 0 /\ task_read si ent = None).
Proof.
  intros Hd Hr. unfold task_read. rewrite Hd, Hr.
  destruct (read_stat_file_cases si (d_stat ent) c s Hr)
    as [(Hc & tu & Hs) | (Hc & Hs)].
  - left. subst. split; [reflexivity|]. exists tu. split; reflexivity.
  - right. split; [exact Hc|]. destruct c; try lia; reflexivity.
Qed.

(** The loop invariant of [scan_proc]: stores stay inside the array, and the
    elements below [tu_nelem] are those already there followed by the records
    read, as many as still fit. *)
Lemma scan_proc_spec (si : sysinfo) (nt : Z) (ents : list dirent) :
  forall (i : Z) (a : list task_usage),
    0 <= i <= Z.max 0 nt ->
    length a = Z.to_nat nt ->
    (forall w, scan_proc si nt ents i a <> Fault w) /\
    (forall t, scan_proc si nt ents i a = Ret t ->
       i <= tu_nelem t <= Z.max 0 nt /\
       length (tu_array t) = Z.to_nat nt /\
       tasks_of t = firstn (Z.to_nat i) a
                      ++ firstn (Z.to_nat (nt - i)) (readable si ents)).
Proof.
  induction ents as [|ent rest IH]; intros i a Hi Hlen.
  - cbn [scan_proc readable]. split; [intros w H; discriminate H|].
    intros t H. inversion H; subst. unfold tasks_of. cbn.
    rewrite firstn_nil, app_nil_r. repeat split; try lia; try exact Hlen.
  - cbn [scan_proc readable].
    destruct (i <? nt) eqn:Hguard.
    2: { apply Z.ltb_ge in Hguard.
         split; [intros w H; discriminate H|].
         intros t H. inversion H; subst. unfold tasks_of. cbn.
         replace (Z.to_nat (nt - i)) with 0%nat by lia.
         cbn [firstn]. rewrite app_nil_r. repeat split; try lia; try exact Hlen. }
    apply Z.ltb_lt in Hguard.
    destruct (d_name_isdigit ent) eqn:Hdig; cbn [negb].
    2: { unfold task_read. rewrite Hdig. apply IH; assumption. }
    destruct (read_stat_file si (d_stat ent)) as [[c s]|st dg|w0] eqn:Hread;
      cbn [bind fst snd].
    2: { split; [intros w H; discriminate H | intros t H; discriminate H]. }
    2: { exfalso. revert Hread.
         unfold read_stat_file, ram_size_in_kbytes,
           kernel_clock_ticks_per_second, bind.
         case_ifs; discriminate. }
    destruct (store_at_in_bounds a i s) as (a' & Hst & Hlen' & Hpre & Hnew);
      [lia|].
    rewrite Hst. cbn [bind].
    destruct (task_read_digit si ent c s Hdig Hread)
      as [(Hc & tu & Hs & Htr) | (Hc & Htr)]; rewrite Htr.
    + subst c. cbn [Z.ltb Z.compare].
      destruct (IH (i + 1) a') as [IHf IHr]; [lia | congruence |].
      split; [exact IHf|]. intros t Ht.
      destruct (IHr t Ht) as (Hn & Hl & Htasks).
      repeat split; try lia. rewrite Htasks, (Hnew tu Hs).
      rewrite <- app_assoc. cbn [app].
      replace (Z.to_nat (nt - i)) with (S (Z.to_nat (nt - (i + 1)))) by lia.
      reflexivity.
    + destruct (c <? 0) eqn:Hneg; [|apply Z.ltb_ge in Hneg; lia].
      destruct (c <=? -2).
      * split; [intros w H; discriminate H | intros t H; discriminate H].
      * destruct (IH i a') as [IHf IHr]; [lia | congruence |].
        split; [exact IHf|]. intros t Ht.
        destruct (IHr t Ht) as (Hn & Hl & Htasks).
        repeat split; try lia. rewrite Htasks, Hpre. reflexivity.
Qed.

(** Once the array is full the rest of the directory is not examined. *)
Lemma scan_proc_full (si : sysinfo) (nt : Z) (pre post : list dirent) :
  forall (i : Z) (a : list task_usage) (t : task_usages_t),
    scan_proc si nt pre i a = Ret t ->
    nt <= tu_nelem t ->
    scan_proc si nt (pre ++ post) i a = Ret t.
Proof.
  induction pre as [|ent rest IH]; intros i a t Hrun Hfull.
  - cbn in Hrun. inversion Hrun; subst. cbn in Hfull. cbn [app].
    destruct post as [|e post']; [reflexivity|].
    cbn [scan_proc]. apply Z.ltb_ge in Hfull. rewrite Hfull. reflexivity.
  - cbn [app scan_proc] in *.
    destruct (i <? nt); [|exact Hrun].
    destruct (negb (d_name_isdigit ent)); [apply IH; assumption|].
    destruct (read_stat_file si (d_stat ent)) as [[c s]|st dg|w0];
      cbn [bind fst snd] in *; try discriminate Hrun.
    destruct (store_at a i s) as [a'|st dg|w0]; cbn [bind] in *;
      try discriminate Hrun.
    destruct (c <? 0).
    + destruct (c <=? -2); [discriminate Hrun | apply IH; assumption].
    + apply IH; assumption.
Qed.

(** C9.  A snapshot never holds more records than the estimate [nt]: no
    store of [get_task_usages] falls outside the [nt] elements allocated, the
    element count is at most [nt], and the records are the first [nt] that
    read successfully.  Once [nt] records are stored the loop stops: whatever
    the directory lists after that point is left out without any error, even
    an entry that would have been fatal. *)
Theorem get_task_usages_bounded
    (si : sysinfo) (nt : Z) (garbage : task_usage) (pre post : list dirent) :
  (forall w, get_task_usages si nt garbage (pre ++ post) <> Fault w) /\
  (forall t, get_task_usages si nt garbage (pre ++ post) = Ret t ->
     0 <= tu_nelem t <= Z.max 0 nt /\
     length (tu_array t) = Z.to_nat nt /\
     tasks_of t = firstn (Z.to_nat nt) (readable si (pre ++ post))) /\
  (forall t, get_task_usages si nt garbage pre = Ret t ->
     nt <= tu_nelem t ->
     get_task_usages si nt garbage (pre ++ post) = Ret t).
Proof.
  unfold get_task_usages.
  destruct (scan_proc_spec si nt (pre ++ post) 0 (repeat garbage (Z.to_nat nt)))
    as [Hfault Hret]; [lia | apply repeat_length |].
  split; [exact Hfault|]. split.
  - intros t Ht. destruct (Hret t Ht) as (Hn & Hl & Htasks).
    repeat split; try lia. rewrite Htasks. cbn [Z.to_nat firstn app].
    rewrite Z.sub_0_r. reflexivity.
  - intros t Ht Hfull. apply scan_proc_full; assumption.
Qed.

(** With room for two records, a directory of three readable tasks and a
    malformed fourth gives a snapshot of the first two; with room for four
    the malformed entry is reached and is fatal. *)
Example get_task_usages_overfull :
  exists t,
    get_task_usages sysinfo_4k 2 no_task (proc_entries ++ surplus_entries)
      = Ret t /\
    tu_nelem t = 2 /\ map pid (tasks_of t) = [1; 2] /\
    get_task_usages sysinfo_4k 4 no_task (proc_entries ++ surplus_entries)
      = Exit 4 "read_stat_file".
Proof. eexists. repeat split; vm_compute; reflexivity. Qed.

(** ** Disk usage *)

Lemma disk_rate_exact (prev cur now prev_now : Z) :
  now - prev_now < 2 ^ 32 ->
  disk_rate prev cur now prev_now
    = Some (wrap_delta prev cur / Z.max 1 (now - prev_now)).
Proof.
  intros Hdt. unfold disk_rate, wrap_delta, u32.
  destruct (now - prev_now <? 1) eqn:Hlt.
  - apply Z.ltb_lt in Hlt. rewrite Z.max_l by lia. reflexivity.
  - apply Z.ltb_ge in Hlt. rewrite Z.max_r by lia.
    rewrite (Z.mod_small (now - prev_now)) by lia.
    destruct (now - prev_now =? 0) eqn:Hz; [apply Z.eqb_eq in Hz; lia|].
    reflexivity.
Qed.

Lemma scan_disks_rates (read : string -> field11) (now prev_now : Z)
    (disks : list diskstat_t) :
  (forall dsp, In dsp disks -> exists c, read (path dsp) = Counter c) ->
  now - prev_now < 2 ^ 32 ->
  scan_disks read now prev_now disks
    = Ret (map (expected_entry read now prev_now) disks,
           map (updated_disk read) disks).
Proof.
  intros Hread Hdt. induction disks as [|dsp rest IH]; [reflexivity|].
  cbn [scan_disks map].
  destruct (Hread dsp (or_introl eq_refl)) as [c Hc].
  unfold expected_entry, expected_rate, updated_disk. rewrite Hc.
  rewrite disk_rate_exact by exact Hdt.
  fold (expected_rate read now prev_now). rewrite IH.
  - reflexivity.
  - intros d Hd. apply Hread. right. exact Hd.
Qed.

(** C7.  For every monitored disk, each call of [get_disks_monitored] reports
    the increase of the 32-bit counter since the previous call, taken modulo
    2^32, divided by the whole seconds elapsed since that call, the divisor
    being at least 1 (the elapsed seconds fit 32 bits), and records the
    counter read as the new previous value.  A counter going from 4294967290
    to 100 counts as an increase of 106. *)
Theorem get_disks_monitored_rates
    (read : string -> field11) (now : Z) (st : disks_state) :
  disks_monitored st <> [] ->
  (forall dsp, In dsp (disks_monitored st) ->
     exists c, read (path dsp) = Counter c) ->
  now - prev_now st < 2 ^ 32 ->
  get_disks_monitored read now st
    = Ret (stringify ("; diskusage"%string
                        :: map (expected_entry read now (prev_now st))
                             (disks_monitored st)),
           {| disks_monitored := map (updated_disk read) (disks_monitored st);
              prev_now := now |})
  /\ wrap_delta 4294967290 100 = 106.
Proof.
  intros Hne Hread Hdt. split; [|reflexivity].
  unfold get_disks_monitored.
  destruct (disks_monitored st) as [|dsp rest] eqn:Hd; [contradiction|].
  rewrite scan_disks_rates by assumption. reflexivity.
Qed.

Lemma get_disks_monitored_rates_witness :
  get_disks_monitored read_sda_sdb 1700000010 disks_sda_sdb
    = Ret ("; diskusage sda:10 sdb:6000"%string,
           {| disks_monitored :=
                [ {| path := "/sys/block/sda/stat"; name := "sda";
                     prev_time_in_queue := 100 |};
                  {| path := "/sys/block/sdb/stat"; name := "sdb";
                     prev_time_in_queue := 65000 |} ];
              prev_now := 1700000010 |}).
Proof.
  refine (proj1 (get_disks_monitored_rates read_sda_sdb 1700000010
                   disks_sda_sdb _ _ _)).
  - discriminate.
  - intros dsp [H | [H | []]]; subst dsp; eexists; reflexivity.
  - reflexivity.
Defined.

(** ** The command line of a displayed task *)

Lemma c_string_terminated (l r : list ascii) :
  Forall (fun c => Ascii.eqb c NUL = false) l ->
  c_string (l ++ NUL :: r) = l.
Proof.
  induction 1 as [|c l Hc Hl IH]; cbn [app c_string].
  - reflexivity.
  - rewrite Hc, IH. reflexivity.
Qed.

Lemma poke_firstn (buf : list ascii) (i : nat) (c : ascii) :
  (i < length buf)%nat ->
  poke buf i c = firstn i buf ++ c :: skipn (S i) buf.
Proof.
  intros Hi. unfold poke.
  destruct (i <? length buf)%nat eqn:H; [reflexivity|].
  apply Nat.ltb_ge in H. lia.
Qed.

Lemma blank_nuls_firstn (n : nat) (buf : list ascii) :
  firstn n (blank_nuls n buf) = map nul_to_space (firstn n buf).
Proof.
  revert buf. induction n as [|n IH]; intros [|c rest]; cbn; try reflexivity.
  rewrite IH. reflexivity.
Qed.

Lemma blank_nuls_length (n : nat) (buf : list ascii) :
  length (blank_nuls n buf) = length buf.
Proof.
  revert buf. induction n as [|n IH]; intros [|c rest]; cbn; try reflexivity.
  rewrite IH. reflexivity.
Qed.

Lemma nul_to_space_not_nul (l : list ascii) :
  Forall (fun c => Ascii.eqb c NUL = false) (map nul_to_space l).
Proof.
  induction l as [|c l IH]; cbn [map]; constructor; [|exact IH].
  unfold nul_to_space. destruct (Ascii.eqb c NUL) eqn:H; [reflexivity | exact H].
Qed.

Lemma store_bytes_length (buf bytes : list ascii) :
  (length bytes <= length buf)%nat ->
  length (store_bytes buf bytes) = length buf.
Proof.
  intros H. unfold store_bytes.
  rewrite length_app, length_firstn, length_skipn. lia.
Qed.

Lemma store_bytes_firstn (buf bytes : list ascii) (n : nat) :
  (n <= length bytes)%nat -> (n <= length buf)%nat ->
  firstn n (store_bytes buf bytes) = firstn n bytes.
Proof.
  intros Hb Hbuf. unfold store_bytes.
  rewrite firstn_app, firstn_firstn, length_firstn.
  replace (Nat.min n (length buf)) with n by lia.
  replace (n - Nat.min (length buf) (length bytes))%nat with 0%nat by lia.
  cbn [firstn]. apply app_nil_r.
Qed.

Lemma firstn_no_nul (n : nat) (l : list ascii) :
  Forall (fun c => Ascii.eqb c NUL = false) l ->
  Forall (fun c => Ascii.eqb c NUL = false) (firstn n l).
Proof.
  intros H. revert n. induction H as [|c l Hc Hl IH]; intros [|n]; cbn;
    constructor; auto.
Qed.

Lemma padded_unknown_no_nul (n : nat) :
  Forall (fun c => Ascii.eqb c NUL = false) (repeat " "%char n ++ unknown).
Proof.
  apply Forall_app. split.
  - induction n as [|n IH]; cbn [repeat]; constructor; [reflexivity | exact IH].
  - unfold unknown. cbn. repeat constructor.
Qed.

Lemma store_bytes_same_length (buf bytes : list ascii) :
  length (store_bytes buf bytes) = length buf.
Proof.
  unfold store_bytes. rewrite length_app, length_firstn, length_skipn. lia.
Qed.

Lemma poke_length (buf : list ascii) (i : nat) (c : ascii) :
  length (poke buf i c) = length buf.
Proof.
  unfold poke. destruct (Nat.ltb_spec i (length buf)); [|reflexivity].
  rewrite length_app, length_firstn. cbn [length]. rewrite length_skipn. lia.
Qed.

(** After a successful open whose read stays inside the buffer,
    [get_cmdline] returns, with every store inside the buffer. *)
Lemma get_cmdline_returns (cfg : settings) (buf data : list ascii) (cnt : Z) :
  (1 <= length buf)%nat ->
  cnt <= Z.of_nat (length buf) ->
  (length data <= length buf)%nat ->
  get_cmdline cfg buf (ReadReturns cnt data)
    = Ret (poke (blank_nuls (Z.to_nat (cnt - 1)) (store_bytes buf data))
                (Z.to_nat (Z.max 0 (cnt - 1))) NUL).
Proof.
  intros Hbuf Hcnt Hdata. cbn [get_cmdline].
  destruct (Nat.ltb_spec (length buf) (length data)) as [Hlt | _]; [lia|].
  rewrite blank_nuls_length, store_bytes_same_length.
  destruct (Nat.ltb_spec (Z.to_nat (Z.max 0 (cnt - 1))) (length buf))
    as [_ | Hge]; [reflexivity | lia].
Qed.

(** The string left by a successful open whose read returned [cnt] bytes:
    all but the last byte read, NULs shown as spaces. *)
Lemma get_cmdline_read (cfg : settings) (buf data : list ascii) (cnt : Z) :
  length buf = Z.to_nat (szcmdlinebuf cfg) ->
  1 <= cnt <= szcmdlinebuf cfg ->
  length data = Z.to_nat cnt ->
  exists out,
    get_cmdline cfg buf (ReadReturns cnt data) = Ret out /\
    c_string out = map nul_to_space (firstn (Z.to_nat (cnt - 1)) data).
Proof.
  intros Hbuf Hcnt Hdata.
  rewrite get_cmdline_returns by lia.
  eexists. split; [reflexivity|].
  rewrite Z.max_r by lia.
  set (n := Z.to_nat (cnt - 1)).
  assert (Hn : (n < length buf)%nat) by lia.
  rewrite poke_firstn
    by (rewrite blank_nuls_length, store_bytes_length; lia).
  rewrite blank_nuls_firstn, store_bytes_firstn by lia.
  apply c_string_terminated, nul_to_space_not_nul.
Qed.

(** The string left by a successful open whose read brought nothing. *)
Lemma get_cmdline_nothing_read (cfg : settings) (buf data : list ascii)
    (cnt : Z) :
  (1 <= length buf)%nat -> cnt <= 0 -> (length data <= length buf)%nat ->
  exists out,
    get_cmdline cfg buf (ReadReturns cnt data) = Ret out /\ c_string out = [].
Proof.
  intros Hbuf Hcnt Hdata.
  rewrite get_cmdline_returns by lia.
  eexists. split; [reflexivity|].
  replace (Z.to_nat (cnt - 1)) with 0%nat by lia.
  rewrite Z.max_l by lia. cbn [blank_nuls Z.to_nat].
  rewrite poke_firstn by (rewrite store_bytes_same_length; lia).
  reflexivity.
Qed.

(** What [sprintf] stores on the failure path is longer than the buffer. *)
Lemma sprintf_right_unknown_length (width : Z) :
  (Z.to_nat width < length (sprintf_right width unknown))%nat.
Proof.
  unfold sprintf_right. rewrite !length_app, repeat_length.
  unfold unknown. cbn [length list_ascii_of_string]. lia.
Qed.

(** C10.  With a command-line buffer of the configured size (at least 2),
    a task whose cmdline file opens but from which [read] brings no bytes, or
    on which [read] fails, is shown with the empty string, whatever the
    buffer held before, and after any other successful open the text shown
    is made of the bytes read: no line of a task whose file opened shows the
    placeholder.  The placeholder is written on the failure of the open
    alone; there [sprintf] stores it padded to the width of the buffer, and
    the NUL after it falls outside the buffer. *)
Theorem get_cmdline_empty_read (cfg : settings) (buf : list ascii) :
  2 <= szcmdlinebuf cfg ->
  length buf = Z.to_nat (szcmdlinebuf cfg) ->
  (forall cnt data,
     cnt <= 0 -> (length data <= length buf)%nat ->
     exists out,
       get_cmdline cfg buf (ReadReturns cnt data) = Ret out /\
       c_string out = []) /\
  (forall cnt data,
     1 <= cnt <= szcmdlinebuf cfg -> length data = Z.to_nat cnt ->
     exists out,
       get_cmdline cfg buf (ReadReturns cnt data) = Ret out /\
       c_string out = map nul_to_space (firstn (Z.to_nat (cnt - 1)) data)) /\
  get_cmdline cfg buf OpenFails = Fault "sprintf past cmdlinebuf".
Proof.
  intros HW Hbuf. split; [|split].
  - intros cnt data Hcnt Hdata.
    apply get_cmdline_nothing_read; [lia | exact Hcnt | exact Hdata].
  - intros cnt data Hcnt Hdata. apply get_cmdline_read; assumption.
  - cbn [get_cmdline].
    pose proof (sprintf_right_unknown_length (szcmdlinebuf cfg)) as Hlen.
    destruct (Nat.ltb_spec (length buf)
                (length (sprintf_right (szcmdlinebuf cfg) unknown)))
      as [_ | Hge]; [reflexivity | lia].
Qed.

Lemma get_cmdline_empty_read_witness :
  (exists out,
     get_cmdline (settings_L 10) stale_buffer (ReadReturns 0 []) = Ret out /\
     c_string out = []) /\
  (exists out,
     get_cmdline (settings_L 10) stale_buffer (ReadReturns (-1) []) = Ret out /\
     c_string out = []) /\
  (exists out,
     get_cmdline (settings_L 10) stale_buffer
       (ReadReturns 3 ["l"; "s"; NUL]%char) = Ret out /\
     c_string out = list_ascii_of_string "ls") /\
  get_cmdline (settings_L 10) stale_buffer OpenFails
    = Fault "sprintf past cmdlinebuf".
Proof.
  destruct (get_cmdline_empty_read (settings_L 10) stale_buffer)
    as (Hnone & Hsome & Hfail).
  - cbn. lia.
  - reflexivity.
  - split; [apply (Hnone 0 []); cbn; lia|].
    split; [apply (Hnone (-1) []); cbn; lia|].
    split; [|exact Hfail].
    apply (Hsome 3 ["l"; "s"; NUL]%char); [cbn; lia | reflexivity].
Defined.

(** ** CPU load *)

(** Whenever neither counter went backwards and the total is not zero,
    [read_cpuload] returns the ratio of the two increases since the values it
    last recorded, and records the new values. *)
Lemma read_cpuload_ratio (st : cpu_prev) (active total : Z) :
  0 <= prev_cpu_active st <= active -> active < 2 ^ 64 ->
  0 <= prev_cpu_total st <= total -> total < 2 ^ 64 ->
  total <> 0 ->
  read_cpuload st active total
    = {| cl_load :=
           PrimFloat.div (double_of_Z (active - prev_cpu_active st))
                         (double_of_Z (Z.max 1 (total - prev_cpu_total st)));
         cl_diag := None;
         cl_prev := {| prev_cpu_active := active; prev_cpu_total := total |} |}.
Proof.
  intros Ha Ha64 Ht Ht64 Hnz. unfold read_cpuload.
  destruct (active <? prev_cpu_active st) eqn:H1; [apply Z.ltb_lt in H1; lia|].
  destruct (total <? prev_cpu_total st) eqn:H2; [apply Z.ltb_lt in H2; lia|].
  destruct (total =? 0) eqn:H3; [apply Z.eqb_eq in H3; lia|].
  rewrite !u64_small by lia.
  destruct (total - prev_cpu_total st =? 0) eqn:H4.
  - apply Z.eqb_eq in H4. rewrite H4. reflexivity.
  - apply Z.eqb_neq in H4. rewrite Z.max_r by lia. reflexivity.
Qed.

(** The claim as worded fails: with the counters of a running system the
    first call returns the share of active ticks since boot, here 0.3, not 0. *)
Lemma read_cpuload_first_call_not_zero :
  read_cpuload cpu_prev_init 300 1000
    = {| cl_load := PrimFloat.div 300 1000; cl_diag := None;
         cl_prev := {| prev_cpu_active := 300; prev_cpu_total := 1000 |} |}
  /\ PrimFloat.eqb (cl_load (read_cpuload cpu_prev_init 300 1000)) 0 = false
  /\ PrimFloat.ltb 0.25 (cl_load (read_cpuload cpu_prev_init 300 1000)) = true.
Proof. repeat split; vm_compute; reflexivity. Qed.

(** C3, amended.  The first call of [read_cpuload] records the tick counters
    as the baseline and returns the ratio of active to total ticks counted
    since boot, the previous values being zero; a following call returns the
    ratio of the increase in active ticks to the increase in total ticks
    since that first call, a zero increase of the total counting as 1. *)
Theorem read_cpuload_first_then_next (a0 t0 a1 t1 : Z) :
  0 <= a0 <= a1 -> a1 < 2 ^ 64 ->
  0 < t0 <= t1 -> t1 < 2 ^ 64 ->
  cl_load (read_cpuload cpu_prev_init a0 t0)
    = PrimFloat.div (double_of_Z a0) (double_of_Z t0) /\
  cl_prev (read_cpuload cpu_prev_init a0 t0)
    = {| prev_cpu_active := a0; prev_cpu_total := t0 |} /\
  cl_load (read_cpuload (cl_prev (read_cpuload cpu_prev_init a0 t0)) a1 t1)
    = PrimFloat.div (double_of_Z (a1 - a0)) (double_of_Z (Z.max 1 (t1 - t0))) /\
  cl_prev (read_cpuload (cl_prev (read_cpuload cpu_prev_init a0 t0)) a1 t1)
    = {| prev_cpu_active := a1; prev_cpu_total := t1 |}.
Proof.
  intros Ha Ha64 Ht Ht64.
  rewrite (read_cpuload_ratio cpu_prev_init a0 t0) by (cbn; lia).
  cbn [cl_load cl_prev cpu_prev_init prev_cpu_active prev_cpu_total].
  rewrite (read_cpuload_ratio _ a1 t1) by (cbn; lia).
  cbn [cl_load cl_prev prev_cpu_active prev_cpu_total].
  rewrite !Z.sub_0_r, (Z.max_r 1 t0) by lia.
  repeat split.
Qed.

Lemma read_cpuload_first_then_next_witness :
  cl_load (read_cpuload cpu_prev_init 300 1000) = PrimFloat.div 300 1000 /\
  cl_load (read_cpuload (cl_prev (read_cpuload cpu_prev_init 300 1000)) 350 1200)
    = PrimFloat.div 50 200.
Proof.
  destruct (read_cpuload_first_then_next 300 1000 350 1200)
    as (H0 & _ & H1 & _); try lia.
  exact (conj H0 H1).
Defined.

(** ** Cpuset memory pressure *)

Lemma memory_pressure_fd_fails (env : cpuset_env) (st : mempres_state) :
  discovery_fails env ->
  mpfd_initialized st = false ->
  memory_pressure_fd env st
    = Ret (mpfd_cmp_fd st,
           {| mpfd_initialized := true; mpfd_cmp_fd := mpfd_cmp_fd st;
              rm_initialized := rm_initialized st; rm_cmp_fd := rm_cmp_fd st;
              notes := notes st ++ [mempres_note] |}).
Proof.
  intros [Hopen Hdisc] Hinit. unfold memory_pressure_fd.
  rewrite Hinit, Hopen. cbn [negb].
  destruct Hdisc as [Hnone | (mnt & Hsome & Hfd & H1 & H2)].
  - rewrite Hnone. reflexivity.
  - rewrite Hsome.
    destruct (mount_dir_fd env mnt <? 0) eqn:Hneg;
      [apply Z.ltb_lt in Hneg; lia|].
    unfold mppaths. cbn [probe_mppaths]. rewrite H1, H2. reflexivity.
Qed.

(** Once [read_mempres] has recorded that there is no pressure file, every
    call returns 1 and changes nothing. *)
Lemma read_mempres_settled (cfg : settings) (env : cpuset_env)
    (reads : list (Z * float)) (st : mempres_state) :
  val_u cfg <> 0 ->
  rm_initialized st = true -> rm_cmp_fd st = -1 ->
  read_mempres_calls cfg env reads st = Ret (repeat 1 (length reads), st).
Proof.
  intros Hu Hinit Hfd. induction reads as [|[nread value] more IH];
    [reflexivity|].
  cbn [read_mempres_calls]. unfold read_mempres.
  destruct (val_u cfg =? 0) eqn:Hz; [apply Z.eqb_eq in Hz; contradiction|].
  rewrite Hinit. cbn [bind]. rewrite Hfd. cbn [Z.ltb Z.compare bind snd fst].
  rewrite IH. reflexivity.
Qed.

(** The claim as worded fails: on a system without cpusets, with the default
    threshold of 100, [read_mempres] returns 1, and 1 does not exceed the
    threshold; with the other three signals quiet the system is not loaded. *)
Lemma mempres_fallback_does_not_trigger :
  read_mempres_calls default_settings no_cpuset_env [(0, 0%float)] mempres_init
    = Ret ([1], {| mpfd_initialized := true; mpfd_cmp_fd := -1;
                   rm_initialized := true; rm_cmp_fd := -1;
                   notes := [mempres_note] |})
  /\ (1 >? val_u default_settings) = false
  /\ system_is_loaded default_settings 0 0 0 1 = false.
Proof. repeat split; vm_compute; reflexivity. Qed.

(** C2, amended.  When the discovery of the cpuset finds no mount, or no
    enabled flag, any number of calls of [read_mempres] with a threshold other
    than zero print the note once, on the first call, and all return 1.  No
    threshold above zero is exceeded by 1: the memory pressure term of the
    load predicate is false, and the predicate is decided by the other three
    signals alone. *)
Theorem read_mempres_fallback
    (cfg : settings) (env : cpuset_env) (reads : list (Z * float))
    (lavg cpu_load mem_load : float) :
  discovery_fails env ->
  0 < val_u cfg ->
  reads <> [] ->
  read_mempres_calls cfg env reads mempres_init
    = Ret (repeat 1 (length reads),
           {| mpfd_initialized := true; mpfd_cmp_fd := -1;
              rm_initialized := true; rm_cmp_fd := -1;
              notes := [mempres_note] |})
  /\ (1 >? val_u cfg) = false
  /\ system_is_loaded cfg lavg cpu_load mem_load 1
       = other_signals_loaded cfg lavg cpu_load mem_load.
Proof.
  intros Hdisc Hu Hreads.
  assert (Hgt : (1 >? val_u cfg) = false).
  { rewrite Z.gtb_ltb. apply Z.ltb_ge. lia. }
  repeat split.
  - destruct reads as [|[nread value] more]; [contradiction|].
    cbn [read_mempres_calls length repeat]. unfold read_mempres.
    destruct (val_u cfg =? 0) eqn:Hz; [apply Z.eqb_eq in Hz; lia|].
    cbn [mempres_init rm_initialized].
    rewrite (memory_pressure_fd_fails env mempres_init Hdisc eq_refl).
    cbn [bind fst snd mempres_init mpfd_initialized mpfd_cmp_fd rm_initialized
         rm_cmp_fd notes app Z.ltb Z.compare].
    rewrite read_mempres_settled by (try reflexivity; lia).
    reflexivity.
  - exact Hgt.
  - unfold system_is_loaded, other_signals_loaded. rewrite Hgt.
    apply orb_false_r.
Qed.

Lemma read_mempres_fallback_witness :
  read_mempres_calls default_settings no_cpuset_env
      [(0, 0%float); (0, 0%float); (0, 0%float)] mempres_init
    = Ret ([1; 1; 1],
           {| mpfd_initialized := true; mpfd_cmp_fd := -1;
              rm_initialized := true; rm_cmp_fd := -1;
              notes := [mempres_note] |})
  /\ system_is_loaded default_settings 7 0 0 1 = true.
Proof.
  destruct (read_mempres_fallback default_settings no_cpuset_env
              [(0, 0%float); (0, 0%float); (0, 0%float)] 7 0 0)
    as (H0 & _ & H1).
  - split; [reflexivity | left; reflexivity].
  - reflexivity.
  - discriminate.
  - split; [exact H0 | rewrite H1; reflexivity].
Defined.

(** ** The join *)

Lemma join_walk_no_fault (prior latest : list task_usage) (bound : nat) :
  forall i j w,
    (length prior - i + (length latest - j) <= bound)%nat ->
    join_walk bound prior latest i j <> Fault w.
Proof.
  induction bound as [|bound IH]; intros i j w Hb; cbn [join_walk].
  - destruct ((i <? length prior)%nat && (j <? length latest)%nat) eqn:Hg;
      [|discriminate].
    apply andb_true_iff in Hg. destruct Hg as [Hi Hj].
    apply Nat.ltb_lt in Hi, Hj. lia.
  - destruct ((i <? length prior)%nat && (j <? length latest)%nat) eqn:Hg;
      [|discriminate].
    apply andb_true_iff in Hg. destruct Hg as [Hi Hj].
    apply Nat.ltb_lt in Hi, Hj.
    destruct ((0 <? j)%nat && (PID latest (j - 1) >? PID latest j));
      [discriminate|].
    destruct (PID prior i =? PID latest j).
    + specialize (IH (S i) (S j) w).
      destruct (join_walk bound prior latest (S i) (S j)); cbn [bind];
        try discriminate.
      intros H. apply IH; [lia | exact H].
    + destruct (PID prior i <? PID latest j); apply IH; lia.
Qed.

(** Every pair stored by the join loop indexes two records with one pid. *)
Lemma join_walk_pairs (prior latest : list task_usage) (bound : nat) :
  forall i j pairs,
    join_walk bound prior latest i j = Ret pairs ->
    Forall (fun ij => (fst ij < length prior)%nat /\
                      (snd ij < length latest)%nat /\
                      PID prior (fst ij) = PID latest (snd ij)) pairs.
Proof.
  induction bound as [|bound IH]; intros i j pairs; cbn [join_walk];
    destruct ((i <? length prior)%nat && (j <? length latest)%nat) eqn:Hg;
    intros H; try discriminate H;
    try (inversion H; subst; constructor).
  apply andb_true_iff in Hg. destruct Hg as [Hi Hj].
  apply Nat.ltb_lt in Hi, Hj.
  destruct ((0 <? j)%nat && (PID latest (j - 1) >? PID latest j));
    [discriminate H|].
  destruct (PID prior i =? PID latest j) eqn:Heq.
  - destruct (join_walk bound prior latest (S i) (S j)) as [rest| |] eqn:Hrec;
      cbn [bind] in H; try discriminate H.
    inversion H; subst. constructor.
    + cbn [fst snd]. apply Z.eqb_eq in Heq. auto.
    + eapply IH. exact Hrec.
  - destruct (PID prior i <? PID latest j); eapply IH; exact H.
Qed.

Lemma sorted_ascending (l : list task_usage) :
  StronglySorted Z.lt (map pid l) -> ascending l.
Proof.
  induction l as [|x l IH]; intros Hs a b Hab; [cbn in Hab; lia|].
  cbn [map] in Hs. apply StronglySorted_inv in Hs. destruct Hs as [Hs Hall].
  destruct b as [|b]; [lia|]. cbn [length] in Hab.
  destruct a as [|a].
  - unfold PID, elem. cbn [nth].
    rewrite Forall_forall in Hall. apply Hall.
    apply in_map. apply nth_In. lia.
  - unfold PID, elem. cbn [nth]. apply (IH Hs a b). lia.
Qed.

Lemma pid_in_iff (l : list task_usage) (p : Z) :
  In p (map pid l) <-> exists b, (b < length l)%nat /\ PID l b = p.
Proof.
  split.
  - intros H. apply in_map_iff in H. destruct H as (x & Hx & Hin).
    destruct (In_nth l x no_task Hin) as (b & Hb & Hnth).
    exists b. split; [exact Hb|]. unfold PID, elem. rewrite Hnth. exact Hx.
  - intros (b & Hb & Hp). subst p. unfold PID, elem.
    apply in_map. apply nth_In. exact Hb.
Qed.

Lemma has_pid_iff (l : list task_usage) (p : Z) :
  has_pid l p = true <-> In p (map pid l).
Proof.
  unfold has_pid. rewrite existsb_exists. split.
  - intros (x & Hin & Heq). apply Z.eqb_eq in Heq. subst. exact Hin.
  - intros Hin. exists p. split; [exact Hin | apply Z.eqb_refl].
Qed.

Lemma skipn_pids (l : list task_usage) (i : nat) :
  (i < length l)%nat ->
  skipn i (map pid l) = PID l i :: skipn (S i) (map pid l).
Proof.
  revert i. induction l as [|x l IH]; intros i Hi; [cbn in Hi; lia|].
  destruct i as [|i]; [reflexivity|].
  cbn [map skipn length] in *. rewrite IH by lia. reflexivity.
Qed.

(** When the loop stops, no pid of [prior] still ahead is in [latest]. *)
Lemma join_walk_done (prior latest : list task_usage) (i j : nat) :
  (i <? length prior)%nat && (j <? length latest)%nat = false ->
  (forall a b, (i <= a < length prior)%nat -> (b < j)%nat ->
               (b < length latest)%nat -> PID latest b < PID prior a) ->
  filter (has_pid latest) (skipn i (map pid prior)) = [].
Proof.
  intros Hg Hinv.
  apply andb_false_iff in Hg. destruct Hg as [Hi | Hj].
  - apply Nat.ltb_ge in Hi. rewrite skipn_all2; [reflexivity|].
    rewrite length_map. exact Hi.
  - apply Nat.ltb_ge in Hj.
    assert (Hnone : forall p, In p (skipn i (map pid prior)) ->
                              has_pid latest p = false).
    { intros p Hin.
      destruct (has_pid latest p) eqn:Hh; [|reflexivity].
      apply has_pid_iff, pid_in_iff in Hh. destruct Hh as (b & Hbl & Hbp).
      apply In_nth with (d := 0) in Hin. destruct Hin as (k & Hk & Hnth).
      rewrite length_skipn, length_map in Hk.
      rewrite nth_skipn in Hnth.
      assert (Hpa : PID prior (i + k) = p).
      { unfold PID, elem. rewrite <- Hnth.
        change 0 with (pid no_task). symmetry. apply map_nth. }
      assert (PID latest b < PID prior (i + k)) by (apply Hinv; lia). lia. }
    induction (skipn i (map pid prior)) as [|p ps IHps]; [reflexivity|].
    cbn [filter]. rewrite (Hnone p (or_introl eq_refl)).
    apply IHps. intros q Hq. apply Hnone. right. exact Hq.
Qed.

(** The loop invariant of the join over ascending snapshots: the records of
    [latest] already passed have pids below those of [prior] still ahead. *)
Lemma join_walk_sorted (prior latest : list task_usage) :
  ascending prior -> ascending latest ->
  forall bound i j,
    (length prior - i + (length latest - j) <= bound)%nat ->
    (forall a b, (i <= a < length prior)%nat -> (b < j)%nat ->
                 (b < length latest)%nat -> PID latest b < PID prior a) ->
    exists pairs,
      join_walk bound prior latest i j = Ret pairs /\
      map (fun ij => PID prior (fst ij)) pairs
        = filter (has_pid latest) (skipn i (map pid prior)).
Proof.
  intros Hp Hl. induction bound as [|bound IH]; intros i j Hb Hinv;
    cbn [join_walk];
    destruct ((i <? length prior)%nat && (j <? length latest)%nat) eqn:Hg.
  - apply andb_true_iff in Hg. destruct Hg as [Hi Hj].
    apply Nat.ltb_lt in Hi, Hj. lia.
  - exists []. split; [reflexivity|]. cbn [map]. symmetry.
    apply (join_walk_done prior latest i j Hg Hinv).
  - apply andb_true_iff in Hg. destruct Hg as [Hi Hj].
    apply Nat.ltb_lt in Hi, Hj.
    assert (Hchk : (0 <? j)%nat && (PID latest (j - 1) >? PID latest j) = false).
    { destruct (0 <? j)%nat eqn:H0; [|reflexivity]. apply Nat.ltb_lt in H0.
      cbn [andb]. rewrite Z.gtb_ltb. apply Z.ltb_ge.
      assert (PID latest (j - 1) < PID latest j) by (apply Hl; lia). lia. }
    rewrite Hchk. rewrite (skipn_pids prior i Hi). cbn [filter].
    destruct (PID prior i =? PID latest j) eqn:Heq.
    + apply Z.eqb_eq in Heq.
      destruct (IH (S i) (S j)) as (rest & Hrest & Hmap); [lia | |].
      { intros a b Ha Hbj Hbl.
        destruct (Nat.eq_dec b j) as [->|Hne].
        - rewrite <- Heq. apply Hp. lia.
        - apply Hinv; lia. }
      rewrite Hrest. cbn [bind]. eexists. split; [reflexivity|].
      cbn [map fst]. rewrite Hmap.
      assert (Hhas : has_pid latest (PID prior i) = true).
      { apply has_pid_iff, pid_in_iff. exists j. split; [exact Hj | congruence]. }
      rewrite Hhas. reflexivity.
    + apply Z.eqb_neq in Heq.
      destruct (PID prior i <? PID latest j) eqn:Hlt.
      * apply Z.ltb_lt in Hlt.
        destruct (IH (S i) j) as (rest & Hrest & Hmap); [lia | |].
        { intros a b Ha Hbj Hbl. apply Hinv; lia. }
        exists rest. split; [exact Hrest|]. rewrite Hmap.
        assert (Hhas : has_pid latest (PID prior i) = false).
        { destruct (has_pid latest (PID prior i)) eqn:Hh; [|reflexivity].
          apply has_pid_iff, pid_in_iff in Hh. destruct Hh as (b & Hbl & Hbp).
          destruct (Nat.lt_ge_cases b j) as [Hbj | Hbj].
          - assert (PID latest b < PID prior i) by (apply Hinv; lia). lia.
          - destruct (Nat.eq_dec b j) as [->|Hne]; [lia|].
            assert (PID latest j < PID latest b) by (apply Hl; lia). lia. }
        rewrite Hhas. reflexivity.
      * apply Z.ltb_ge in Hlt.
        destruct (IH i (S j)) as (rest & Hrest & Hmap); [lia | |].
        { intros a b Ha Hbj Hbl.
          destruct (Nat.eq_dec b j) as [->|Hne].
          - destruct (Nat.eq_dec a i) as [->|Hai]; [lia|].
            assert (PID prior i < PID prior a) by (apply Hp; lia). lia.
          - apply Hinv; lia. }
        exists rest. split; [exact Hrest|]. rewrite Hmap.
        rewrite (skipn_pids prior i Hi). reflexivity.
  - exists []. split; [reflexivity|]. cbn [map]. symmetry.
    apply (join_walk_done prior latest i j Hg Hinv).
Qed.

Lemma sorted_lt_NoDup (l : list Z) : StronglySorted Z.lt l -> NoDup l.
Proof.
  induction 1 as [|a l Hs IH Hall]; constructor; [|exact IH].
  intros Hin. rewrite Forall_forall in Hall. specialize (Hall a Hin). lia.
Qed.

Lemma filter_all {A : Type} (f : A -> bool) (l : list A) :
  (forall x, In x l -> f x = true) -> filter f l = l.
Proof.
  induction l as [|x l IH]; intros H; [reflexivity|].
  cbn [filter]. rewrite (H x (or_introl eq_refl)). f_equal.
  apply IH. intros y Hy. apply H. right. exact Hy.
Qed.

Lemma filter_none {A : Type} (f : A -> bool) (l : list A) :
  (forall x, In x l -> f x = false) -> filter f l = [].
Proof.
  induction l as [|x l IH]; intros H; [reflexivity|].
  cbn [filter]. rewrite (H x (or_introl eq_refl)).
  apply IH. intros y Hy. apply H. right. exact Hy.
Qed.

(** C6.  For two snapshots whose pids ascend strictly, the join returns one
    index pair for each pid present in both snapshots and no other: the pids
    of the pairs are the pids of [prior] that [latest] has too, each once;
    the index pairs name records with equal pids; the join is empty when the
    two snapshots share no pid; and it has as many pairs as [prior] has
    records when every pid of [prior] is in [latest]. *)
Theorem join_on_pid_sorted (prior latest : list task_usage) :
  StronglySorted Z.lt (map pid prior) ->
  StronglySorted Z.lt (map pid latest) ->
  exists pairs,
    join_on_pid prior latest = Ret pairs /\
    map (fun ij => PID prior (fst ij)) pairs = common_pids prior latest /\
    Forall (fun ij => (fst ij < length prior)%nat /\
                      (snd ij < length latest)%nat /\
                      PID prior (fst ij) = PID latest (snd ij)) pairs /\
    NoDup (common_pids prior latest) /\
    (forall p, In p (common_pids prior latest)
               <-> In p (map pid prior) /\ In p (map pid latest)) /\
    ((forall p, In p (map pid prior) -> ~ In p (map pid latest)) ->
     pairs = []) /\
    ((forall p, In p (map pid prior) -> In p (map pid latest)) ->
     length pairs = length prior).
Proof.
  intros Hp Hl.
  destruct (join_walk_sorted prior latest
              (sorted_ascending prior Hp) (sorted_ascending latest Hl)
              (length prior + length latest) 0 0)
    as (pairs & Hrun & Hmap); [lia | intros a b _ Hb; lia |].
  cbn [skipn] in Hmap. fold (common_pids prior latest) in Hmap.
  exists pairs. split; [exact Hrun|]. split; [exact Hmap|].
  split; [exact (join_walk_pairs prior latest _ 0 0 pairs Hrun)|].
  split; [apply NoDup_filter, sorted_lt_NoDup, Hp|].
  split; [|split].
  - intros p. unfold common_pids. rewrite filter_In, has_pid_iff. reflexivity.
  - intros Hdisj.
    assert (Hnil : common_pids prior latest = []).
    { apply filter_none. intros p Hin.
      destruct (has_pid latest p) eqn:Hh; [|reflexivity].
      apply has_pid_iff in Hh. exfalso. exact (Hdisj p Hin Hh). }
    rewrite Hnil in Hmap. destruct pairs; [reflexivity | discriminate Hmap].
  - intros Hsub.
    assert (Hall : common_pids prior latest = map pid prior).
    { apply filter_all. intros p Hin. apply has_pid_iff, Hsub, Hin. }
    rewrite <- (length_map (fun ij => PID prior (fst ij)) pairs).
    rewrite Hmap, Hall. apply length_map.
Qed.

Lemma join_on_pid_sorted_witness :
  exists pairs,
    join_on_pid prior_135 latest_3459 = Ret pairs /\
    map (fun ij => PID prior_135 (fst ij)) pairs = [3; 5].
Proof.
  destruct (join_on_pid_sorted prior_135 latest_3459)
    as (pairs & Hrun & Hmap & _).
  - cbn. repeat constructor.
  - cbn. repeat constructor.
  - exists pairs. split; [exact Hrun | exact Hmap].
Defined.

(** ** Sorting *)

Section InsertionSort.
Variable cmp : comparator.
Variable universe : list join_on_pid_t.
Hypothesis cmp_ok : consistent_on cmp universe.

Lemma insert_by_perm (x : join_on_pid_t) (l : list join_on_pid_t) :
  Permutation (x :: l) (insert_by cmp x l).
Proof.
  induction l as [|y l IH]; cbn [insert_by]; [apply Permutation_refl|].
  destruct (cmp x y <=? 0); [apply Permutation_refl|].
  eapply Permutation_trans; [apply perm_swap|].
  apply perm_skip. exact IH.
Qed.

Lemma isort_by_perm (l : list join_on_pid_t) : Permutation l (isort_by cmp l).
Proof.
  induction l as [|x l IH]; cbn [isort_by]; [apply Permutation_refl|].
  eapply Permutation_trans; [apply perm_skip; exact IH|].
  apply insert_by_perm.
Qed.

Lemma insert_by_sorted (x : join_on_pid_t) (l : list join_on_pid_t) :
  In x universe -> (forall y, In y l -> In y universe) ->
  StronglySorted (in_order cmp) l ->
  StronglySorted (in_order cmp) (insert_by cmp x l).
Proof.
  destruct cmp_ok as [Htotal Htrans].
  intros Hx Hl Hs. induction Hs as [|y l Hs IH Hall]; cbn [insert_by].
  - constructor; constructor.
  - assert (Hy : In y universe) by (apply Hl; left; reflexivity).
    assert (Hl' : forall z, In z l -> In z universe)
      by (intros z Hz; apply Hl; right; exact Hz).
    rewrite Forall_forall in Hall.
    destruct (cmp x y <=? 0) eqn:Hle.
    + apply Z.leb_le in Hle. constructor; [constructor; assumption
                                           || (apply Forall_forall; exact Hall)|].
      constructor; [exact Hle|]. apply Forall_forall. intros z Hz.
      apply (Htrans x y z); auto. apply Hall. exact Hz.
    + apply Z.leb_gt in Hle.
      assert (Hyx : cmp y x <= 0).
      { destruct (Htotal x y Hx Hy) as [H | H]; [lia | exact H]. }
      constructor; [apply IH; exact Hl'|].
      apply Forall_forall. intros z Hz.
      apply (Permutation_in _ (Permutation_sym (insert_by_perm x l))) in Hz.
      destruct Hz as [<- | Hz]; [exact Hyx | apply Hall; exact Hz].
Qed.

Lemma isort_by_sorted (l : list join_on_pid_t) :
  (forall y, In y l -> In y universe) ->
  StronglySorted (in_order cmp) (isort_by cmp l).
Proof.
  induction l as [|x l IH]; intros Hl; cbn [isort_by]; [constructor|].
  apply insert_by_sorted.
  - apply Hl. left. reflexivity.
  - intros y Hy. apply Hl. right.
    apply (Permutation_in _ (Permutation_sym (isort_by_perm l))). exact Hy.
  - apply IH. intros y Hy. apply Hl. right. exact Hy.
Qed.
End InsertionSort.

(** Insertion sort is one of the functions [qsort] may be. *)
Definition insertion_qsort : qsort_impl :=
  {| qsort := isort_by;
     qsort_perm := fun cmp l _ => isort_by_perm cmp l;
     qsort_sorted := fun cmp l ok => isort_by_sorted cmp l ok l (fun _ H => H) |}.

(** ** Ranking *)

Lemma s32_u32_diff (a b : Z) :
  0 <= a < 2 ^ 31 -> 0 <= b < 2 ^ 31 -> s32 (u32 (b - a)) = b - a.
Proof.
  intros Ha Hb. unfold s32, u32. rewrite Z.mod_mod by lia.
  destruct (Z.le_gt_cases 0 (b - a)) as [Hpos | Hneg].
  - rewrite Z.mod_small by lia.
    destruct (b - a <? 2 ^ 31) eqn:H; [reflexivity | apply Z.ltb_ge in H; lia].
  - replace ((b - a) mod 2 ^ 32) with (b - a + 2 ^ 32).
    + destruct (b - a + 2 ^ 32 <? 2 ^ 31) eqn:H; [apply Z.ltb_lt in H; lia | lia].
    + rewrite <- (Z.mod_small (b - a + 2 ^ 32) (2 ^ 32)) by lia.
      rewrite <- (Z.mod_add (b - a) 1 (2 ^ 32)) by lia. f_equal; lia.
Qed.

Lemma dim_cmp_unfold (d : dimension) (x y : join_on_pid_t) :
  dim_cmp d x y = s32 (u32 (dim_metric d y - dim_metric d x)).
Proof. destruct d; reflexivity. Qed.

(** Within the range of [int] the comparison is the descending order. *)
Lemma dim_cmp_descending (d : dimension) (x y : join_on_pid_t) :
  0 <= dim_metric d x < 2 ^ 31 -> 0 <= dim_metric d y < 2 ^ 31 ->
  (dim_cmp d x y <= 0 <-> descending d x y).
Proof.
  intros Hx Hy. rewrite dim_cmp_unfold, s32_u32_diff by assumption.
  unfold descending. lia.
Qed.

(** Outside that range it is not: a rate of 0 compares as belonging before
    a rate of 3000000000. *)
Example cpumsecs_cmp_out_of_range :
  cpumsecs_cmp (joined 0 0 false) (joined 1 3000000000 false) = -1294967296 /\
  cpumsecs_cmp (joined 1 3000000000 false) (joined 0 0 false) = 1294967296.
Proof. split; reflexivity. Qed.

Lemma dim_cmp_consistent (d : dimension) (l : list join_on_pid_t) :
  fits_int d l -> consistent_on (dim_cmp d) l.
Proof.
  intros Hfit. unfold fits_int in Hfit. rewrite Forall_forall in Hfit. split.
  - intros x y Hx Hy.
    rewrite !dim_cmp_descending by auto. unfold descending. lia.
  - intros x y z Hx Hy Hz.
    rewrite !dim_cmp_descending by auto. unfold descending. lia.
Qed.

Lemma in_order_descending (d : dimension) (l : list join_on_pid_t) :
  fits_int d l ->
  StronglySorted (in_order (dim_cmp d)) l ->
  StronglySorted (descending d) l.
Proof.
  intros Hfit Hs. induction Hs as [|x l Hs IH Hall]; constructor.
  - apply IH. inversion Hfit; assumption.
  - inversion Hfit as [|x' l' Hx Hl]; subst.
    rewrite Forall_forall in *. intros y Hy.
    apply dim_cmp_descending; auto. apply Hall. exact Hy.
Qed.

Lemma fits_int_perm (d : dimension) (l l' : list join_on_pid_t) :
  Permutation l l' -> fits_int d l -> fits_int d l'.
Proof.
  intros Hperm Hfit. unfold fits_int in *. rewrite Forall_forall in *.
  intros x Hx. apply Hfit.
  apply (Permutation_in _ (Permutation_sym Hperm)). exact Hx.
Qed.

(** What [qsort] returns for a dimension whose metrics fit. *)
Lemma qsort_descending (Q : qsort_impl) (d : dimension)
    (l : list join_on_pid_t) :
  fits_int d l ->
  Permutation l (qsort Q (dim_cmp d) l) /\
  StronglySorted (descending d) (qsort Q (dim_cmp d) l).
Proof.
  intros Hfit.
  pose proof (qsort_perm Q (dim_cmp d) l (dim_cmp_consistent d l Hfit)) as Hperm.
  split; [exact Hperm|].
  apply in_order_descending.
  - exact (fits_int_perm d l _ Hperm Hfit).
  - apply qsort_sorted. apply dim_cmp_consistent. exact Hfit.
Qed.

Lemma mark_hogs_nth (n : nat) (d : dimension) (thr : Z)
    (l : list join_on_pid_t) :
  forall k,
    nth_error (mark_hogs n (dim_metric d) thr l) k
      = option_map (marked_at n d thr k) (nth_error l k).
Proof.
  revert l. induction n as [|n IH]; intros l k.
  - destruct l; cbn [mark_hogs]; unfold marked_at; cbn [Nat.ltb Nat.leb andb];
      destruct (nth_error _ k); reflexivity.
  - destruct l as [|jp rest]; cbn [mark_hogs].
    + destruct k; reflexivity.
    + destruct k as [|k]; cbn [nth_error option_map].
      * unfold marked_at. cbn [Nat.ltb Nat.leb andb]. reflexivity.
      * rewrite IH. unfold marked_at.
        change (S k <? S n)%nat with (k <? n)%nat. reflexivity.
Qed.

(** Two descending arrangements of tasks with pairwise different metrics
    are the same arrangement. *)
Lemma descending_unique (d : dimension) (l1 : list join_on_pid_t) :
  forall l2,
    (forall x y, In x l1 -> In y l1 ->
                 dim_metric d x = dim_metric d y -> x = y) ->
    StronglySorted (descending d) l1 ->
    StronglySorted (descending d) l2 ->
    Permutation l1 l2 -> l1 = l2.
Proof.
  induction l1 as [|a l1 IH]; intros l2 Hinj Hs1 Hs2 Hperm.
  - apply Permutation_nil in Hperm. subst. reflexivity.
  - destruct l2 as [|b l2];
      [apply Permutation_sym, Permutation_nil in Hperm; discriminate Hperm|].
    apply StronglySorted_inv in Hs1. destruct Hs1 as [Hs1 Hall1].
    apply StronglySorted_inv in Hs2. destruct Hs2 as [Hs2 Hall2].
    rewrite Forall_forall in Hall1, Hall2.
    assert (Hab : a = b).
    { assert (Ha : In a (b :: l2))
        by (apply (Permutation_in _ Hperm); left; reflexivity).
      assert (Hb : In b (a :: l1))
        by (apply (Permutation_in _ (Permutation_sym Hperm)); left; reflexivity).
      destruct Ha as [Ha | Ha]; [symmetry; exact Ha|].
      destruct Hb as [Hb | Hb]; [exact Hb|].
      apply Hinj; [left; reflexivity | right; exact Hb |].
      specialize (Hall1 b Hb). specialize (Hall2 a Ha).
      unfold descending in *. lia. }
    subst b. f_equal. apply IH; try assumption.
    + intros x y Hx Hy. apply Hinj; right; assumption.
    + exact (Permutation_cons_inv Hperm).
Qed.

Lemma jpmax_count_min (cfg : settings) (l : list join_on_pid_t) :
  0 <= val_n cfg < 2 ^ 31 -> Z.of_nat (length l) < 2 ^ 31 ->
  jpmax_count cfg l = Nat.min (Z.to_nat (val_n cfg)) (length l).
Proof.
  intros Hn Hl. unfold jpmax_count, s32.
  rewrite !Z.mod_small by lia.
  destruct (val_n cfg <? 2 ^ 31) eqn:H1; [|apply Z.ltb_ge in H1; lia].
  destruct (Z.of_nat (length l) <? 2 ^ 31) eqn:H2; [|apply Z.ltb_ge in H2; lia].
  lia.
Qed.

(** The three blocks of [show_hogs] run in the order memory, diskwait, CPU. *)
Lemma rank_tasks_order (Q : qsort_impl) (cfg : settings)
    (l : list join_on_pid_t) :
  rank_tasks Q cfg l
    = fold_left
        (fun st d =>
           rank_pass Q (dim_enabled cfg d) (dim_cmp d) (dim_metric d)
             (dim_threshold cfg d) (jpmax_count cfg l) st)
        [Memory; DiskWait; Cpu] (l, false).
Proof. reflexivity. Qed.

Lemma five_joined_rates :
  joined_tasks settings_top3 five_prior five_latest = Ret five_joined.
Proof. vm_compute. reflexivity. Qed.

Lemma five_fit : fits_int Cpu five_joined.
Proof. unfold fits_int, five_joined. repeat constructor; cbn; lia. Qed.

(** Whatever [qsort] does with ties, these five come out in one order. *)
Lemma five_sorted_any_qsort (Q : qsort_impl) :
  qsort Q cpumsecs_cmp five_joined = five_sorted.
Proof.
  destruct (qsort_descending Q Cpu five_joined five_fit) as [Hperm Hsorted].
  symmetry. apply (descending_unique Cpu).
  - intros x y Hx Hy Hm. cbn in Hx, Hy.
    repeat match goal with
           | H : _ \/ _ |- _ => destruct H as [H | H]
           | H : False |- _ => destruct H
           end; subst; (reflexivity || (cbn in Hm; discriminate Hm)).
  - unfold five_sorted, descending.
    repeat (constructor; [|repeat constructor; cbn; lia]). constructor.
  - exact Hsorted.
  - eapply Permutation_trans; [|exact Hperm].
    apply Permutation_sym.
    exact (isort_by_perm cpumsecs_cmp five_joined).
Qed.

(** X25.  For each dimension whose metrics fit an [int], the block of
    [show_hogs] for that dimension leaves the joined tasks sorted descending
    by the metric and sets the mark of exactly those among the first N, N the
    configured maximum count, whose metric is at least the threshold of the
    dimension, the marks set before staying; the blocks run in the order
    memory, diskwait, CPU.  Of five tasks with CPU rates 50, 200, 10, 999 and
    5, with N = 3 and threshold 100, the two with rates 999 and 200 are
    displayed and no other. *)
Theorem rank_pass_marks_top_n
    (Q : qsort_impl) (cfg : settings) (d : dimension)
    (l : list join_on_pid_t) (got : bool) :
  fits_int d l ->
  1 <= val_n cfg < 2 ^ 31 ->
  Z.of_nat (length l) < 2 ^ 31 ->
  (exists sorted,
     Permutation l sorted /\
     StronglySorted (descending d) sorted /\
     forall k,
       nth_error
         (fst (rank_pass Q true (dim_cmp d) (dim_metric d)
                 (dim_threshold cfg d) (jpmax_count cfg l) (l, got))) k
       = option_map
           (marked_at (Z.to_nat (val_n cfg)) d (dim_threshold cfg d) k)
           (nth_error sorted k))
  /\ rank_tasks Q cfg l
     = fold_left
         (fun st d' =>
            rank_pass Q (dim_enabled cfg d') (dim_cmp d') (dim_metric d')
              (dim_threshold cfg d') (jpmax_count cfg l) st)
         [Memory; DiskWait; Cpu] (l, false)
  /\ show_hogs Q settings_top3 five_prior five_latest
     = Ret (HogTable [joined 3 999 true; joined 1 200 true]).
Proof.
  intros Hfit Hn Hlen. split; [|split].
  - exists (qsort Q (dim_cmp d) l).
    destruct (qsort_descending Q d l Hfit) as [Hperm Hsorted].
    split; [exact Hperm|]. split; [exact Hsorted|].
    intros k. unfold rank_pass. cbn [fst].
    rewrite mark_hogs_nth.
    destruct (nth_error (qsort Q (dim_cmp d) l) k) as [jp|] eqn:Hk;
      [|reflexivity].
    cbn [option_map]. f_equal. unfold marked_at.
    assert (Hklt : (k < length l)%nat).
    { rewrite (Permutation_length Hperm).
      apply nth_error_Some. rewrite Hk. discriminate. }
    rewrite jpmax_count_min by lia.
    replace (k <? Nat.min (Z.to_nat (val_n cfg)) (length l))%nat
      with (k <? Z.to_nat (val_n cfg))%nat; [reflexivity|].
    destruct (Nat.ltb_spec k (Z.to_nat (val_n cfg)));
      destruct (Nat.ltb_spec k (Nat.min (Z.to_nat (val_n cfg)) (length l)));
      try reflexivity; lia.
  - apply rank_tasks_order.
  - unfold show_hogs. rewrite five_joined_rates. cbn [bind].
    unfold rank_tasks, rank_pass.
    cbn [settings_top3 flag_M flag_B flag_C val_q fst snd].
    rewrite five_sorted_any_qsort. reflexivity.
Qed.

Lemma rank_pass_marks_top_n_witness :
  map jp_showme
      (fst (rank_pass insertion_qsort true cpumsecs_cmp jp_cpumsecs 100 3
              (five_joined, false)))
    = [true; true; false; false; false]
  /\ show_hogs insertion_qsort settings_top3 five_prior five_latest
     = Ret (HogTable [joined 3 999 true; joined 1 200 true]).
Proof.
  destruct (rank_pass_marks_top_n insertion_qsort settings_top3 Cpu
              five_joined false five_fit)
    as (_ & _ & Hshow).
  - cbn. lia.
  - cbn. lia.
  - split; [reflexivity | exact Hshow].
Defined.

(** Two rates 2^31 or more apart: the comparison puts the lower one first,
    whatever [qsort] is used. *)
Lemma reaper_sorted_any_qsort (Q : qsort_impl) :
  qsort Q cpumsecs_cmp [joined 0 3000000000 false; joined 1 200 false]
    = [joined 1 200 false; joined 0 3000000000 false].
Proof.
  set (a := joined 0 3000000000 false). set (b := joined 1 200 false).
  assert (Hab : cpumsecs_cmp a b = 1294967496) by (vm_compute; reflexivity).
  assert (Hba : cpumsecs_cmp b a = -1294967496) by (vm_compute; reflexivity).
  assert (Haa : cpumsecs_cmp a a = 0) by (vm_compute; reflexivity).
  assert (Hbb : cpumsecs_cmp b b = 0) by (vm_compute; reflexivity).
  assert (Hcons : consistent_on cpumsecs_cmp [a; b]).
  { split.
    - intros x y [<- | [<- | []]] [<- | [<- | []]];
        rewrite ?Hab, ?Hba, ?Haa, ?Hbb; lia.
    - intros x y z [<- | [<- | []]] [<- | [<- | []]] [<- | [<- | []]];
        rewrite ?Hab, ?Hba, ?Haa, ?Hbb; lia. }
  pose proof (qsort_perm Q cpumsecs_cmp [a; b] Hcons) as Hperm.
  pose proof (qsort_sorted Q cpumsecs_cmp [a; b] Hcons) as Hsorted.
  destruct (Permutation_length_2_inv Hperm) as [Heq | Heq]; [|exact Heq].
  exfalso. rewrite Heq in Hsorted.
  inversion Hsorted as [|? ? _ Hall]; subst.
  inversion Hall as [|? ? Hin _]; subst.
  unfold in_order in Hin. rewrite Hab in Hin. lia.
Qed.

(** C4.  The task with the highest rate is not always among those marked.
    With [-t 0.01 -n 1], a task whose cumulative CPU time grows by 30000000
    msecs between two snapshots has the rate 3000000000 and another one the
    rate 200; [cpumsecs_cmp] returns their unsigned difference as an [int],
    which is positive, so every [qsort] puts the rate 200 first and that task
    alone is marked and displayed. *)
Theorem show_hogs_marks_lower_rate :
  joined_tasks settings_t001_n1 reaper_prior reaper_latest
    = Ret [joined 0 3000000000 false; joined 1 200 false] /\
  double_fits_unsigned
    (PrimFloat.div (double_of_Z 30000000) (val_t settings_t001_n1)) = true /\
  cpumsecs_cmp (joined 0 3000000000 false) (joined 1 200 false) = 1294967496 /\
  forall Q : qsort_impl,
    show_hogs Q settings_t001_n1 reaper_prior reaper_latest
      = Ret (HogTable [joined 1 200 true]).
Proof.
  assert (Hjoin : joined_tasks settings_t001_n1 reaper_prior reaper_latest
                  = Ret [joined 0 3000000000 false; joined 1 200 false])
    by (vm_compute; reflexivity).
  split; [exact Hjoin|].
  split; [vm_compute; reflexivity|].
  split; [vm_compute; reflexivity|].
  intros Q. unfold show_hogs. rewrite Hjoin. cbn [bind].
  unfold rank_tasks, rank_pass.
  cbn [settings_t001_n1 flag_M flag_B flag_C val_q fst snd].
  rewrite reaper_sorted_any_qsort. reflexivity.
Qed.

(** ** Out-of-order snapshots *)






(** ** Rates of the joined tasks *)

Lemma joined_tasks_pairs (cfg : settings) (prior latest : list task_usage)
    (joinp : list join_on_pid_t) :
  joined_tasks cfg prior latest = Ret joinp ->
  exists pairs,
    join_on_pid prior latest = Ret pairs /\
    joinp = map (set_rates cfg prior latest) pairs.
Proof.
  unfold joined_tasks.
  destruct (join_on_pid prior latest) as [pairs| |]; cbn [bind]; intros H;
    try discriminate H.
  inversion H; subst. exists pairs. split; reflexivity.
Qed.

(** The join loop ends within its bound: [joined_tasks] returns, or exits
    on pids out of order. *)
Lemma joined_tasks_no_fault (cfg : settings) (prior latest : list task_usage)
    (w : string) :
  joined_tasks cfg prior latest <> Fault w.
Proof.
  unfold joined_tasks, join_on_pid.
  destruct (join_walk (length prior + length latest) prior latest 0 0)
    as [pairs|status diag|what] eqn:Hrun; cbn [bind]; try discriminate.
  exfalso.
  apply (join_walk_no_fault prior latest _ 0%nat 0%nat what) in Hrun;
    [exact Hrun | lia].
Qed.

Lemma inner_loop_reports_retimed (Q : qsort_impl) (cfg : settings)
    (shift : Z -> Z) (later : list sample) :
  forall prior,
    inner_loop_reports Q cfg (retimed shift prior) (map (retimed shift) later)
      = inner_loop_reports Q cfg prior later.
Proof.
  induction later as [|latest more IH]; intros prior; [reflexivity|].
  cbn [map inner_loop_reports retimed sample_tasks].
  destruct (show_hogs Q cfg (sample_tasks prior) (sample_tasks latest));
    try reflexivity.
  f_equal. apply (IH latest).
Qed.

(** Two samples read 20 seconds apart, with an inner-loop interval of 10
    seconds and 7000 msecs of CPU used in between, give a rate of 700, the
    7000 msecs divided by the 10 seconds configured; over the 20 seconds that
    passed the rate is 350. *)
Lemma cpu_rate_ignores_elapsed_time :
  elapsed_seconds slow_prior slow_latest = 20%float /\
  joined_tasks settings_top3 (sample_tasks slow_prior) (sample_tasks slow_latest)
    = Ret [ {| jp_i := 0; jp_j := 0; jp_cpumsecs := 700; jp_rssmrams := 20;
               jp_diskwait := 0; jp_showme := false |} ] /\
  elapsed_cpu_rate settings_top3 slow_prior slow_latest 0 0 = 350.
Proof. repeat split; vm_compute; reflexivity. Qed.

(** Where C defines the conversions they cut towards zero. *)
Lemma unsigned_of_double_fits (f : float) :
  double_fits_unsigned f = true -> unsigned_of_double f = trunc_double f.
Proof.
  unfold double_fits_unsigned, unsigned_of_double, trunc_double.
  destruct (Prim2SF f) as [sg | sg | | sg m e]; try discriminate.
  - intros _. reflexivity.
  - intros H. apply andb_prop in H. destruct H as [H0 H1].
    apply Z.leb_le in H0. apply Z.ltb_lt in H1.
    cbv zeta in *.
    match goal with
    | |- (if ?c then _ else _) = ?t =>
        replace c with true
          by (symmetry; apply andb_true_intro; split;
              [apply Z.leb_le | apply Z.ltb_lt]; lia)
    end.
    apply Z.mod_small. lia.
Qed.

Lemma int_of_double_fits (f : float) :
  double_fits_int f = true -> int_of_double f = trunc_double f.
Proof. unfold int_of_double. intros ->. reflexivity. Qed.

(** C1.  The rates are taken over the configured inner-loop interval, not
    over the time between the two snapshots.  With [-s 2 -t 5], [main] sleeps
    2 seconds between the prior snapshot and the first latest one; a task
    that used 1000 msecs of CPU and waited 400 msecs for disks in those 2
    seconds is given the rates 200 and 80, the increases divided by 5; over
    the 2 seconds that passed they are 500 and 200. *)
Theorem rates_over_nominal_interval :
  main_settings [Opt_s 2%float; Opt_t 5%float] false (Some 1)
    = Ret options_s2_t5 /\
  first_sleep_usecs options_s2_t5 = 2000000 /\
  read_at brisk_latest - read_at brisk_prior = first_sleep_usecs options_s2_t5 /\
  elapsed_seconds brisk_prior brisk_latest = 2%float /\
  joined_tasks (opt_settings options_s2_t5)
      (sample_tasks brisk_prior) (sample_tasks brisk_latest)
    = Ret [ {| jp_i := 0; jp_j := 0; jp_cpumsecs := 200; jp_rssmrams := 20;
               jp_diskwait := 80; jp_showme := false |} ] /\
  elapsed_cpu_rate (opt_settings options_s2_t5) brisk_prior brisk_latest 0 0
    = 500 /\
  elapsed_diskwait_rate brisk_prior brisk_latest 0 0 = 200.
Proof. repeat split; vm_compute; reflexivity. Qed.

(** X24.  For every pair of consecutive snapshots joined in the inner loop,
    each joined task pairs two records with one pid; where the quotient fits
    an [unsigned], its CPU rate is the increase of the cumulative CPU
    milliseconds divided by the configured inner-loop interval [val_t], cut
    towards zero and then divided by the number of CPUs, and its disk-wait
    rate is the increase of the cumulative wait milliseconds divided by
    [val_t], cut towards zero; the reports do not depend on the times at
    which the snapshots were read.  An increase from 9000 to 9700 msecs with
    an interval of 10 seconds on one CPU is a rate of 70. *)
Theorem joined_tasks_rates_per_interval
    (Q : qsort_impl) (cfg : settings) (prior latest : sample)
    (later : list sample) (shift : Z -> Z) :
  (forall w,
     joined_tasks cfg (sample_tasks prior) (sample_tasks latest) <> Fault w)
  /\ (forall joinp,
        joined_tasks cfg (sample_tasks prior) (sample_tasks latest) = Ret joinp ->
        Forall
          (fun jp =>
             let p := elem (sample_tasks prior) (jp_i jp) in
             let l := elem (sample_tasks latest) (jp_j jp) in
             let cpu_quotient :=
               PrimFloat.div (double_of_Z (u64 (cpumsecs l - cpumsecs p)))
                             (val_t cfg) in
             let wait_quotient :=
               PrimFloat.div (double_of_Z (u64 (diskwait l - diskwait p)))
                             (val_t cfg) in
             pid p = pid l /\
             (double_fits_unsigned cpu_quotient = true ->
              jp_cpumsecs jp = trunc_double cpu_quotient / u32 (ncpus cfg)) /\
             (double_fits_unsigned wait_quotient = true ->
              jp_diskwait jp = trunc_double wait_quotient) /\
             jp_rssmrams jp = u32 (rssmram l))
          joinp)
  /\ inner_loop_reports Q cfg (retimed shift prior) (map (retimed shift) later)
     = inner_loop_reports Q cfg prior later
  /\ map jp_cpumsecs
       (set_rates settings_top3 [task 11 9000] [task 11 9700] (0, 0)%nat :: nil)
     = [70].
Proof.
  split; [|split; [|split]].
  - intros w. apply joined_tasks_no_fault.
  - intros joinp Hrun.
    destruct (joined_tasks_pairs cfg _ _ joinp Hrun) as (pairs & Hjoin & ->).
    pose proof (join_walk_pairs _ _ _ 0%nat 0%nat pairs Hjoin) as Hpairs.
    clear Hrun Hjoin.
    induction Hpairs as [|[i j] rest (Hi & Hj & Hpid) Hrest IH];
      cbn [map]; constructor.
    + cbn [fst snd] in Hpid. unfold set_rates, rate_per_interval, RAM.
      cbn [jp_i jp_j jp_cpumsecs jp_diskwait jp_rssmrams]. cbv zeta.
      split; [exact Hpid|]. split; [|split; [|reflexivity]].
      * intros Hfit. rewrite (unsigned_of_double_fits _ Hfit). reflexivity.
      * intros Hfit. rewrite (unsigned_of_double_fits _ Hfit). reflexivity.
    + exact IH.
  - apply inner_loop_reports_retimed.
  - vm_compute. reflexivity.
Qed.

(** * Further properties *)

(** ** The task reader *)

Lemma substring_length_le (n : nat) (s : string) :
  (String.length (substring 0 n s) <= n)%nat.
Proof.
  revert s. induction n as [|n IH]; intros [|c s]; cbn; try lia.
  specialize (IH s). lia.
Qed.

(** X1.  [read_stat_file] returns -1 in no other case than a failed open or
    read of the stat file (a task that has just exited), and a return value of
    0 comes with a record whose pid is the one in the directory name, is not
    zero, and whose command name has at most 15 characters. *)
Theorem read_stat_file_return_values
    (si : sysinfo) (f : stat_file) (c : Z) (s : stores) :
  read_stat_file si f = Ret (c, s) ->
  (c = -1 <->
   st_pidstr_len f <= 30 /\ (st_open_ok f = false \/ st_read_ok f = false)) /\
  (c = 0 ->
   exists tu, s = StoreAll tu /\ pid tu = st_name_pid f /\ pid tu <> 0 /\
              (String.length (cmd tu) <= 15)%nat).
Proof.
  unfold read_stat_file, ram_size_in_kbytes, kernel_clock_ticks_per_second, bind.
  destruct (30 <? st_pidstr_len f) eqn:Hlen.
  { apply Z.ltb_lt in Hlen. intros H. inversion H; subst.
    split; [split; [discriminate | lia] | discriminate]. }
  apply Z.ltb_ge in Hlen.
  destruct (st_open_ok f) eqn:Hopen; cbn [negb].
  2: { intros H. inversion H; subst.
       split; [split; auto | discriminate]. }
  destruct (st_read_ok f) eqn:Hread; cbn [negb].
  2: { intros H. inversion H; subst.
       split; [split; auto | discriminate]. }
  assert (Hno : ~ (st_pidstr_len f <= 30 /\ (true = false \/ true = false)))
    by (intros [_ [H | H]]; discriminate H).
  destruct (st_parens f); cbn [negb].
  2: { intros H. inversion H; subst.
       split; [split; [discriminate | tauto] | discriminate]. }
  destruct (st_line_pid f =? st_name_pid f) eqn:Hpid; cbn [negb].
  2: { intros H. inversion H; subst.
       split; [split; [discriminate | tauto] | discriminate]. }
  apply Z.eqb_eq in Hpid.
  destruct (st_rest_len f <? 50).
  { intros H. inversion H; subst.
    split; [split; [discriminate | tauto] | discriminate]. }
  destruct ((st_line_pid f =? 0) || (st_name_pid f =? 0)) eqn:Hzero.
  { intros H. inversion H; subst.
    split; [split; [discriminate | tauto] | discriminate]. }
  apply orb_false_iff in Hzero. destruct Hzero as [Hz _].
  apply Z.eqb_neq in Hz.
  destruct (st_converted f =? 6); cbn [negb].
  2: { intros H. inversion H; subst.
       split; [split; [discriminate | tauto] | discriminate]. }
  destruct (memtotal si =? 0); [discriminate|].
  destruct (clk_tck si <=? 0); [discriminate|].
  intros H. inversion H; subst.
  split; [split; [discriminate | tauto]|].
  intros _. eexists. split; [reflexivity|]. cbn [pid cmd].
  repeat split; try assumption.
  unfold copy_comm, TASK_COMM_LEN. apply substring_length_le.
Qed.

Lemma read_stat_file_return_values_witness :
  exists tu,
    read_stat_file sysinfo_4k (stat_of_pid 77) = Ret (0, StoreAll tu) /\
    pid tu = 77 /\ (String.length (cmd tu) <= 15)%nat.
Proof.
  destruct (read_stat_file_return_values sysinfo_4k (stat_of_pid 77) 0
              (StoreAll {| cmd := "sh"; pid := 77; cpumsecs := 700;
                           rssmram := 1; diskwait := 30 |}) eq_refl)
    as [_ H].
  destruct (H eq_refl) as (tu & Htu & Hpid & _ & Hlen).
  exists tu. split; [exact (f_equal (fun s => Ret (0, s)) Htu)|].
  split; [exact Hpid | exact Hlen].
Defined.

Lemma u32_max0 (x : Z) :
  x < 2 ^ 32 -> (if x <? 0 then 0 else u32 x) = Z.max 0 x.
Proof.
  intros H. destruct (x <? 0) eqn:Hneg.
  - apply Z.ltb_lt in Hneg. lia.
  - apply Z.ltb_ge in Hneg. rewrite u32_small by lia. lia.
Qed.

(** X2.  The CPU milliseconds [read_stat_file] stores are the user, system
    and waited-for children's ticks, a negative children's count taken as
    zero, times 1000 and divided by the ticks per second, the multiplication
    first; the block I/O delay is converted the same way.  This holds while
    the children's counts fit 32 bits and the products fit 64. *)
Theorem read_stat_file_msecs (si : sysinfo) (f : stat_file) (tu : task_usage) :
  read_stat_file si f = Ret (0, StoreAll tu) ->
  0 <= st_utime f -> 0 <= st_stime f ->
  st_cutime f < 2 ^ 32 -> st_cstime f < 2 ^ 32 ->
  1000 * cpu_ticks f < 2 ^ 64 ->
  0 <= 1000 * st_blockioticks f < 2 ^ 64 ->
  cpumsecs tu = (1000 * cpu_ticks f) / clk_tck si /\
  diskwait tu = (1000 * st_blockioticks f) / clk_tck si.
Proof.
  intros Hread Hu Hs Hcu Hcs Hfit Hblk.
  assert (Hstored :
    cpumsecs tu
      = msecs_of_ticks
          (u64 (st_utime f + st_stime f
                + (if st_cutime f <? 0 then 0 else u32 (st_cutime f))
                + (if st_cstime f <? 0 then 0 else u32 (st_cstime f))))
          (clk_tck si) /\
    diskwait tu = msecs_of_ticks (st_blockioticks f) (clk_tck si)).
  { revert Hread.
    unfold read_stat_file, ram_size_in_kbytes, kernel_clock_ticks_per_second,
      bind.
    destruct (30 <? st_pidstr_len f); [discriminate|].
    destruct (negb (st_open_ok f)); [discriminate|].
    destruct (negb (st_read_ok f)); [discriminate|].
    destruct (negb (st_parens f)); [discriminate|].
    destruct (negb (st_line_pid f =? st_name_pid f)); [discriminate|].
    destruct (st_rest_len f <? 50); [discriminate|].
    destruct ((st_line_pid f =? 0) || (st_name_pid f =? 0)); [discriminate|].
    destruct (negb (st_converted f =? 6)); [discriminate|].
    destruct (memtotal si =? 0); [discriminate|].
    destruct (clk_tck si <=? 0); [discriminate|].
    intros H. inversion H; subst. split; reflexivity. }
  destruct Hstored as [Hc Hd]. rewrite Hc, Hd.
  rewrite !u32_max0 by assumption. fold (cpu_ticks f).
  unfold msecs_of_ticks. unfold cpu_ticks in *.
  rewrite (u64_small (st_utime f + st_stime f + Z.max 0 (st_cutime f)
                      + Z.max 0 (st_cstime f))) by lia.
  rewrite !u64_small by lia. split; reflexivity.
Qed.

Lemma read_stat_file_msecs_witness :
  exists tu,
    read_stat_file sysinfo_4k (stat_of_pid 77) = Ret (0, StoreAll tu) /\
    cpumsecs tu = 700 /\ diskwait tu = 30.
Proof.
  eexists. split; [reflexivity|].
  refine (read_stat_file_msecs sysinfo_4k (stat_of_pid 77) _ eq_refl
            _ _ _ _ _ _); cbn; lia.
Defined.

(** Shows that each entry of a given directory passes. *)
Ltac entries_pass :=
  repeat (apply Forall_cons;
          [ first [ left; reflexivity
                  | right; do 2 eexists; split;
                    [ reflexivity
                    | first [left; reflexivity | right; reflexivity] ] ]
          | ]);
  apply Forall_nil.

Lemma scan_proc_passes (si : sysinfo) (nt : Z) (ents : list dirent) :
  Forall (entry_passes si) ents ->
  forall (i : Z) (a : list task_usage),
    0 <= i <= Z.max 0 nt ->
    length a = Z.to_nat nt ->
    exists t, scan_proc si nt ents i a = Ret t.
Proof.
  induction 1 as [|ent rest Hent Hrest IH]; intros i a Hi Hlen;
    cbn [scan_proc]; [eexists; reflexivity|].
  destruct (i <? nt) eqn:Hguard; [|eexists; reflexivity].
  apply Z.ltb_lt in Hguard.
  destruct (d_name_isdigit ent) eqn:Hdig; cbn [negb]; [|apply IH; assumption].
  destruct Hent as [Hnd | (c & s & Hread & Hc)]; [congruence|].
  rewrite Hread. cbn [bind fst snd].
  destruct (store_at_in_bounds a i s) as (a' & Hst & Hlen' & _ & _); [lia|].
  rewrite Hst. cbn [bind].
  destruct Hc as [-> | ->]; cbn [Z.ltb Z.leb Z.compare].
  - apply IH; [lia | congruence].
  - apply IH; [lia | congruence].
Qed.

(** X3.  A task whose stat file cannot be opened or read any more is left
    out and the scan goes on: when every entry either reads well or fails
    that way, [get_task_usages] returns, and its snapshot holds the records
    of the entries that read well, in directory order, as many as fit. *)
Theorem get_task_usages_skips_vanished
    (si : sysinfo) (nt : Z) (garbage : task_usage) (ents : list dirent) :
  Forall (entry_passes si) ents ->
  exists t,
    get_task_usages si nt garbage ents = Ret t /\
    tasks_of t = firstn (Z.to_nat nt) (readable si ents).
Proof.
  intros Hok. unfold get_task_usages.
  destruct (scan_proc_passes si nt ents Hok 0 (repeat garbage (Z.to_nat nt)))
    as [t Ht]; [lia | apply repeat_length |].
  exists t. split; [exact Ht|].
  destruct (scan_proc_spec si nt ents 0 (repeat garbage (Z.to_nat nt)))
    as [_ Hret]; [lia | apply repeat_length |].
  destruct (Hret t Ht) as (_ & _ & Htasks).
  rewrite Htasks. cbn [Z.to_nat firstn app]. rewrite Z.sub_0_r. reflexivity.
Qed.

Lemma get_task_usages_skips_vanished_witness :
  exists t,
    get_task_usages sysinfo_4k 40 no_task entries_with_vanished = Ret t /\
    map pid (tasks_of t) = [1; 3].
Proof.
  destruct (get_task_usages_skips_vanished sysinfo_4k 40 no_task
              entries_with_vanished)
    as (t & Hrun & Htasks).
  - entries_pass.
  - exists t. split; [exact Hrun|]. rewrite Htasks. reflexivity.
Defined.

Lemma scan_proc_fatal (si : sysinfo) (nt : Z) (bad : dirent)
    (post : list dirent) (c : Z) (s : stores) :
  d_name_isdigit bad = true ->
  read_stat_file si (d_stat bad) = Ret (c, s) -> c <= -2 ->
  forall (pre : list dirent) (i : Z) (a : list task_usage),
    Forall (entry_passes si) pre ->
    0 <= i -> i + Z.of_nat (length (readable si pre)) < nt ->
    length a = Z.to_nat nt ->
    scan_proc si nt (pre ++ bad :: post) i a = Exit 4 "read_stat_file".
Proof.
  intros Hdig Hread Hc.
  induction pre as [|ent rest IH]; intros i a Hok Hi Hroom Hlen;
    cbn [app scan_proc].
  - cbn in Hroom.
    destruct (i <? nt) eqn:Hguard; [|apply Z.ltb_ge in Hguard; lia].
    rewrite Hdig, Hread. cbn [negb bind fst snd].
    destruct (store_at_in_bounds a i s) as (a' & Hst & _); [lia|].
    rewrite Hst. cbn [bind].
    destruct (c <? 0) eqn:Hneg; [|apply Z.ltb_ge in Hneg; lia].
    destruct (c <=? -2) eqn:Hle; [reflexivity | apply Z.leb_gt in Hle; lia].
  - inversion Hok as [|e r Hent Hrest]; subst.
    cbn [readable] in Hroom.
    assert (Hmono : (length (readable si rest)
                     <= length (match task_read si ent with
                                | Some tu => tu :: readable si rest
                                | None => readable si rest
                                end))%nat)
      by (destruct (task_read si ent); cbn [length]; lia).
    destruct (i <? nt) eqn:Hguard; [|apply Z.ltb_ge in Hguard; lia].
    destruct (d_name_isdigit ent) eqn:Hd; cbn [negb].
    2: { apply IH; try assumption. lia. }
    destruct Hent as [Hnd | (c' & s' & Hread' & Hc')]; [congruence|].
    rewrite Hread'. cbn [bind fst snd].
    destruct (store_at_in_bounds a i s') as (a' & Hst & Hlen' & _); [lia|].
    rewrite Hst. cbn [bind].
    destruct (task_read_digit si ent c' s' Hd Hread')
      as [(Hz & tu & _ & Htr) | (Hneg & Htr)]; rewrite Htr in Hroom.
    + subst c'. cbn [Z.ltb Z.compare]. cbn [length] in Hroom.
      apply IH; try assumption; try lia; congruence.
    + destruct Hc' as [-> | ->]; [lia|]. cbn [Z.ltb Z.leb Z.compare].
      apply IH; try assumption; try lia; congruence.
Qed.

(** X4.  A stat file that is there but does not parse, or whose pid does not
    match (any return value of -2 or below), ends the program with status 4,
    provided the scan reaches it before the array is full. *)
Theorem get_task_usages_malformed_is_fatal
    (si : sysinfo) (nt : Z) (garbage : task_usage)
    (pre post : list dirent) (bad : dirent) (c : Z) (s : stores) :
  Forall (entry_passes si) pre ->
  d_name_isdigit bad = true ->
  read_stat_file si (d_stat bad) = Ret (c, s) -> c <= -2 ->
  Z.of_nat (length (readable si pre)) < nt ->
  get_task_usages si nt garbage (pre ++ bad :: post) = Exit 4 "read_stat_file".
Proof.
  intros Hpre Hdig Hread Hc Hroom. unfold get_task_usages.
  apply (scan_proc_fatal si nt bad post c s Hdig Hread Hc); try assumption.
  - lia.
  - apply repeat_length.
Qed.

Lemma get_task_usages_malformed_is_fatal_witness :
  get_task_usages sysinfo_4k 40 no_task
      (entries_with_vanished
         ++ {| d_name_isdigit := true; d_stat := stat_mismatch |}
         :: proc_entries)
    = Exit 4 "read_stat_file".
Proof.
  refine (get_task_usages_malformed_is_fatal sysinfo_4k 40 no_task
            entries_with_vanished proc_entries
            {| d_name_isdigit := true; d_stat := stat_mismatch |}
            (-5) (StoreCmdPid "sh" 7) _ eq_refl eq_refl _ _).
  - entries_pass.
  - cbn. lia.
  - reflexivity.
Defined.





(** ** The ranking *)

Lemma dim_metric_unmark (d : dimension) (jp : join_on_pid_t) :
  dim_metric d (unmark jp) = dim_metric d jp.
Proof. destruct d; reflexivity. Qed.

Lemma dim_metric_set_showme (d : dimension) (jp : join_on_pid_t) :
  dim_metric d (set_showme jp) = dim_metric d jp.
Proof. destruct d; reflexivity. Qed.

Lemma fits_int_unmark (d : dimension) (l : list join_on_pid_t) :
  fits_int d l <-> fits_int d (map unmark l).
Proof.
  unfold fits_int. rewrite Forall_map. split; apply Forall_impl; intros jp;
    rewrite dim_metric_unmark; auto.
Qed.

Lemma meets_some_unmark (cfg : settings) (jp : join_on_pid_t) :
  meets_some cfg (unmark jp) <-> meets_some cfg jp.
Proof.
  unfold meets_some. split; intros (d & He & Hm); exists d;
    rewrite dim_metric_unmark in *; auto.
Qed.

Lemma mark_hogs_unmark (n : nat) (metric : join_on_pid_t -> Z) (thr : Z)
    (l : list join_on_pid_t) :
  map unmark (mark_hogs n metric thr l) = map unmark l.
Proof.
  revert l. induction n as [|n IH]; intros [|jp rest]; cbn [mark_hogs map];
    try reflexivity.
  rewrite IH. f_equal. destruct (thr <=? metric jp); reflexivity.
Qed.

Lemma mark_hogs_marked (n : nat) (d : dimension) (thr : Z)
    (l : list join_on_pid_t) (x : join_on_pid_t) :
  In x (mark_hogs n (dim_metric d) thr l) -> jp_showme x = true ->
  thr <= dim_metric d x \/ (In x l /\ jp_showme x = true).
Proof.
  revert l. induction n as [|n IH]; intros [|jp rest]; cbn [mark_hogs];
    intros Hin Hx; try (right; split; assumption).
  destruct Hin as [Heq | Hin].
  - destruct (thr <=? dim_metric d jp) eqn:Hthr.
    + left. subst x. rewrite dim_metric_set_showme. apply Z.leb_le. exact Hthr.
    + right. subst x. split; [left; reflexivity | exact Hx].
  - destruct (IH rest Hin Hx) as [H | [H1 H2]]; [left; exact H|].
    right. split; [right; exact H1 | exact H2].
Qed.

Lemma mark_hogs_count (n : nat) (metric : join_on_pid_t -> Z) (thr : Z)
    (l : list join_on_pid_t) :
  (marked_count (mark_hogs n metric thr l) <= marked_count l + n)%nat.
Proof.
  unfold marked_count.
  revert l. induction n as [|n IH]; intros [|jp rest]; cbn [mark_hogs];
    try lia.
  specialize (IH rest). cbn [filter].
  destruct (thr <=? metric jp); cbn [set_showme jp_showme];
    destruct (jp_showme jp); cbn [length]; lia.
Qed.

Lemma marks_some_iff (n : nat) (d : dimension) (thr : Z)
    (l : list join_on_pid_t) :
  (marks_some n (dim_metric d) thr l = true \/
   exists x, In x l /\ jp_showme x = true) <->
  exists x, In x (mark_hogs n (dim_metric d) thr l) /\ jp_showme x = true.
Proof.
  unfold marks_some.
  revert l. induction n as [|n IH]; intros [|jp rest];
    cbn [mark_hogs firstn existsb].
  - split; [intros [H | H]; [discriminate H | exact H] | intros H; right; exact H].
  - split; [intros [H | H]; [discriminate H | exact H] | intros H; right; exact H].
  - split; [intros [H | H]; [discriminate H | exact H] | intros H; right; exact H].
  - specialize (IH rest). split.
    + intros [H | (x & [Heq | Hin] & Hx)].
      * apply orb_true_iff in H. destruct H as [H | H].
        -- exists (set_showme jp). rewrite H. split; [left|]; reflexivity.
        -- destruct (proj1 IH (or_introl H)) as (x & Hin & Hx).
           exists x. split; [right; exact Hin | exact Hx].
      * subst x. destruct (thr <=? dim_metric d jp).
        -- exists (set_showme jp). split; [left|]; reflexivity.
        -- exists jp. split; [left; reflexivity | exact Hx].
      * destruct (proj1 IH (or_intror (ex_intro _ x (conj Hin Hx))))
          as (y & Hy & Hys).
        exists y. split; [right; exact Hy | exact Hys].
    + intros (x & [Heq | Hin] & Hx).
      * destruct (thr <=? dim_metric d jp) eqn:Hthr.
        -- left. reflexivity.
        -- right. exists jp. subst x. split; [left; reflexivity | exact Hx].
      * destruct (proj2 IH (ex_intro _ x (conj Hin Hx)))
          as [H | (y & Hy & Hys)].
        -- left. rewrite H. apply orb_true_r.
        -- right. exists y. split; [right; exact Hy | exact Hys].
Qed.

Lemma marked_count_perm (l l' : list join_on_pid_t) :
  Permutation l l' -> marked_count l = marked_count l'.
Proof.
  unfold marked_count. induction 1 as [| x l l' H IH | x y l | l l' l'' H1 IH1 H2 IH2];
    cbn [filter].
  - reflexivity.
  - destruct (jp_showme x); cbn [length]; lia.
  - destruct (jp_showme x), (jp_showme y); reflexivity.
  - lia.
Qed.

(** One block of the ranking keeps the invariant, and sets at most [n]
    more marks. *)
Lemma rank_pass_inv (Q : qsort_impl) (cfg : settings) (d : dimension)
    (l0 : list join_on_pid_t) (k n : nat)
    (st : list join_on_pid_t * bool) :
  (dim_enabled cfg d = true -> fits_int d l0) ->
  rank_inv cfg l0 k st ->
  rank_inv cfg l0 (k + if dim_enabled cfg d then n else 0)
    (rank_pass Q (dim_enabled cfg d) (dim_cmp d) (dim_metric d)
       (dim_threshold cfg d) n st).
Proof.
  intros Hfit (Hperm & Hmeets & Hgot & Hcount). unfold rank_pass, rank_inv.
  destruct (dim_enabled cfg d) eqn:Hen; cbv zeta.
  2: { repeat split; try assumption; try apply Hgot. lia. }
  assert (Hfit' : fits_int d (fst st)).
  { apply (proj2 (fits_int_unmark d (fst st))).
    apply (fits_int_perm d _ _ Hperm).
    apply (proj1 (fits_int_unmark d l0)). exact (Hfit eq_refl). }
  pose proof (qsort_perm Q (dim_cmp d) (fst st)
                (dim_cmp_consistent d _ Hfit')) as Hq.
  cbn [fst snd]. split; [|split; [|split]].
  - rewrite mark_hogs_unmark.
    eapply Permutation_trans; [exact Hperm|].
    apply Permutation_map. exact Hq.
  - intros x Hin Hx.
    destruct (mark_hogs_marked n d _ _ x Hin Hx) as [Hthr | [Hin' Hx']].
    + exists d. split; assumption.
    + apply Hmeets; [|exact Hx'].
      apply (Permutation_in _ (Permutation_sym Hq)). exact Hin'.
  - rewrite orb_true_iff, Hgot, <- marks_some_iff. split.
    + intros [(x & Hin & Hx) | H]; [right | left; exact H].
      exists x. split; [apply (Permutation_in _ Hq); exact Hin | exact Hx].
    + intros [H | (x & Hin & Hx)]; [right; exact H | left].
      exists x. split; [|exact Hx].
      apply (Permutation_in _ (Permutation_sym Hq)). exact Hin.
  - pose proof (mark_hogs_count n (dim_metric d) (dim_threshold cfg d)
                  (qsort Q (dim_cmp d) (fst st))) as Hc.
    rewrite <- (marked_count_perm _ _ Hq) in Hc. lia.
Qed.

Lemma map_unmark_unmarked (l : list join_on_pid_t) :
  Forall (fun jp => jp_showme jp = false) l -> map unmark l = l.
Proof.
  induction 1 as [|jp l Hjp Hl IH]; cbn [map]; [reflexivity|].
  rewrite IH. f_equal. destruct jp. cbn in Hjp. subst. reflexivity.
Qed.

Lemma filter_unmarked (l : list join_on_pid_t) :
  Forall (fun jp => jp_showme jp = false) l -> filter jp_showme l = [].
Proof.
  induction 1 as [|jp l Hjp Hl IH]; cbn [filter]; [reflexivity|].
  rewrite Hjp. exact IH.
Qed.

(** The invariant at the end of the three blocks. *)
Lemma rank_tasks_inv (Q : qsort_impl) (cfg : settings)
    (l : list join_on_pid_t) :
  Forall (fun jp => jp_showme jp = false) l ->
  (forall d, dim_enabled cfg d = true -> fits_int d l) ->
  rank_inv cfg l (length (enabled_dims cfg) * jpmax_count cfg l)
    (rank_tasks Q cfg l).
Proof.
  intros Hclean Hfit.
  assert (H0 : rank_inv cfg l 0 (l, false)).
  { cbn [rank_inv fst snd]. repeat split.
    - apply Permutation_refl.
    - intros x Hin Hx. rewrite Forall_forall in Hclean.
      rewrite (Hclean x Hin) in Hx. discriminate Hx.
    - discriminate.
    - intros (x & Hin & Hx). rewrite Forall_forall in Hclean.
      rewrite (Hclean x Hin) in Hx. discriminate Hx.
    - unfold marked_count. rewrite filter_unmarked by exact Hclean.
      cbn. lia. }
  pose proof (rank_pass_inv Q cfg Memory l _ (jpmax_count cfg l) _
                (Hfit Memory) H0) as H1.
  pose proof (rank_pass_inv Q cfg DiskWait l _ (jpmax_count cfg l) _
                (Hfit DiskWait) H1) as H2.
  pose proof (rank_pass_inv Q cfg Cpu l _ (jpmax_count cfg l) _
                (Hfit Cpu) H2) as H3.
  unfold rank_tasks.
  cbn [dim_enabled dim_cmp dim_metric dim_threshold] in H3.
  destruct H3 as (Hp & Hm & Hg & Hc). repeat split; try assumption;
    try apply Hg.
  eapply Nat.le_trans; [exact Hc|].
  unfold enabled_dims. cbn [filter dim_enabled].
  destruct (flag_M cfg), (flag_B cfg), (flag_C cfg); cbn [length]; lia.
Qed.

Lemma joined_tasks_unmarked (cfg : settings) (prior latest : list task_usage)
    (joinp : list join_on_pid_t) :
  joined_tasks cfg prior latest = Ret joinp ->
  Forall (fun jp => jp_showme jp = false) joinp.
Proof.
  intros H. destruct (joined_tasks_pairs cfg _ _ joinp H) as (pairs & _ & ->).
  apply Forall_map. apply Forall_forall. intros [i j] _. reflexivity.
Qed.

(** X6.  When no joined task reaches the threshold of any dimension asked
    for, [show_hogs] prints the notice that no individual tasks are hogs and
    no table (the metrics fitting an [int]). *)
Theorem show_hogs_no_hogs
    (Q : qsort_impl) (cfg : settings) (prior latest : list task_usage)
    (joinp : list join_on_pid_t) :
  joined_tasks cfg prior latest = Ret joinp ->
  (forall d, dim_enabled cfg d = true -> fits_int d joinp) ->
  (forall d, dim_enabled cfg d = true ->
     Forall (fun jp => dim_metric d jp < dim_threshold cfg d) joinp) ->
  show_hogs Q cfg prior latest = Ret NoHogs.
Proof.
  intros Hjoin Hfit Hbelow.
  pose proof (rank_tasks_inv Q cfg joinp
                (joined_tasks_unmarked _ _ _ _ Hjoin) Hfit)
    as (Hperm & Hmeets & Hgot & _).
  unfold show_hogs. rewrite Hjoin. cbn [bind].
  destruct (rank_tasks Q cfg joinp) as [ranked got]. cbn [fst snd] in *.
  destruct got; [|reflexivity]. exfalso.
  destruct (proj1 Hgot eq_refl) as (x & Hin & Hx).
  destruct (Hmeets x Hin Hx) as (d & Hen & Hthr).
  assert (Hux : In (unmark x) (map unmark joinp)).
  { apply (Permutation_in _ (Permutation_sym Hperm)).
    apply in_map. exact Hin. }
  apply in_map_iff in Hux. destruct Hux as (y & Hy & Hyin).
  specialize (Hbelow d Hen). rewrite Forall_forall in Hbelow.
  specialize (Hbelow y Hyin).
  rewrite <- (dim_metric_unmark d y), Hy, dim_metric_unmark in Hbelow. lia.
Qed.

Lemma show_hogs_no_hogs_witness :
  show_hogs insertion_qsort settings_q5000 five_prior five_latest = Ret NoHogs.
Proof.
  refine (show_hogs_no_hogs insertion_qsort settings_q5000 five_prior
            five_latest five_joined _ _ _).
  - vm_compute. reflexivity.
  - intros [| |] H; try discriminate H.
    unfold fits_int, five_joined. repeat constructor; cbn; lia.
  - intros [| |] H; try discriminate H.
    unfold five_joined. repeat constructor.
Defined.

(** X7.  When [show_hogs] prints a table and the metrics of every dimension
    asked for fit an [int], the table is not empty, every row is one of the
    joined tasks and reaches the threshold of at least one dimension asked
    for, and there are at most N rows for each dimension asked for, N being
    the lesser of the configured maximum and the number of joined tasks. *)
Theorem show_hogs_table_rows
    (Q : qsort_impl) (cfg : settings) (prior latest : list task_usage)
    (joinp rows : list join_on_pid_t) :
  joined_tasks cfg prior latest = Ret joinp ->
  (forall d, dim_enabled cfg d = true -> fits_int d joinp) ->
  show_hogs Q cfg prior latest = Ret (HogTable rows) ->
  rows <> [] /\
  Forall (meets_some cfg) rows /\
  Forall (fun row => In (unmark row) joinp) rows /\
  (length rows <= length (enabled_dims cfg) * jpmax_count cfg joinp)%nat.
Proof.
  intros Hjoin Hfit Hshow.
  pose proof (joined_tasks_unmarked _ _ _ _ Hjoin) as Hclean.
  pose proof (rank_tasks_inv Q cfg joinp Hclean Hfit)
    as (Hperm & Hmeets & Hgot & Hcount).
  unfold show_hogs in Hshow. rewrite Hjoin in Hshow. cbn [bind] in Hshow.
  destruct (rank_tasks Q cfg joinp) as [ranked got]. cbn [fst snd] in *.
  destruct got; [|discriminate Hshow].
  inversion Hshow; subst rows. clear Hshow.
  split; [|split; [|split]].
  - destruct (proj1 Hgot eq_refl) as (x & Hin & Hx).
    intros Hnil.
    assert (Hf : In x (filter jp_showme ranked))
      by (apply filter_In; split; assumption).
    rewrite Hnil in Hf. exact Hf.
  - apply Forall_forall. intros x Hx. apply filter_In in Hx.
    destruct Hx as [Hin Hx]. apply Hmeets; assumption.
  - apply Forall_forall. intros x Hx. apply filter_In in Hx.
    destruct Hx as [Hin _].
    rewrite <- (map_unmark_unmarked joinp Hclean).
    apply (Permutation_in _ (Permutation_sym Hperm)).
    apply in_map. exact Hin.
  - exact Hcount.
Qed.

Lemma show_hogs_table_rows_witness :
  (length [joined 3 999 true; joined 1 200 true] <= 1 * 3)%nat /\
  Forall (meets_some settings_top3) [joined 3 999 true; joined 1 200 true].
Proof.
  destruct (show_hogs_table_rows insertion_qsort settings_top3 five_prior
              five_latest five_joined [joined 3 999 true; joined 1 200 true])
    as (_ & Hmeets & _ & Hlen).
  - vm_compute. reflexivity.
  - intros [| |] H; try discriminate H.
    unfold fits_int, five_joined. repeat constructor; cbn; lia.
  - vm_compute. reflexivity.
  - split; [exact Hlen | exact Hmeets].
Defined.

(** X8.  The three comparison routines put the smaller of two metrics first
    when the metrics differ by 2^31 or more: their difference, taken as
    [unsigned] and returned as [int], then has the wrong sign. *)
Theorem comparison_wraps (d : dimension) (x y : join_on_pid_t) :
  0 <= dim_metric d x -> dim_metric d y < 2 ^ 32 ->
  2 ^ 31 <= dim_metric d y - dim_metric d x ->
  dim_cmp d x y < 0 /\ ~ descending d x y.
Proof.
  intros Hx Hy Hdiff. split; [|unfold descending; lia].
  rewrite dim_cmp_unfold. unfold s32, u32. rewrite Z.mod_mod by lia.
  rewrite (Z.mod_small (dim_metric d y - dim_metric d x)) by lia.
  destruct (dim_metric d y - dim_metric d x <? 2 ^ 31) eqn:H.
  - apply Z.ltb_lt in H. lia.
  - lia.
Qed.

Lemma comparison_wraps_witness :
  cpumsecs_cmp (joined 0 0 false) (joined 1 3000000000 false) < 0.
Proof.
  refine (proj1 (comparison_wraps Cpu (joined 0 0 false)
                   (joined 1 3000000000 false) _ _ _)); cbn; lia.
Defined.

(** ** Disk usage over two calls *)

Lemma updated_disk_path (read : string -> field11) (disks : list diskstat_t) :
  forall dsp, In dsp (map (updated_disk read) disks) ->
              exists dsp0, In dsp0 disks /\ path dsp = path dsp0.
Proof.
  intros dsp Hin. apply in_map_iff in Hin. destruct Hin as (dsp0 & <- & Hin0).
  exists dsp0. split; [exact Hin0 | reflexivity].
Qed.

(** X9.  Of two consecutive calls of [get_disks_monitored], the second
    reports for every disk the increase of its counter between the two
    reads, modulo 2^32, over the seconds between the two calls (at least 1):
    what was recorded before the first call plays no part. *)
Theorem get_disks_monitored_twice
    (read1 read2 : string -> field11) (t1 t2 : Z) (st : disks_state) :
  disks_monitored st <> [] ->
  (forall dsp, In dsp (disks_monitored st) ->
     (exists c, read1 (path dsp) = Counter c) /\
     (exists c, read2 (path dsp) = Counter c)) ->
  t1 - prev_now st < 2 ^ 32 -> t2 - t1 < 2 ^ 32 ->
  exists shown1 st1,
    get_disks_monitored read1 t1 st = Ret (shown1, st1) /\
    get_disks_monitored read2 t2 st1
      = Ret (stringify
               ("; diskusage"%string
                  :: map (fun dsp =>
                            (name dsp ++ ":"
                               ++ decimal (rate_between read1 read2 t1 t2 dsp))
                            %string)
                       (disks_monitored st)),
             {| disks_monitored := map (updated_disk read2) (disks_monitored st);
                prev_now := t2 |}).
Proof.
  intros Hne Hread Hdt1 Hdt2.
  unfold get_disks_monitored at 1.
  destruct (disks_monitored st) as [|dsp rest] eqn:Hd; [contradiction|].
  rewrite scan_disks_rates; [|intros d Hin; apply Hread; exact Hin | exact Hdt1].
  cbn [bind fst snd]. do 2 eexists. split; [reflexivity|].
  unfold get_disks_monitored. cbn [disks_monitored prev_now].
  set (disks := dsp :: rest) in *.
  destruct (map (updated_disk read1) disks) as [|d1 r1] eqn:Hm;
    [discriminate Hm|].
  rewrite <- Hm.
  rewrite scan_disks_rates; [| | exact Hdt2].
  2: { intros d Hin.
       destruct (updated_disk_path read1 disks d Hin) as (d0 & Hin0 & Hp).
       rewrite Hp. apply Hread. exact Hin0. }
  cbn [bind fst snd]. rewrite !map_map. reflexivity.
Qed.

Lemma get_disks_monitored_twice_witness :
  exists shown1 st1,
    get_disks_monitored read_sda_sdb 1700000010 disks_sda_sdb
      = Ret (shown1, st1) /\
    get_disks_monitored read_sda_sdb_later 1700000020 st1
      = Ret ("; diskusage sda:200 sdb:0"%string,
             {| disks_monitored :=
                  [ {| path := "/sys/block/sda/stat"; name := "sda";
                       prev_time_in_queue := 2100 |};
                    {| path := "/sys/block/sdb/stat"; name := "sdb";
                       prev_time_in_queue := 65000 |} ];
                prev_now := 1700000020 |}).
Proof.
  destruct (get_disks_monitored_twice read_sda_sdb read_sda_sdb_later
              1700000010 1700000020 disks_sda_sdb)
    as (shown1 & st1 & H1 & H2).
  - discriminate.
  - intros dsp [H | [H | []]]; subst dsp; split; eexists; reflexivity.
  - reflexivity.
  - reflexivity.
  - exists shown1, st1. split; [exact H1 | exact H2].
Defined.

(** ** The CPU counters *)

Lemma sum_of_nonneg (l : list Z) :
  Forall (fun f => 0 <= f) l -> 0 <= sum_of l.
Proof.
  induction 1 as [|a l Ha Hl IH]; unfold sum_of in *; cbn [fold_right]; lia.
Qed.

Lemma nth_le_sum (l : list Z) (k : nat) :
  Forall (fun f => 0 <= f) l -> (k < length l)%nat ->
  0 <= nth k l 0 <= sum_of l.
Proof.
  intros Hpos. revert k. induction Hpos as [|a l Ha Hl IH]; intros k Hk;
    [cbn in Hk; lia|].
  pose proof (sum_of_nonneg l Hl) as Hs.
  unfold sum_of in *. cbn [fold_right].
  destruct k as [|k]; cbn [nth]; [lia|].
  cbn [length] in Hk. specialize (IH k). lia.
Qed.

(** The field loop: the count of fields, their sum, and the fourth of them
    if the loop passes it. *)
Lemma sum_fields_spec (fields : list Z) :
  forall fldnum sum_ticks idle_ticks,
    Forall (fun f => 0 <= f) fields ->
    0 <= sum_ticks -> sum_ticks + sum_of fields < 2 ^ 64 ->
    sum_fields fields fldnum sum_ticks idle_ticks
      = (fldnum + Z.of_nat (length fields),
         sum_ticks + sum_of fields,
         if (fldnum <=? 4) && (4 <? fldnum + Z.of_nat (length fields))
         then nth (Z.to_nat (4 - fldnum)) fields 0
         else idle_ticks).
Proof.
  induction fields as [|f rest IH]; intros fldnum s idle Hpos Hs Hfit.
  - cbn [sum_fields length]. unfold sum_of. cbn [fold_right].
    rewrite !Z.add_0_r.
    destruct (Z.leb_spec fldnum 4); destruct (Z.ltb_spec 4 fldnum);
      cbn [andb]; try reflexivity; lia.
  - inversion Hpos as [|f' r' Hf Hrest]; subst.
    pose proof (sum_of_nonneg rest Hrest) as Hsum.
    assert (Hcons : sum_of (f :: rest) = f + sum_of rest) by reflexivity.
    rewrite Hcons in *. cbn [sum_fields].
    rewrite (u64_small (s + f)) by lia.
    rewrite IH by (try assumption; lia).
    replace (fldnum + 1 + Z.of_nat (length rest))
      with (fldnum + Z.of_nat (length (f :: rest)))
      by (cbn [length]; lia).
    f_equal; [f_equal; lia|].
    destruct (Z.eqb_spec fldnum 4) as [-> | Hne].
    + destruct (Z.ltb_spec 4 (4 + Z.of_nat (length (f :: rest))));
        [reflexivity | cbn [length] in *; lia].
    + destruct (Z.leb_spec (fldnum + 1) 4); destruct (Z.leb_spec fldnum 4);
        cbn [andb]; try reflexivity; try lia.
      destruct (4 <? fldnum + Z.of_nat (length (f :: rest))); [|reflexivity].
      replace (Z.to_nat (4 - fldnum)) with (S (Z.to_nat (4 - (fldnum + 1))))
        by lia.
      reflexivity.
Qed.

(** X10.  Of the first line of [/proc/stat], [get_cumulative_cpu_stats]
    returns the sum of all numeric fields as the total and that sum less the
    fourth field, the idle ticks, as the active ticks, while the sum fits 64
    bits; with fewer than four numeric fields it is fatal. *)
Theorem get_cumulative_cpu_stats_sum (fields : list Z) :
  Forall (fun f => 0 <= f) fields ->
  sum_of fields < 2 ^ 64 ->
  get_cumulative_cpu_stats fields
    = if (length fields <? 4)%nat
      then Exit 1 "first line too few fields"
      else Ret (sum_of fields - nth 3 fields 0, sum_of fields).
Proof.
  intros Hpos Hfit. unfold get_cumulative_cpu_stats.
  rewrite sum_fields_spec by (try assumption; lia).
  rewrite Z.add_0_l. change (1 <=? 4) with true. cbn [andb].
  destruct (Nat.ltb_spec (length fields) 4) as [Hshort | Hlong].
  - destruct (Z.ltb_spec (1 + Z.of_nat (length fields)) 5); [reflexivity | lia].
  - destruct (Z.ltb_spec (1 + Z.of_nat (length fields)) 5); [lia|].
    destruct (Z.ltb_spec 4 (1 + Z.of_nat (length fields))); [|lia].
    pose proof (nth_le_sum fields 3 Hpos) as Hidle.
    change (Z.to_nat (4 - 1)) with 3%nat.
    rewrite u64_small by lia. reflexivity.
Qed.

Lemma get_cumulative_cpu_stats_sum_witness :
  get_cumulative_cpu_stats [100; 0; 50; 800; 20; 0; 5; 0; 0; 0]
    = Ret (175, 975) /\
  get_cumulative_cpu_stats [100; 0; 50] = Exit 1 "first line too few fields".
Proof.
  split.
  - refine (get_cumulative_cpu_stats_sum
              [100; 0; 50; 800; 20; 0; 5; 0; 0; 0] _ _).
    + repeat constructor; lia.
    + reflexivity.
  - refine (get_cumulative_cpu_stats_sum [100; 0; 50] _ _).
    + repeat constructor; lia.
    + reflexivity.
Defined.

(** X11.  While the counters read stay below the ones recorded, every call
    of [read_cpuload] returns 0 and the recorded counters stay as they are:
    after the kernel's counters start again from a lower value, the load
    reads 0 until they pass the old baseline. *)
Theorem read_cpuload_after_shrink (st : cpu_prev) (reads : list (Z * Z)) :
  Forall (fun r => fst r < prev_cpu_active st \/ snd r < prev_cpu_total st)
         reads ->
  read_cpuload_calls st reads = (repeat 0%float (length reads), st).
Proof.
  induction 1 as [|[active total] more Hr Hmore IH];
    cbn [read_cpuload_calls length repeat]; [reflexivity|].
  cbn [fst snd] in Hr.
  assert (Hone : read_cpuload st active total
                 = {| cl_load := 0%float;
                      cl_diag := cl_diag (read_cpuload st active total);
                      cl_prev := st |}).
  { unfold read_cpuload.
    destruct (active <? prev_cpu_active st) eqn:Ha; [reflexivity|].
    destruct (total <? prev_cpu_total st) eqn:Ht; [reflexivity|].
    apply Z.ltb_ge in Ha, Ht. lia. }
  rewrite Hone. cbn [cl_prev cl_load]. rewrite IH. reflexivity.
Qed.

Lemma read_cpuload_after_shrink_witness :
  read_cpuload_calls {| prev_cpu_active := 5000; prev_cpu_total := 90000 |}
      [(10, 40); (300, 1000); (4999, 95000)]
    = ([0%float; 0%float; 0%float],
       {| prev_cpu_active := 5000; prev_cpu_total := 90000 |}).
Proof.
  refine (read_cpuload_after_shrink
            {| prev_cpu_active := 5000; prev_cpu_total := 90000 |}
            [(10, 40); (300, 1000); (4999, 95000)] _).
  repeat constructor; cbn; lia.
Defined.

(** ** Memory pressure switched off *)

(** X12.  With the threshold [-u 0] the memory pressure probe does nothing:
    whatever the system, every call returns 0 without any discovery and
    without the note, and the memory pressure term of the load predicate is
    false. *)
Theorem read_mempres_switched_off
    (cfg : settings) (env : cpuset_env) (reads : list (Z * float))
    (st : mempres_state) (lavg cpu_load mem_load : float) :
  val_u cfg = 0 ->
  read_mempres_calls cfg env reads st = Ret (repeat 0 (length reads), st) /\
  system_is_loaded cfg lavg cpu_load mem_load 0
    = other_signals_loaded cfg lavg cpu_load mem_load.
Proof.
  intros Hu. split.
  - induction reads as [|[nread value] more IH]; [reflexivity|].
    cbn [read_mempres_calls]. unfold read_mempres. rewrite Hu.
    cbn [Z.eqb bind fst snd]. rewrite IH. reflexivity.
  - unfold system_is_loaded, other_signals_loaded. rewrite Hu.
    apply orb_false_r.
Qed.

Lemma read_mempres_switched_off_witness :
  read_mempres_calls
      {| val_t := 10%float; val_p := 5%float; val_c := 80%float;
         val_m := 80%float; val_u := 0; val_q := 100; val_b := 100;
         val_r := 100; val_n := 10; flag_C := true; flag_M := false;
         flag_B := false; szcmdlinebuf := 48; ncpus := 1 |}
      no_cpuset_env [(0, 0%float); (0, 0%float)] mempres_init
    = Ret ([0; 0], mempres_init).
Proof.
  refine (proj1 (read_mempres_switched_off _ no_cpuset_env
                   [(0, 0%float); (0, 0%float)] mempres_init 0 0 0 _)).
  reflexivity.
Defined.

(** ** The lines of the table *)

Lemma c_string_cut (l r : list ascii) :
  (length (c_string (l ++ NUL :: r)) <= length l)%nat.
Proof.
  induction l as [|c l IH]; cbn [app c_string length].
  - cbn. lia.
  - destruct (Ascii.eqb c NUL); cbn [length]; lia.
Qed.

Lemma get_cmdline_fits (cfg : settings) (buf : list ascii) (r : cmdline_read) :
  2 <= szcmdlinebuf cfg ->
  length buf = Z.to_nat (szcmdlinebuf cfg) ->
  read_fits cfg r ->
  exists out,
    get_cmdline cfg buf r = Ret out /\
    length out = Z.to_nat (szcmdlinebuf cfg) /\
    (length (c_string out) <= Z.to_nat (szcmdlinebuf cfg) - 1)%nat.
Proof.
  intros HW Hbuf Hfit. destruct r as [|cnt data]; [contradiction|].
  destruct Hfit as [Hcnt Hdata].
  rewrite get_cmdline_returns by lia.
  eexists. split; [reflexivity|].
  split; [rewrite poke_length, blank_nuls_length, store_bytes_same_length;
          exact Hbuf|].
  rewrite poke_firstn
    by (rewrite blank_nuls_length, store_bytes_same_length; lia).
  eapply Nat.le_trans; [apply c_string_cut|].
  rewrite length_firstn. lia.
Qed.

(** X13.  When the cmdline file of every row opens, the table is printed
    whole: every line shows the pid of its row, and a command line of at
    most [szcmdlinebuf - 1] characters, whatever the files hold and whether
    or not their reads succeed; the one buffer keeps its size from line to
    line and no store leaves it. *)
Theorem hog_lines_width
    (cfg : settings) (latest : list task_usage)
    (cmdline_of : Z -> cmdline_read) (rows : list join_on_pid_t) :
  2 <= szcmdlinebuf cfg ->
  (forall p, read_fits cfg (cmdline_of p)) ->
  forall cmdlinebuf,
    length cmdlinebuf = Z.to_nat (szcmdlinebuf cfg) ->
    exists lines,
      hog_lines cfg latest cmdline_of cmdlinebuf rows = Ret lines /\
      map hl_pid lines = map (fun jp => PID latest (jp_j jp)) rows /\
      Forall (fun hl => (length (hl_cmdline hl)
                         <= Z.to_nat (szcmdlinebuf cfg) - 1)%nat)
             lines.
Proof.
  intros HW Hfit. induction rows as [|jp rest IH]; intros buf Hbuf;
    cbn [hog_lines map].
  - exists []. repeat split; constructor.
  - destruct (get_cmdline_fits cfg buf (cmdline_of (PID latest (jp_j jp)))
                HW Hbuf (Hfit _)) as (out & Hout & Hlen & Hstr).
    destruct (IH _ Hlen) as (lines & Hlines & Hpids & Hwidth).
    rewrite Hout. cbn [bind]. rewrite Hlines. cbn [bind].
    eexists. split; [reflexivity|].
    split; [cbn [map hl_pid]; rewrite Hpids; reflexivity|].
    constructor; [|exact Hwidth].
    cbn [hl_cmdline]. rewrite length_firstn. lia.
Qed.

Lemma hog_lines_width_witness :
  exists lines,
    hog_lines (settings_L 10) five_latest cmdline_of_123 stale_buffer
      [joined 3 999 true; joined 1 200 true; joined 0 50 true] = Ret lines /\
    map hl_cmdline lines
      = [list_ascii_of_string "a.out -v"; []; []] /\
    Forall (fun hl => (length (hl_cmdline hl) <= 9)%nat) lines.
Proof.
  destruct (hog_lines_width (settings_L 10) five_latest cmdline_of_123
              [joined 3 999 true; joined 1 200 true; joined 0 50 true])
    with (cmdlinebuf := stale_buffer)
    as (lines & Hlines & _ & Hwidth).
  - cbn. lia.
  - intros p. unfold cmdline_of_123.
    destruct (p =? 14); [cbn; split; [lia | reflexivity]|].
    destruct (p =? 12); cbn; split; try lia; reflexivity.
  - reflexivity.
  - exists lines. split; [exact Hlines|]. split; [|exact Hwidth].
    assert (Hrun : hog_lines (settings_L 10) five_latest cmdline_of_123
                     stale_buffer
                     [joined 3 999 true; joined 1 200 true; joined 0 50 true]
                   = Ret lines) by exact Hlines.
    vm_compute in Hrun. injection Hrun as <-. reflexivity.
Defined.

(** ** Reading text *)

Lemma char_code_newline (c : ascii) :
  (char_code c =? 10) = Ascii.eqb c newline.
Proof.
  destruct (Ascii.eqb_spec c newline) as [-> | Hne]; [reflexivity|].
  apply Z.eqb_neq. intros H. apply Hne.
  rewrite <- (ascii_nat_embedding c).
  unfold char_code in H. replace (nat_of_ascii c) with 10%nat by lia.
  reflexivity.
Qed.

Lemma char_code_pos (c : ascii) : c <> NUL -> 0 < char_code c.
Proof.
  intros Hne. unfold char_code.
  destruct (nat_of_ascii c) as [|n] eqn:Hn; [|lia].
  exfalso. apply Hne. rewrite <- (ascii_nat_embedding c), Hn. reflexivity.
Qed.

Lemma skip_line_no_newline (l rest : list ascii) :
  ~ In newline l -> skip_line (l ++ newline :: rest) = rest.
Proof.
  induction l as [|c l IH]; intros Hnl; cbn [app skip_line].
  - rewrite char_code_newline, Ascii.eqb_refl. reflexivity.
  - rewrite char_code_newline.
    destruct (Ascii.eqb_spec c newline) as [-> | Hne];
      [exfalso; apply Hnl; left; reflexivity|].
    apply IH. intros H. apply Hnl. right. exact H.
Qed.

(** The first loop of [flgets] on a line that has its newline. *)
Lemma flgets_fill_line (l rest : list ascii) :
  ~ In newline l ->
  forall room c stored,
    flgets_fill room (l ++ newline :: rest) c stored
      = if (length l <? room)%nat
        then AtNewline (stored ++ l) rest
        else Stopped (stored ++ firstn room l)
               (match room with
                | O => c
                | S k => char_code (nth k l NUL)
                end)
               (skipn room l ++ newline :: rest).
Proof.
  induction l as [|ch l IH]; intros Hnl room c stored.
  - destruct room as [|room]; cbn [flgets_fill app length firstn skipn].
    + rewrite app_nil_r. reflexivity.
    + rewrite char_code_newline, Ascii.eqb_refl, app_nil_r. reflexivity.
  - destruct room as [|room]; cbn [flgets_fill app length firstn skipn].
    + rewrite app_nil_r. reflexivity.
    + rewrite char_code_newline.
      destruct (Ascii.eqb_spec ch newline) as [-> | Hne];
        [exfalso; apply Hnl; left; reflexivity|].
      rewrite IH by (intros H; apply Hnl; right; exact H).
      change (S (length l) <? S room)%nat with (length l <? room)%nat.
      rewrite <- !app_assoc. cbn [app].
      destruct (length l <? room)%nat eqn:Hlt; [reflexivity|].
      destruct room as [|k]; reflexivity.
Qed.

(** [flgets] on a line that has its newline. *)
Lemma flgets_line (buflen : Z) (l rest : list ascii) :
  2 <= buflen -> ~ In newline l -> ~ In NUL l ->
  flgets buflen (l ++ newline :: rest)
    = (Some (firstn (Z.to_nat (buflen - 1)) l), rest).
Proof.
  intros Hlen Hnl Hnul. unfold flgets.
  rewrite (flgets_fill_line l rest Hnl). cbn [app].
  destruct (Nat.ltb_spec (length l) (Z.to_nat (buflen - 1))) as [Hlt | Hge].
  - rewrite firstn_all2 by lia. reflexivity.
  - destruct (Z.to_nat (buflen - 1)) as [|k] eqn:Hroom; [lia|].
    assert (Hc : 0 < char_code (nth k l NUL)).
    { apply char_code_pos. intros Heq. apply Hnul. rewrite <- Heq.
      apply nth_In. lia. }
    destruct (char_code (nth k l NUL) <? 0) eqn:Hneg;
      [apply Z.ltb_lt in Hneg; lia|].
    cbn [andb]. destruct (0 <? char_code (nth k l NUL)) eqn:Hpos;
      [|apply Z.ltb_ge in Hpos; lia].
    rewrite skip_line_no_newline; [reflexivity|].
    intros Hin. apply Hnl.
    rewrite <- (firstn_skipn (S k) l). apply in_or_app. right. exact Hin.
Qed.

(** X14.  [flgets] returns a line up to its newline, cut to [buflen - 1]
    bytes when it is longer, and leaves the file at the start of the next
    line: what does not fit is read and dropped; at the end of the file it
    returns NULL (the line holding no NUL byte, the buffer at least 2
    bytes). *)
Theorem flgets_one_line (buflen : Z) (l rest : list ascii) :
  2 <= buflen -> ~ In newline l -> ~ In NUL l ->
  flgets buflen (l ++ newline :: rest)
    = (Some (firstn (Z.to_nat (buflen - 1)) l), rest)
  /\ flgets buflen [] = (None, []).
Proof.
  intros Hlen Hnl Hnul. split.
  - apply flgets_line; assumption.
  - unfold flgets.
    destruct (Z.to_nat (buflen - 1)) as [|k] eqn:Hroom; [lia|].
    reflexivity.
Qed.

Lemma flgets_one_line_witness :
  flgets 8 (list_ascii_of_string "MemTotal:  16 kB" ++ newline
              :: list_ascii_of_string "MemFree: 1 kB")
    = (Some (list_ascii_of_string "MemTota"),
       list_ascii_of_string "MemFree: 1 kB").
Proof.
  refine (proj1 (flgets_one_line 8 (list_ascii_of_string "MemTotal:  16 kB")
                   (list_ascii_of_string "MemFree: 1 kB") _ _ _)).
  - lia.
  - cbn. intros H. repeat (destruct H as [H | H]; [discriminate H|]). exact H.
  - cbn. intros H. repeat (destruct H as [H | H]; [discriminate H|]). exact H.
Defined.

(** X15.  Reading a file with [flgets] until it returns NULL gives the lines
    of the file in order, each cut to [buflen - 1] bytes, and no other. *)
Theorem flgets_lines_of_text (buflen : Z) (lines : list (list ascii)) :
  2 <= buflen ->
  Forall (fun l => ~ In newline l /\ ~ In NUL l) lines ->
  forall bound, (length lines < bound)%nat ->
    flgets_lines bound buflen (text_of_lines lines)
      = map (firstn (Z.to_nat (buflen - 1))) lines.
Proof.
  intros Hlen Hlines. induction Hlines as [|l more [Hnl Hnul] Hmore IH];
    intros bound Hb.
  - destruct bound as [|bound]; [cbn in Hb; lia|].
    cbn [text_of_lines map concat flgets_lines]. unfold flgets.
    destruct (Z.to_nat (buflen - 1)) as [|k] eqn:Hroom; [lia|].
    reflexivity.
  - destruct bound as [|bound]; [cbn in Hb; lia|].
    cbn [length] in Hb.
    unfold text_of_lines. cbn [map concat flgets_lines].
    rewrite <- app_assoc. cbn [app].
    rewrite flgets_line by assumption.
    fold (text_of_lines more). rewrite IH by lia. reflexivity.
Qed.

Lemma flgets_lines_of_text_witness :
  flgets_lines 5 6
      (text_of_lines [list_ascii_of_string "proc /proc proc";
                      list_ascii_of_string "";
                      list_ascii_of_string "tmp"])
    = [list_ascii_of_string "proc "; list_ascii_of_string "";
       list_ascii_of_string "tmp"].
Proof.
  refine (flgets_lines_of_text 6 _ _ _ 5%nat _).
  - lia.
  - repeat (apply Forall_cons;
            [split; cbn; intros H;
             repeat (destruct H as [H | H]; [discriminate H|]); exact H|]).
    apply Forall_nil.
  - cbn. lia.
Defined.

Lemma isgraph_not_blank (c : ascii) : isgraph c = true -> is_blank c = false.
Proof.
  unfold isgraph, is_blank. intros H.
  destruct (Ascii.eqb_spec c " "%char) as [-> | _]; [discriminate H|].
  destruct (Ascii.eqb_spec c tab) as [-> | _]; [discriminate H|].
  reflexivity.
Qed.

Lemma isgraph_not_nul (c : ascii) : isgraph c = true -> c <> NUL.
Proof. intros H ->. discriminate H. Qed.

Lemma is_blank_not_nul (c : ascii) : is_blank c = true -> c <> NUL.
Proof. intros H ->. discriminate H. Qed.

Lemma skip_blanks_app (blanks s : list ascii) :
  Forall (fun c => is_blank c = true) blanks ->
  skip_blanks (blanks ++ s) = skip_blanks s.
Proof.
  induction 1 as [|c l Hc Hl IH]; cbn [app skip_blanks]; [reflexivity|].
  rewrite Hc. exact IH.
Qed.

Lemma skipwhitespace_field (blanks fld s : list ascii) :
  Forall (fun c => is_blank c = true) blanks ->
  fld <> [] -> Forall (fun c => isgraph c = true) fld ->
  skipwhitespace (blanks ++ fld ++ s) = Some (fld ++ s).
Proof.
  intros Hb Hne Hg. unfold skipwhitespace. rewrite skip_blanks_app by exact Hb.
  destruct fld as [|c fld]; [contradiction|].
  inversion Hg as [|? ? Hc Hrest]; subst.
  cbn [app skip_blanks]. rewrite (isgraph_not_blank c Hc). cbv beta iota.
  rewrite Hc. reflexivity.
Qed.

Lemma skipfieldchars_field (fld s : list ascii) :
  Forall (fun c => isgraph c = true) fld -> starts_nongraphic s ->
  skipfieldchars (fld ++ s) = (fld, s).
Proof.
  intros Hg Hs. induction Hg as [|c l Hc Hl IH]; cbn [app skipfieldchars].
  - destruct s as [|c s]; cbn [skipfieldchars]; [reflexivity|].
    cbn in Hs. rewrite Hs. reflexivity.
  - rewrite Hc, IH. reflexivity.
Qed.

Lemma getfield_scan_fields (tail : list ascii) :
  skipwhitespace tail = None ->
  forall items, fields_apart items tail ->
  forall n, getfield_scan (S n) (line_of items tail)
              = nth_error (map snd items) n.
Proof.
  intros Htail. induction items as [|[blanks fld] more IH]; intros Hwf n.
  - cbn [line_of map]. cbn [getfield_scan]. rewrite Htail.
    destruct n; reflexivity.
  - destruct Hwf as (Hb & Hne & Hg & Hnext & Hmore).
    cbn [line_of map snd]. cbn [getfield_scan].
    rewrite (skipwhitespace_field _ _ _ Hb Hne Hg).
    rewrite (skipfieldchars_field _ _ Hg Hnext).
    destruct n as [|n]; [reflexivity|].
    cbn [nth_error]. apply IH. exact Hmore.
Qed.

Lemma c_string_no_nul (l : list ascii) : ~ In NUL l -> c_string l = l.
Proof.
  induction l as [|c l IH]; intros Hn; cbn [c_string]; [reflexivity|].
  destruct (Ascii.eqb_spec c NUL) as [-> | _];
    [exfalso; apply Hn; left; reflexivity|].
  rewrite IH; [reflexivity|]. intros H. apply Hn. right. exact H.
Qed.

Lemma line_of_no_nul (tail : list ascii) :
  ~ In NUL tail ->
  forall items, fields_apart items tail -> ~ In NUL (line_of items tail).
Proof.
  intros Htail. induction items as [|[blanks fld] more IH]; intros Hwf;
    cbn [line_of]; [exact Htail|].
  destruct Hwf as (Hb & _ & Hg & _ & Hmore).
  intros Hin. apply in_app_or in Hin. destruct Hin as [Hin | Hin].
  - rewrite Forall_forall in Hb. apply (is_blank_not_nul NUL); auto.
  - apply in_app_or in Hin. destruct Hin as [Hin | Hin].
    + rewrite Forall_forall in Hg. apply (isgraph_not_nul NUL); auto.
    + exact (IH Hmore Hin).
Qed.

(** X16.  [getfield] returns the [n]-th run of graphic characters of a file
    whose fields are set apart by blanks and tabs, counting from 1, and NULL
    when the file has fewer fields; the last byte read is not looked at
    (the file holding fewer than 256 bytes before it, and no NUL). *)
Theorem getfield_nth_field (items : list (list ascii * list ascii))
    (tail : list ascii) (last : ascii) (n : nat) :
  fields_apart items tail -> skipwhitespace tail = None ->
  ~ In NUL tail -> (length (line_of items tail) < 256)%nat ->
  getfield (Bytes (line_of items tail ++ [last])) (S n)
    = Ret (nth_error (map snd items) n).
Proof.
  intros Hwf Htail Hnul Hlen. unfold getfield.
  rewrite firstn_all2 by (rewrite length_app; cbn [length]; lia).
  destruct (line_of items tail ++ [last]) as [|c r] eqn:Hline.
  - apply app_eq_nil in Hline. destruct Hline as [_ Hline]. discriminate.
  - rewrite <- Hline, removelast_last.
    rewrite c_string_no_nul by (apply line_of_no_nul; assumption).
    rewrite getfield_scan_fields by assumption. reflexivity.
Qed.

Lemma getfield_nth_field_witness :
  getfield (Bytes (list_ascii_of_string "4.50 3.20  2.10 1/234 5678"
                     ++ [newline])) 3
    = Ret (Some (list_ascii_of_string "2.10")).
Proof.
  refine (getfield_nth_field
            [([], list_ascii_of_string "4.50");
             (list_ascii_of_string " ", list_ascii_of_string "3.20");
             (list_ascii_of_string "  ", list_ascii_of_string "2.10");
             (list_ascii_of_string " ", list_ascii_of_string "1/234");
             (list_ascii_of_string " ", list_ascii_of_string "5678")]
            [] newline 2 _ _ _ _).
  - cbn. repeat split; try discriminate; repeat constructor.
  - reflexivity.
  - intros H. exact H.
  - cbn. lia.
Defined.

Lemma strchr_first (c : ascii) (pre s : list ascii) :
  ~ In c pre -> strchr (pre ++ c :: s) c = Some (length pre).
Proof.
  induction pre as [|x pre IH]; intros Hn; cbn [app strchr length].
  - rewrite Ascii.eqb_refl. reflexivity.
  - destruct (Ascii.eqb_spec x c) as [-> | _];
      [exfalso; apply Hn; left; reflexivity|].
    rewrite IH; [reflexivity|]. intros H. apply Hn. right. exact H.
Qed.

Lemma strrchr_none (c : ascii) (s : list ascii) :
  ~ In c s -> strrchr s c = None.
Proof.
  induction s as [|x s IH]; intros Hn; cbn [strrchr]; [reflexivity|].
  rewrite IH by (intros H; apply Hn; right; exact H).
  destruct (Ascii.eqb_spec x c) as [-> | _]; [|reflexivity].
  exfalso. apply Hn. left. reflexivity.
Qed.

Lemma strrchr_last (c : ascii) (pre s : list ascii) :
  ~ In c s -> strrchr (pre ++ c :: s) c = Some (length pre).
Proof.
  intros Hn. induction pre as [|x pre IH]; cbn [app strrchr length].
  - rewrite (strrchr_none c s Hn), Ascii.eqb_refl. reflexivity.
  - rewrite IH. reflexivity.
Qed.

(** X17.  The command name that [read_stat_file] takes from a stat line is
    what stands between the first '(' and the last ')' of the line, cut to
    [cmdlen - 1] bytes, so a name that itself holds parentheses or blanks
    is taken whole; the fields after it start two bytes past that last ')'
    (the pid part holding no '(' and the rest of the line no ')'). *)
Theorem cut_stat_line_command (cmdlen : Z)
    (pidtxt comm rest : list ascii) (sep : ascii) :
  ~ In "("%char pidtxt -> ~ In ")"%char (sep :: rest) ->
  cut_stat_line cmdlen (pidtxt ++ "("%char :: comm ++ ")"%char :: sep :: rest)
    = Some (firstn (Z.to_nat (cmdlen - 1)) comm,
            pidtxt ++ "("%char :: comm,
            Some rest).
Proof.
  intros Hopen Hclose. unfold cut_stat_line.
  rewrite (strchr_first "("%char pidtxt _ Hopen).
  replace (pidtxt ++ "("%char :: comm ++ ")"%char :: sep :: rest)
    with ((pidtxt ++ "("%char :: comm) ++ ")"%char :: sep :: rest)
    by (rewrite <- app_assoc; reflexivity).
  rewrite (strrchr_last ")"%char (pidtxt ++ "("%char :: comm) _ Hclose).
  set (a := pidtxt ++ "("%char :: comm).
  assert (Ha : length a = (length pidtxt + 1 + length comm)%nat)
    by (unfold a; rewrite length_app; cbn [length]; lia).
  destruct (Nat.ltb_spec (length pidtxt) (length a)) as [_ | Hge]; [|lia].
  destruct (Nat.leb_spec (length a + 2)
              (length (a ++ ")"%char :: sep :: rest))) as [_ | Hlt];
    [|rewrite length_app in Hlt; cbn [length] in Hlt; lia].
  assert (Hcut : firstn (length a) (a ++ ")"%char :: sep :: rest) = a).
  { rewrite firstn_app, Nat.sub_diag, firstn_all. cbn [firstn].
    apply app_nil_r. }
  rewrite Hcut.
  assert (Hcomm : skipn (S (length pidtxt)) a = comm).
  { unfold a. rewrite skipn_app.
    rewrite skipn_all2 by lia.
    replace (S (length pidtxt) - length pidtxt)%nat with 1%nat by lia.
    reflexivity. }
  rewrite Hcomm.
  assert (Hrest : skipn (length a + 2) (a ++ ")"%char :: sep :: rest) = rest).
  { rewrite skipn_app. rewrite skipn_all2 by lia.
    replace (length a + 2 - length a)%nat with 2%nat by lia. reflexivity. }
  rewrite Hrest. reflexivity.
Qed.

Lemma cut_stat_line_command_witness :
  cut_stat_line 16
      (list_ascii_of_string "4321 (tmux: server (1) x) S 1 4321")
    = Some (list_ascii_of_string "tmux: server (1",
            list_ascii_of_string "4321 (tmux: server (1) x",
            Some (list_ascii_of_string "S 1 4321")).
Proof.
  refine (cut_stat_line_command 16 (list_ascii_of_string "4321 ")
            (list_ascii_of_string "tmux: server (1) x")
            (list_ascii_of_string "S 1 4321") " "%char _ _).
  - cbn. intros H. repeat (destruct H as [H | H]; [discriminate H|]). exact H.
  - cbn. intros H. repeat (destruct H as [H | H]; [discriminate H|]). exact H.
Defined.

(** ** Reading by descriptor or by path *)

Lemma my_pread_calls_broken (ops : file_ops) (st : pread_state)
    (calls : list (Z * Z * Z)) :
  broken_pread st = true ->
  my_pread_calls ops st calls
    = (ds <- reads_by_path ops st calls ;; Ret (ds, st)).
Proof.
  intros Hb. induction calls as [|[[fd count] offset] more IH];
    [reflexivity|].
  cbn [my_pread_calls reads_by_path]. unfold my_pread. rewrite Hb.
  destruct (pread_by_path ops st fd count offset) as [data| |];
    cbn [bind snd fst]; try reflexivity.
  rewrite IH. destruct (reads_by_path ops st more); reflexivity.
Qed.

(** X18.  Once [pread] fails with ESPIPE, that read and every later read
    through [my_pread], whatever its descriptor, is done by opening and
    reading the path stashed for the descriptor; [pread] is not tried
    again, and a read whose descriptor has no stashed path ends the
    program. *)
Theorem my_pread_espipe_switches (ops : file_ops) (st : pread_state)
    (fd count offset : Z) (more : list (Z * Z * Z)) :
  broken_pread st = false ->
  sys_pread ops fd count offset = PreadESPIPE ->
  let broken := {| pread_fds := pread_fds st; broken_pread := true |} in
  my_pread_calls ops st ((fd, count, offset) :: more)
    = (ds <- reads_by_path ops broken ((fd, count, offset) :: more) ;;
       Ret (ds, broken)).
Proof.
  intros Hb Hesp broken.
  cbn [my_pread_calls reads_by_path]. unfold my_pread. rewrite Hb, Hesp.
  fold broken.
  destruct (pread_by_path ops broken fd count offset) as [data| |];
    cbn [bind snd fst]; try reflexivity.
  rewrite (my_pread_calls_broken ops broken more eq_refl).
  destruct (reads_by_path ops broken more); reflexivity.
Qed.

Lemma my_pread_espipe_switches_witness :
  my_pread_calls
      {| sys_pread := fun fd _ _ =>
           if fd =? 3 then PreadESPIPE
           else PreadBytes (list_ascii_of_string "by descriptor");
         sys_open := fun _ => true;
         sys_lseek := fun _ _ => true;
         sys_read := fun p _ _ => Some (list_ascii_of_string p) |}
      {| pread_fds := fun k => if k =? 3 then Some "/proc/loadavg"%string
                               else if k =? 4 then Some "/proc/stat"%string
                               else None;
         broken_pread := false |}
      [(3, 32, 0); (4, 4096, 0); (5, 64, 0)]
    = Exit 1 "pread_fds".
Proof.
  refine (eq_trans (my_pread_espipe_switches _ _ 3 32 0 _ _ _) _);
    reflexivity.
Defined.

(** ** The memory pressure file *)

Lemma scan_mount_fields_later (fields : list string) (mnt : option string) :
  forall fieldnum, 2 <= fieldnum ->
    scan_mount_fields fields fieldnum mnt
      = (mnt, existsb (fun q => String.eqb q "cpuset") fields).
Proof.
  induction fields as [|q rest IH]; intros fieldnum Hf;
    cbn [scan_mount_fields existsb]; [reflexivity|].
  destruct (fieldnum + 1 =? 2) eqn:H2; [apply Z.eqb_eq in H2; lia|].
  destruct (2 <? fieldnum + 1) eqn:Hlt; [|apply Z.ltb_ge in Hlt; lia].
  cbn [andb]. destruct (String.eqb q "cpuset"); [reflexivity|].
  cbn [orb]. apply IH. lia.
Qed.

Lemma scan_mount_fields_line (fields : list string) :
  scan_mount_fields fields 0 None = (nth_error fields 1, cpuset_line fields).
Proof.
  unfold cpuset_line.
  destruct fields as [|dev [|mnt rest]]; cbn [scan_mount_fields]; try reflexivity.
  change (0 + 1 =? 2) with false. change (0 + 1 + 1 =? 2) with true.
  change (2 <? 0 + 1) with false. cbv beta iota. cbn [andb].
  rewrite scan_mount_fields_later by lia. reflexivity.
Qed.

(** X19.  The cpuset mount point is the second field of the first line of the
    mount table that has the word cpuset among its fields from the third on;
    a cpuset named only in the first or in the second field does not count,
    and with no such line there is no mount point. *)
Theorem find_cpuset_mount_first_line (lines : list (list string)) :
  find_cpuset_mount lines
    = match find cpuset_line lines with
      | Some fields => nth_error fields 1
      | None => None
      end.
Proof.
  induction lines as [|fields rest IH]; cbn [find_cpuset_mount find];
    [reflexivity|].
  rewrite scan_mount_fields_line.
  destruct (cpuset_line fields) eqn:Hline.
  - destruct (nth_error fields 1) as [mnt|] eqn:Hmnt; [reflexivity|].
    exfalso. unfold cpuset_line in Hline.
    destruct fields as [|dev [|m more]]; cbn in Hline, Hmnt; discriminate.
  - destruct (nth_error fields 1); exact IH.
Qed.

Lemma read_mempres_open (cfg : settings) (env : cpuset_env)
    (reads : list (Z * float)) (st : mempres_state) :
  val_u cfg <> 0 ->
  rm_initialized st = true -> 0 <= rm_cmp_fd st ->
  Forall (fun rd => 1 <= fst rd) reads ->
  read_mempres_calls cfg env reads st
    = Ret (map (fun rd => int_of_double (snd rd)) reads, st).
Proof.
  intros Hu Hinit Hfd Hreads.
  induction Hreads as [|[nread value] more Hr Hmore IH]; [reflexivity|].
  cbn [read_mempres_calls map]. unfold read_mempres.
  destruct (val_u cfg =? 0) eqn:Hz; [apply Z.eqb_eq in Hz; contradiction|].
  rewrite Hinit. cbn [bind].
  destruct (rm_cmp_fd st <? 0) eqn:Hneg; [apply Z.ltb_lt in Hneg; lia|].
  cbn [fst] in Hr.
  destruct (nread <? 1) eqn:Hn; [apply Z.ltb_lt in Hn; lia|].
  cbn [bind snd fst]. rewrite IH. reflexivity.
Qed.

Lemma probe_mppaths_file (env : cpuset_env) (fname : string) :
  pressure_file env = Some fname ->
  0 <= pressure_fd env fname < MAX_PREAD_FD ->
  probe_mppaths env mppaths = Ret (Some (pressure_fd env fname)).
Proof.
  unfold pressure_file, mppaths. intros Hfile Hfd. cbn [probe_mppaths].
  destruct (mpe_enabled env "memory_pressure_enabled").
  - injection Hfile as <-.
    destruct (pressure_fd env "memory_pressure" <? 0) eqn:Hneg;
      [apply Z.ltb_lt in Hneg; lia|].
    destruct (MAX_PREAD_FD <=? pressure_fd env "memory_pressure") eqn:Hbig;
      [apply Z.leb_le in Hbig; lia|]. reflexivity.
  - destruct (mpe_enabled env "cpuset.memory_pressure_enabled");
      [|discriminate Hfile].
    injection Hfile as <-.
    destruct (pressure_fd env "cpuset.memory_pressure" <? 0) eqn:Hneg;
      [apply Z.ltb_lt in Hneg; lia|].
    destruct (MAX_PREAD_FD <=? pressure_fd env "cpuset.memory_pressure")
      eqn:Hbig; [apply Z.leb_le in Hbig; lia|]. reflexivity.
Qed.

(** The first call of [read_mempres] finds the pressure file, and every call
    converts what it reads. *)
Lemma read_mempres_converts (cfg : settings) (env : cpuset_env)
    (mnt fname : string) (rd : Z * float) (more : list (Z * float)) :
  val_u cfg <> 0 ->
  mounts_open env = true ->
  find_cpuset_mount (mounts env) = Some mnt ->
  0 <= mount_dir_fd env mnt ->
  pressure_file env = Some fname ->
  0 <= pressure_fd env fname < MAX_PREAD_FD ->
  Forall (fun rd => 1 <= fst rd) (rd :: more) ->
  read_mempres_calls cfg env (rd :: more) mempres_init
    = Ret (map (fun rd => int_of_double (snd rd)) (rd :: more),
           {| mpfd_initialized := true; mpfd_cmp_fd := pressure_fd env fname;
              rm_initialized := true; rm_cmp_fd := pressure_fd env fname;
              notes := [] |}).
Proof.
  intros Hu Hopen Hmnt Hdir Hfile Hfd Hreads.
  inversion Hreads as [|? ? Hr Hmore]; subst.
  destruct rd as [nread value]. cbn [fst] in Hr.
  cbn [read_mempres_calls map]. unfold read_mempres.
  destruct (val_u cfg =? 0) eqn:Hz; [apply Z.eqb_eq in Hz; contradiction|].
  unfold memory_pressure_fd.
  cbn [mempres_init rm_initialized mpfd_initialized mpfd_cmp_fd rm_cmp_fd notes].
  rewrite Hopen, Hmnt. cbn [negb].
  destruct (mount_dir_fd env mnt <? 0) eqn:Hneg;
    [apply Z.ltb_lt in Hneg; lia|].
  rewrite (probe_mppaths_file env fname Hfile Hfd).
  cbn [bind fst snd mpfd_initialized mpfd_cmp_fd rm_cmp_fd notes].
  destruct (pressure_fd env fname <? 0) eqn:Hneg2;
    [apply Z.ltb_lt in Hneg2; lia|].
  destruct (nread <? 1) eqn:Hn; [apply Z.ltb_lt in Hn; lia|].
  cbn [bind snd fst].
  rewrite read_mempres_open; try assumption; try reflexivity.
  cbn [rm_cmp_fd]. lia.
Qed.

(** X20.  Where a cpuset is mounted and one of the two enabled flags reads 1,
    [read_mempres] opens the pressure file once, on its first call (the file
    with the old name when the old flag is set, else the one with the
    [cpuset.] prefix), prints no note, and every call returns the number
    read from that file, cut towards zero (the threshold not 0, every read
    giving at least one byte and a number that fits an [int]). *)
Theorem read_mempres_reads_file (cfg : settings) (env : cpuset_env)
    (mnt fname : string) (rd : Z * float) (more : list (Z * float)) :
  val_u cfg <> 0 ->
  mounts_open env = true ->
  find_cpuset_mount (mounts env) = Some mnt ->
  0 <= mount_dir_fd env mnt ->
  pressure_file env = Some fname ->
  0 <= pressure_fd env fname < MAX_PREAD_FD ->
  Forall (fun rd => 1 <= fst rd /\ double_fits_int (snd rd) = true)
         (rd :: more) ->
  read_mempres_calls cfg env (rd :: more) mempres_init
    = Ret (map (fun rd => trunc_double (snd rd)) (rd :: more),
           {| mpfd_initialized := true; mpfd_cmp_fd := pressure_fd env fname;
              rm_initialized := true; rm_cmp_fd := pressure_fd env fname;
              notes := [] |}).
Proof.
  intros Hu Hopen Hmnt Hdir Hfile Hfd Hreads.
  rewrite (read_mempres_converts cfg env mnt fname rd more);
    try assumption.
  - f_equal. f_equal. apply map_ext_in. intros r Hr.
    rewrite Forall_forall in Hreads.
    apply int_of_double_fits. exact (proj2 (Hreads r Hr)).
  - revert Hreads. apply Forall_impl. intros r [H _]. exact H.
Qed.

Lemma read_mempres_reads_file_witness :
  read_mempres_calls default_settings cpuset_env_old
      [(3, 12%float); (4, 250%float)] mempres_init
    = Ret ([12; 250],
           {| mpfd_initialized := true; mpfd_cmp_fd := 6;
              rm_initialized := true; rm_cmp_fd := 6; notes := [] |}).
Proof.
  refine (read_mempres_reads_file default_settings cpuset_env_old
            "/dev/cpuset" "memory_pressure" (3, 12%float) [(4, 250%float)]
            _ _ _ _ _ _ _).
  - discriminate.
  - reflexivity.
  - reflexivity.
  - cbn. lia.
  - reflexivity.
  - cbn. unfold MAX_PREAD_FD. lia.
  - repeat (apply Forall_cons; [split; [cbn; lia | reflexivity]|]).
    apply Forall_nil.
Defined.

(** ** The options *)

Lemma skip_delim_token (d c : ascii) (s : list ascii) :
  c <> d -> skip_delim d (c :: s) = c :: s.
Proof.
  intros Hne. cbn [skip_delim].
  destruct (Ascii.eqb_spec c d); [contradiction|reflexivity].
Qed.

Lemma take_token_delim (d : ascii) (tok rest : list ascii) :
  ~ In d tok -> take_token d (tok ++ d :: rest) = (tok, rest).
Proof.
  induction tok as [|c tok IH]; intros Hn; cbn [app take_token].
  - rewrite Ascii.eqb_refl. reflexivity.
  - destruct (Ascii.eqb_spec c d) as [-> | _];
      [exfalso; apply Hn; left; reflexivity|].
    rewrite IH; [reflexivity|]. intros H. apply Hn. right. exact H.
Qed.

Lemma take_token_end (d : ascii) (tok : list ascii) :
  ~ In d tok -> take_token d tok = (tok, []).
Proof.
  induction tok as [|c tok IH]; intros Hn; cbn [take_token]; [reflexivity|].
  destruct (Ascii.eqb_spec c d) as [-> | _];
    [exfalso; apply Hn; left; reflexivity|].
  rewrite IH; [reflexivity|]. intros H. apply Hn. right. exact H.
Qed.

Lemma strtok_token (d : ascii) (tok tail : list ascii) :
  tok <> [] -> ~ In d tok ->
  tail = [] \/ (exists junk, tail = d :: junk) ->
  exists saved, strtok d (tok ++ tail) = Some (tok, saved)
                /\ (tail = [] -> saved = [])
                /\ (forall junk, tail = d :: junk -> saved = junk).
Proof.
  intros Hne Hn Htail. unfold strtok.
  destruct tok as [|c tok]; [contradiction|].
  assert (Hc : c <> d) by (intros ->; apply Hn; left; reflexivity).
  cbn [app]. rewrite (skip_delim_token d c _ Hc).
  change (c :: tok ++ tail) with ((c :: tok) ++ tail).
  destruct Htail as [-> | [junk ->]].
  - exists []. rewrite app_nil_r, (take_token_end d _ Hn).
    split; [reflexivity|]. split; [reflexivity|discriminate].
  - exists junk. rewrite (take_token_delim d _ junk Hn).
    split; [reflexivity|]. split; [discriminate|]. congruence.
Qed.

(** X21.  [-d path,name] puts one disk at the end of the disks monitored,
    with that path and name and a previous counter of 0; what follows a
    second comma is dropped (path and name not empty and without comma). *)
Theorem monitor_disk_adds (dskstatpath dskname tail : list ascii)
    (disks : list diskstat_t) :
  dskstatpath <> [] -> dskname <> [] ->
  ~ In ","%char dskstatpath -> ~ In ","%char dskname ->
  tail = [] \/ (exists junk, tail = ","%char :: junk) ->
  monitor_disk (dskstatpath ++ ","%char :: dskname ++ tail) disks
    = Ret (disks ++ [ {| path := string_of_list_ascii dskstatpath;
                         name := string_of_list_ascii dskname;
                         prev_time_in_queue := 0 |} ]).
Proof.
  intros Hp Hn Hpc Hnc Htail. unfold monitor_disk.
  destruct (strtok_token ","%char dskstatpath
              (","%char :: dskname ++ tail) Hp Hpc)
    as (saved & Htok & _ & Hsaved); [right; eexists; reflexivity|].
  rewrite Htok, (Hsaved _ eq_refl).
  destruct (strtok_token ","%char dskname tail Hn Hnc Htail)
    as (saved2 & Htok2 & _).
  rewrite Htok2. reflexivity.
Qed.

Lemma monitor_disk_adds_witness :
  monitor_disk (list_ascii_of_string "/sys/block/sda/stat,sda,x") []
    = Ret [ {| path := "/sys/block/sda/stat"; name := "sda";
               prev_time_in_queue := 0 |} ].
Proof.
  refine (monitor_disk_adds (list_ascii_of_string "/sys/block/sda/stat")
            (list_ascii_of_string "sda") (list_ascii_of_string ",x") []
            _ _ _ _ _).
  - discriminate.
  - discriminate.
  - cbn. intros H. repeat (destruct H as [H | H]; [discriminate H|]). exact H.
  - cbn. intros H. repeat (destruct H as [H | H]; [discriminate H|]). exact H.
  - right. exists (list_ascii_of_string "x"). reflexivity.
Defined.

Lemma initial_options_in_range :
  settings_in_range (opt_settings initial_options).
Proof. unfold settings_in_range. cbn. repeat split; try lia; reflexivity. Qed.

Lemma apply_option_in_range (o o' : options) (a : option_arg) :
  settings_in_range (opt_settings o) ->
  apply_option o a = Ret o' ->
  settings_in_range (opt_settings o').
Proof.
  unfold settings_in_range.
  intros (Hq & Hr & Hb & Hn & Hu & HL & Ht & Hp & Hc1 & Hc2 & Hm1 & Hm2) H.
  destruct a; cbn [apply_option] in H; unfold fatal_usage, show_usage_and_exit in H;
    repeat match type of H with
           | (if ?c then _ else _) = _ =>
               let E := fresh "E" in destruct c eqn:E; try discriminate H
           | bind ?m _ = _ => destruct m; cbn [bind] in H; try discriminate H
           end;
    try discriminate H;
    injection H as <-; cbn;
    repeat match goal with
           | E : (_ <? _) = false |- _ => apply Z.ltb_ge in E
           | E : (_ || _)%bool = false |- _ =>
               apply orb_false_iff in E; destruct E
           end;
    repeat split; try assumption; try lia.
Qed.

Lemma apply_options_in_range (args : list option_arg) :
  forall o o', settings_in_range (opt_settings o) ->
    apply_options o args = Ret o' ->
    settings_in_range (opt_settings o').
Proof.
  induction args as [|a more IH]; intros o o' Hok H; cbn [apply_options] in H.
  - injection H as <-. exact Hok.
  - destruct (apply_option o a) as [o1| |] eqn:Ha; cbn [bind] in H;
      try discriminate H.
    exact (IH o1 o' (apply_option_in_range o o1 a Hok Ha) H).
Qed.

(** X22.  Whatever options are given, when [main] gets past them the
    thresholds [-q], [-r], [-b] and the count [-n] are at least 1, [-u] is
    not negative, the width [-L] lies between 2 and 1000, the checks on the
    four floating thresholds hold, at least one of the three tables is
    switched on, no word is left after the options, and the number of CPUs
    is at least 1. *)
Theorem main_settings_in_range (args : list option_arg) (operands : bool)
    (found : option Z) (o : options) :
  match found with Some n => 0 <= n | None => True end ->
  main_settings args operands found = Ret o ->
  settings_in_range (opt_settings o)
  /\ (flag_C (opt_settings o) || flag_M (opt_settings o)
      || flag_B (opt_settings o))%bool = true
  /\ 1 <= ncpus (opt_settings o)
  /\ operands = false.
Proof.
  intros Hfound H. unfold main_settings in H.
  destruct (apply_options initial_options args) as [o1| |] eqn:Hargs;
    cbn [bind] in H; try discriminate H.
  destruct operands; [discriminate H|].
  injection H as <-.
  pose proof (apply_options_in_range args _ _ initial_options_in_range Hargs)
    as Hok.
  cbn [with_settings opt_settings flag_C flag_M flag_B ncpus].
  split; [|split; [|split; [|reflexivity]]].
  - unfold settings_in_range in *. cbn. exact Hok.
  - destruct (flag_C (opt_settings o1)), (flag_M (opt_settings o1)),
      (flag_B (opt_settings o1)); reflexivity.
  - unfold get_ncpus. destruct found as [n|]; [|lia].
    destruct (n =? 0) eqn:Hn; [lia|]. apply Z.eqb_neq in Hn. lia.
Qed.

Lemma main_settings_in_range_witness :
  exists o,
    main_settings [Opt_M; Opt_n 5; Opt_L 60%float;
                   Opt_d (list_ascii_of_string "/sys/block/sda/stat,sda")]
        false (Some 4) = Ret o
    /\ val_n (opt_settings o) = 5
    /\ szcmdlinebuf (opt_settings o) = 60
    /\ flag_C (opt_settings o) = false
    /\ 1 <= ncpus (opt_settings o).
Proof.
  eexists. split; [vm_compute; reflexivity|].
  repeat split.
  refine (proj1 (proj2 (proj2 (main_settings_in_range
            [Opt_M; Opt_n 5; Opt_L 60%float;
             Opt_d (list_ascii_of_string "/sys/block/sda/stat,sda")]
            false (Some 4) _ _ _)))).
  - cbn. lia.
  - vm_compute. reflexivity.
Defined.

(** ** The two loops *)

Lemma shown_signals_app (es es' : list event) :
  shown_signals (es ++ es') = shown_signals es ++ shown_signals es'.
Proof. unfold shown_signals. apply flat_map_app. Qed.

Lemma shows_loaded_stopped (cfg : settings) (rounds : list round)
    (es : list event) (end_ : outcome unit) :
  shown_signals es = [] -> end_ <> Ret tt ->
  shows_loaded cfg rounds (es, end_).
Proof.
  intros Hes Hend. exists [], rounds. cbn [fst snd app flat_map filter].
  split; [reflexivity|]. split; [exact Hes|].
  intros H. contradiction.
Qed.

Lemma shows_loaded_next (cfg : settings) (r : round) (more : list round)
    (sg : signals) (es : list event) (t : trace) :
  probes r = Ret sg ->
  shown_signals es = (if loaded cfg sg then [sg] else []) ->
  shows_loaded cfg more t ->
  shows_loaded cfg (r :: more) (emit es t).
Proof.
  intros Hsg Hes (done & rest & Hsplit & Hshown & Hend).
  exists (r :: done), rest. cbn [emit fst snd flat_map].
  split; [rewrite Hsplit; reflexivity|]. split; [|exact Hend].
  rewrite shown_signals_app, Hes, Hshown.
  replace (round_signals r) with [sg]
    by (unfold round_signals; rewrite Hsg; reflexivity).
  cbn [app filter]. destruct (loaded cfg sg); reflexivity.
Qed.

Lemma loops_show_loaded (cfg : settings) (rounds : list round) :
  shows_loaded cfg rounds (outer_loop cfg rounds)
  /\ shows_loaded cfg rounds (inner_loop_test cfg rounds).
Proof.
  induction rounds as [|r more [IHo IHi]].
  - split; exists [], []; cbn; repeat split; reflexivity.
  - split; cbn [outer_loop inner_loop_test].
    + destruct (probes r) as [sg| |] eqn:Hsg; cbn [step];
        try (apply shows_loaded_stopped; [reflexivity | discriminate]).
      destruct (loaded cfg sg) eqn:Hl.
      * destruct (sample_prior r) as [u| |]; cbn [step];
          try (apply shows_loaded_stopped; [reflexivity | discriminate]).
        destruct (report r) as [u'| |]; cbn [step];
          try (apply shows_loaded_stopped; [reflexivity | discriminate]).
        change (emit [TimeMarker]
                  (emit [TimeMarkerEol]
                     (emit [SamplePrior]
                        (emit [Show sg] (inner_loop_test cfg more)))))
          with (emit [TimeMarker; TimeMarkerEol; SamplePrior; Show sg]
                  (inner_loop_test cfg more)).
        apply (shows_loaded_next cfg r more sg); [exact Hsg| |exact IHi].
        rewrite Hl. reflexivity.
      * apply (shows_loaded_next cfg r more sg); [exact Hsg| |exact IHo].
        rewrite Hl. reflexivity.
    + destruct (probes r) as [sg| |] eqn:Hsg; cbn [step];
        try (apply shows_loaded_stopped; [reflexivity | discriminate]).
      destruct (loaded cfg sg) eqn:Hl.
      * destruct (report r) as [u'| |]; cbn [step];
          try (apply shows_loaded_stopped; [reflexivity | discriminate]).
        apply (shows_loaded_next cfg r more sg); [exact Hsg| |exact IHi].
        rewrite Hl. reflexivity.
      * apply (shows_loaded_next cfg r more sg); [exact Hsg| |exact IHo].
        rewrite Hl. reflexivity.
Qed.

Lemma loops_return (cfg : settings) (rounds : list round) :
  Forall round_returns rounds ->
  snd (outer_loop cfg rounds) = Ret tt
  /\ snd (inner_loop_test cfg rounds) = Ret tt.
Proof.
  induction 1 as [|r more ((sg & Hsg) & Hprior & Hreport) Hmore [IHo IHi]];
    [split; reflexivity|].
  split; cbn [outer_loop inner_loop_test];
    rewrite Hsg; cbn [step]; destruct (loaded cfg sg);
    rewrite ?Hprior, ?Hreport; cbn [step emit snd]; assumption.
Qed.

(** X23.  The two loops of [main] print a report for the samplings of the
    four signals that find the system loaded, and for no other: the reports
    printed are those of the loaded samplings of the passages the loops got
    through, in their order, one each, with the signals of that sampling in
    the header.  The loops get through every passage unless a call ends the
    program: a read of the signals, [get_task_usages], [get_disks_monitored]
    or [show_task_usages]; when every call returns, every loaded sampling
    has its report. *)
Theorem main_loop_shows_loaded (cfg : settings) (startup : outcome unit)
    (rounds : list round) :
  shows_loaded cfg rounds (main_loop cfg startup rounds)
  /\ (startup = Ret tt /\ Forall round_returns rounds ->
      snd (main_loop cfg startup rounds) = Ret tt
      /\ shown_signals (fst (main_loop cfg startup rounds))
         = filter (loaded cfg) (flat_map round_signals rounds)).
Proof.
  assert (Hshows : shows_loaded cfg rounds (main_loop cfg startup rounds)).
  { unfold main_loop.
    destruct startup as [u| |]; cbn [step];
      try (apply shows_loaded_stopped; [reflexivity | discriminate]).
    destruct (proj1 (loops_show_loaded cfg rounds))
      as (done & rest & Hsplit & Hshown & Hend).
    exists done, rest. cbn [emit fst snd].
    split; [exact Hsplit|]. split; [|exact Hend].
    rewrite shown_signals_app, Hshown. reflexivity. }
  split; [exact Hshows|].
  intros [Hstart Hall].
  assert (Hend : snd (main_loop cfg startup rounds) = Ret tt).
  { unfold main_loop. rewrite Hstart. cbn [step emit snd].
    exact (proj1 (loops_return cfg rounds Hall)). }
  split; [exact Hend|].
  destruct Hshows as (done & rest & Hsplit & Hshown & Hrest).
  rewrite (Hrest Hend), app_nil_r in Hsplit. rewrite Hshown, Hsplit.
  reflexivity.
Qed.
